(** * go-fiber-boilerplate: the resilient caching layer

    A shallow embedding of the cache-key generator, the cache invalidator,
    the rate limiter's key derivation, the Redis facade with its circuit
    breaker and the session cache, followed by the properties of the
    specification that they satisfy or violate.

    Go strings are byte sequences: they are embedded as [string] (a list of
    8-bit [ascii]).  Effects (the Redis server, the clock, the entropy
    source, the package-level variables) are threaded through an explicit
    world. *)

From Stdlib Require Import ZArith Ascii String List Lia Bool.
From stdpp Require Import base option list gmap strings pretty sorting.

Local Open Scope Z_scope.

(* ===================================================================== *)
(** * Part I. Definitions                                                 *)
(* ===================================================================== *)

(** ** Package [strings] of the Go standard library *)

Module strings.

(** [len(s)] *)
Definition len (s : string) : nat := String.length s.

(** [strings.HasPrefix(s, prefix)] *)
Fixpoint HasPrefix (s prefix : string) : bool :=
  match prefix, s with
  | EmptyString, _ => true
  | String _ _, EmptyString => false
  | String p prefix', String c s' =>
      if Ascii.eqb c p then HasPrefix s' prefix' else false
  end.

(** [s[n:]] for [n <= len(s)] *)
Fixpoint drop (n : nat) (s : string) : string :=
  match n, s with
  | O, _ => s
  | S _, EmptyString => EmptyString
  | S n', String _ s' => drop n' s'
  end.

(** [s[:n]] for [n <= len(s)] *)
Fixpoint take (n : nat) (s : string) : string :=
  match n, s with
  | O, _ => EmptyString
  | S _, EmptyString => EmptyString
  | S n', String c s' => String c (take n' s')
  end.

(** [strings.HasSuffix(s, suffix)]:
    [len(s) >= len(suffix) && s[len(s)-len(suffix):] == suffix] *)
Definition HasSuffix (s suffix : string) : bool :=
  (len suffix <=? len s)%nat
  && String.eqb (drop (len s - len suffix) s) suffix.

(** [strings.TrimSuffix(s, suffix)] *)
Definition TrimSuffix (s suffix : string) : string :=
  if HasSuffix s suffix then take (len s - len suffix) s else s.

(** [strings.TrimPrefix(s, prefix)] *)
Definition TrimPrefix (s prefix : string) : string :=
  if HasPrefix s prefix then drop (len prefix) s else s.

(** [strings.ReplaceAll(s, old, new)] for a non-empty [old]: the
    occurrences of [old] are found from left to right and do not overlap;
    the text produced by a replacement is not scanned again.  [skip]
    counts the bytes of a matched occurrence still to be dropped. *)
Fixpoint replace_from (old new : string) (skip : nat) (s : string) : string :=
  match s with
  | EmptyString => EmptyString
  | String c s' =>
      match skip with
      | S k => replace_from old new k s'
      | O =>
          if HasPrefix s old
          then new +:+ replace_from old new (len old - 1) s'
          else String c (replace_from old new O s')
      end
  end.

(** With an empty [old], Go inserts [new] before every rune and at the
    end; the sources only call it with ["//"]. *)
Fixpoint intersperse_new (new : string) (s : string) : string :=
  match s with
  | EmptyString => new
  | String c s' => new +:+ String c (intersperse_new new s')
  end.

Definition ReplaceAll (s old new : string) : string :=
  match old with
  | EmptyString => intersperse_new new s
  | _ => replace_from old new O s
  end.

(** [strings.Join(elems, sep)] *)
Fixpoint Join (elems : list string) (sep : string) : string :=
  match elems with
  | [] => EmptyString
  | [e] => e
  | e :: rest => e +:+ sep +:+ Join rest sep
  end.

(** [strings.Cut(s, sep)] for a one-byte separator: the text before the
    first [sep], the text after it, and whether [sep] was found. *)
Fixpoint Cut (s : string) (sep : ascii) : string * string * bool :=
  match s with
  | EmptyString => (EmptyString, EmptyString, false)
  | String c s' =>
      if Ascii.eqb c sep then (EmptyString, s', true)
      else let '(before, after, found) := Cut s' sep in
           (String c before, after, found)
  end.

(** [strings.Contains(s, substr)] for a one-byte [substr] *)
Fixpoint ContainsByte (s : string) (b : ascii) : bool :=
  match s with
  | EmptyString => false
  | String c s' => Ascii.eqb c b || ContainsByte s' b
  end.

End strings.

(** ** Go values of interface type and package [fmt] *)

(** The dynamic values that reach [interface{}] positions in the modelled
    code: the untyped [nil], strings, byte slices and integers. *)
Inductive any : Type :=
| ANil
| AStr (s : string)
| ABytes (b : string)
| AInt (z : Z).

Global Instance any_eq_dec : EqDecision any.
Proof. solve_decision. Defined.

Module fmt.

Definition type_name (a : any) : string :=
  match a with
  | ANil => "<nil>"
  | AStr _ => "string"
  | ABytes _ => "[]uint8"
  | AInt _ => "int"
  end.

(** The default (%v) rendering of a value. *)
Definition bytes_v (b : string) : string :=
  "[" +:+ strings.Join
            ((fun c => pretty (N.of_nat (nat_of_ascii c))) <$> list_ascii_of_string b)
            " " +:+ "]".

Definition show_v (a : any) : string :=
  match a with
  | ANil => "<nil>"
  | AStr s => s
  | ABytes b => bytes_v b
  | AInt z => pretty z
  end.

(** What a verb prints for an operand; an operand of the wrong kind is
    reported as [%!verb(type=value)]. *)
Definition bad_verb (v : ascii) (a : any) : string :=
  match a with
  | ANil => "%!" +:+ String v "(<nil>)"
  | _ => "%!" +:+ String v ("(" +:+ type_name a +:+ "=" +:+ show_v a +:+ ")")
  end.

Definition format_verb (v : ascii) (a : any) : string :=
  match v with
  | "v"%char => show_v a
  | "s"%char =>
      match a with
      | AStr s => s
      | ABytes b => b
      | _ => bad_verb v a
      end
  | "d"%char =>
      match a with
      | AInt z => pretty z
      | ABytes b => bytes_v b
      | _ => bad_verb v a
      end
  | _ => bad_verb v a
  end.

Definition extra (args : list any) : string :=
  match args with
  | [] => ""
  | _ => "%!(EXTRA "
           +:+ strings.Join ((fun a => type_name a +:+ "=" +:+ show_v a) <$> args) ", "
           +:+ ")"
  end.

(** [fmt.Sprintf(format, args...)] for the verbs [%s], [%v], [%d] and
    [%%], without flags or widths. *)
Fixpoint Sprintf (format : string) (args : list any) : string :=
  match format with
  | EmptyString => extra args
  | String "%" EmptyString => "%!(NOVERB)" +:+ extra args
  | String "%" (String v rest) =>
      if Ascii.eqb v "%" then String "%" (Sprintf rest args)
      else match args with
           | a :: args' => format_verb v a +:+ Sprintf rest args'
           | [] => "%!" +:+ String v "(MISSING)" +:+ Sprintf rest []
           end
  | String c rest => String c (Sprintf rest args)
  end.

End fmt.

(** ** Go errors *)

(** Error values.  The package-level sentinels are compared by identity in
    Go, so each is a constructor of its own; [errorString] stands for any
    other leaf error (a network failure, a failed read of the entropy
    source, ...) and [wrapError] for the result of [fmt.Errorf] with a
    [%w] operand. *)
Inductive error : Type :=
| ErrRedisUnavailable                 (* redis.ErrRedisUnavailable *)
| ErrCacheMiss                        (* service.ErrCacheMiss *)
| RedisNil                            (* goredis.Nil *)
| ErrOpenState                        (* gobreaker.ErrOpenState *)
| ErrTooManyRequests                  (* gobreaker.ErrTooManyRequests *)
| EscapeError (s : string)            (* url.EscapeError *)
| SyntaxError (msg : string)          (* json.SyntaxError and its kin *)
| errorString (msg : string)
| wrapError (msg : string) (err : error).

Global Instance error_eq_dec : EqDecision error.
Proof. solve_decision. Defined.

Module errors.

(** [err.Error()] *)
Definition Error (e : error) : string :=
  match e with
  | ErrRedisUnavailable => "redis unavailable"
  | ErrCacheMiss => "cache miss"
  | RedisNil => "redis: nil"
  | ErrOpenState => "circuit breaker is open"
  | ErrTooManyRequests => "too many requests"
  | EscapeError s => "invalid URL escape " +:+ s
  | SyntaxError msg => msg
  | errorString msg => msg
  | wrapError msg _ => msg
  end.

(** [errors.Is(err, target)]: [err] or an error it wraps is [target]. *)
Fixpoint Is (err target : error) : bool :=
  bool_decide (err = target)
  || match err with
     | wrapError _ inner => Is inner target
     | _ => false
     end.

(** [fmt.Errorf(prefix + "%w", err)] *)
Definition Errorf_w (prefix : string) (err : error) : error :=
  wrapError (prefix +:+ Error err) err.

End errors.

(** ** Package [net/url] of the Go standard library *)

Module url.

Definition ishex (c : ascii) : bool :=
  let n := nat_of_ascii c in
  ((48 <=? n) && (n <=? 57) || (97 <=? n) && (n <=? 102)
   || (65 <=? n) && (n <=? 70))%nat.

Definition unhex (c : ascii) : nat :=
  let n := nat_of_ascii c in
  if ((48 <=? n) && (n <=? 57))%nat then n - 48
  else if ((97 <=? n) && (n <=? 102))%nat then n - 97 + 10
  else if ((65 <=? n) && (n <=? 70))%nat then n - 65 + 10
  else 0%nat.

(** [url.QueryUnescape]: [%XX] is decoded, [+] becomes a space, and a
    [%] that is not followed by two hexadecimal digits is an error that
    carries at most three bytes from the [%] on. *)
Fixpoint QueryUnescape (s : string) : string + error :=
  match s with
  | EmptyString => inl EmptyString
  | String "%" rest =>
      match rest with
      | String h1 (String h2 rest') =>
          if ishex h1 && ishex h2
          then match QueryUnescape rest' with
               | inl t => inl (String (ascii_of_nat (unhex h1 * 16 + unhex h2)) t)
               | inr e => inr e
               end
          else inr (EscapeError (strings.take 3 s))
      | _ => inr (EscapeError (strings.take 3 s))
      end
  | String "+" rest =>
      match QueryUnescape rest with
      | inl t => inl (String " " t)
      | inr e => inr e
      end
  | String c rest =>
      match QueryUnescape rest with
      | inl t => inl (String c t)
      | inr e => inr e
      end
  end.

(** [shouldEscape(c, encodeQueryComponent)]: everything but the
    unreserved characters is escaped. *)
Definition shouldEscape (c : ascii) : bool :=
  let n := nat_of_ascii c in
  negb (((97 <=? n) && (n <=? 122) || (65 <=? n) && (n <=? 90)
         || (48 <=? n) && (n <=? 57))%nat
        || Ascii.eqb c "-" || Ascii.eqb c "_" || Ascii.eqb c "."
        || Ascii.eqb c "~").

Definition upperhex (n : nat) : ascii :=
  if (n <? 10)%nat then ascii_of_nat (48 + n) else ascii_of_nat (65 + (n - 10)).

(** [url.QueryEscape] *)
Fixpoint QueryEscape (s : string) : string :=
  match s with
  | EmptyString => EmptyString
  | String c rest =>
      if shouldEscape c then
        if Ascii.eqb c " " then String "+" (QueryEscape rest)
        else String "%" (String (upperhex (nat_of_ascii c / 16))
               (String (upperhex (nat_of_ascii c mod 16)) (QueryEscape rest)))
      else String c (QueryEscape rest)
  end.

(** [url.Values] is [map[string][]string]. *)
Abbreviation Values := (gmap string (list string)).

(** The loop of [parseQuery(m, query)].  Every round cuts one
    [&]-separated segment off the front of [query], so
    [S (len query)] rounds of [fuel] are enough ([parseQuery_fuel]). *)
Fixpoint parseQuery (fuel : nat) (m : Values) (err : option error)
    (query : string) : Values * option error :=
  match fuel with
  | O => (m, err)
  | S fuel' =>
      match query with
      | EmptyString => (m, err)
      | _ =>
          let '(key, query', _) := strings.Cut query "&" in
          if strings.ContainsByte key ";" then
            parseQuery fuel' m
              (Some (errorString "invalid semicolon separator in query")) query'
          else if bool_decide (key = "") then parseQuery fuel' m err query'
          else
            let '(key, value, _) := strings.Cut key "=" in
            match QueryUnescape key with
            | inr err1 =>
                parseQuery fuel' m
                  (match err with None => Some err1 | _ => err end) query'
            | inl key =>
                match QueryUnescape value with
                | inr err1 =>
                    parseQuery fuel' m
                      (match err with None => Some err1 | _ => err end) query'
                | inl value =>
                    (* m[key] = append(m[key], value) *)
                    parseQuery fuel'
                      (<[key := default [] (m !! key) ++ [value]]> m) err query'
                end
            end
      end
  end.

(** [url.ParseQuery(query)] *)
Definition ParseQuery (query : string) : Values * option error :=
  parseQuery (S (strings.len query)) ∅ None query.

End url.

(** ** Package [sort] *)

Module sort.
(** [sort.Strings]: ascending byte-wise order.  [String.le] is a total
    order, so the sorted arrangement of a list is unique and the sorting
    algorithm does not show. *)
Definition Strings (x : list string) : list string := merge_sort String.le x.
End sort.

(** ** middleware/cache/keygen.go *)

Module keygen.

(** [CacheKeyPrefix] *)
Definition CacheKeyPrefix : string := "api:response:".

(** [normalizePath] *)
Definition normalizePath (path : string) : string :=
  (* Remove duplicate slashes *)
  let path := strings.ReplaceAll path "//" "/" in
  (* Remove trailing slash *)
  let path := strings.TrimSuffix path "/" in
  path.

(** The names of the parameters, as [for name := range params] collects
    them.  Go visits a map in an unspecified order; the list is sorted
    before it is used ([sort_Strings_perm]). *)
Definition names_of (params : url.Values) : list string :=
  (map_to_list params).*1.

(** The inner loop of [sortQueryParams]: the [name=value] parts of one
    parameter name, in the order of its values. *)
Definition parts_of (params : url.Values) (name : string) : list string :=
  (fun value => fmt.Sprintf "%s=%s" [AStr name; AStr (url.QueryEscape value)])
    <$> default [] (params !! name).

(** [sortQueryParams] *)
Definition sortQueryParams (queryString : string) : string :=
  if bool_decide (queryString = "") then ""
  else
    let '(params, err) := url.ParseQuery queryString in
    match err with
    | Some _ => queryString
    | None =>
        let names := sort.Strings (names_of params) in
        let sortedParts := names ≫= parts_of params in
        strings.Join sortedParts "&"
    end.

(** [GenerateCacheKey] *)
Definition GenerateCacheKey (method path queryString : string) : string :=
  let normalizedPath := normalizePath path in
  let sortedQuery := sortQueryParams queryString in
  fmt.Sprintf "%s%s:%s?%s"
    [AStr CacheKeyPrefix; AStr method; AStr normalizedPath; AStr sortedQuery].

Definition skipPaths : list string :=
  ["/login"; "/register"; "/auth/token"; "/auth/refresh"].

(** The loop of [shouldSkipCache] over [skipPaths]. *)
Fixpoint any_prefix (path : string) (skip : list string) : bool :=
  match skip with
  | [] => false
  | skipPath :: rest =>
      if strings.HasPrefix path skipPath then true else any_prefix path rest
  end.

(** [shouldSkipCache] *)
Definition shouldSkipCache (path : string) : bool := any_prefix path skipPaths.

End keygen.

(** ** cache/patterns.go *)

Module patterns.

(** [SessionKeyPrefix] *)
Definition SessionKeyPrefix : string := "session:user:".

(** [GetSessionKey] *)
Definition GetSessionKey (userID : string) : string :=
  fmt.Sprintf "%s%s" [AStr SessionKeyPrefix; AStr userID].

(** [GetSessionPattern] *)
Definition GetSessionPattern (userID : string) : string :=
  fmt.Sprintf "%s%s" [AStr SessionKeyPrefix; AStr userID].

(** [GetAPIResponseKeyPattern] *)
Definition GetAPIResponseKeyPattern (userID : string) : string :=
  fmt.Sprintf "api:response:*:user:%s:*" [AStr userID].

End patterns.

(** ** The circuit breaker, [github.com/sony/gobreaker/v2] *)

(** Modelled from the spec: the transition function of the circuit breaker.
    The breaker is the library that [NewRedisClient] configures; its code is
    not among the sources.  The model follows the component design of the
    specification: CLOSED counts failures and trips to OPEN when the
    consecutive failures pass the threshold; OPEN rejects every request
    until the cooldown has elapsed; HALF-OPEN admits a bounded number of
    trial requests, advances a trial-success counter on a success, closes
    after the configured number of trial successes and reopens on a
    failure.  Names are those of the library.  Times are nanoseconds;
    [time.Now()] is passed in as [now]. *)

Module gobreaker.

Inductive State : Type := StateClosed | StateHalfOpen | StateOpen.

Global Instance State_eq_dec : EqDecision State.
Proof. solve_decision. Defined.

(** [Counts]; the fields are [uint32]. *)
Record Counts : Type := mkCounts {
  Requests : Z;
  TotalSuccesses : Z;
  TotalFailures : Z;
  ConsecutiveSuccesses : Z;
  ConsecutiveFailures : Z
}.

Definition incr32 (x : Z) : Z := (x + 1) mod 2 ^ 32.
Definition incr64 (x : Z) : Z := (x + 1) mod 2 ^ 64.

Definition Counts_onRequest (c : Counts) : Counts :=
  mkCounts (incr32 (Requests c)) (TotalSuccesses c) (TotalFailures c)
           (ConsecutiveSuccesses c) (ConsecutiveFailures c).

Definition Counts_onSuccess (c : Counts) : Counts :=
  mkCounts (Requests c) (incr32 (TotalSuccesses c)) (TotalFailures c)
           (incr32 (ConsecutiveSuccesses c)) 0.

Definition Counts_onFailure (c : Counts) : Counts :=
  mkCounts (Requests c) (TotalSuccesses c) (incr32 (TotalFailures c))
           0 (incr32 (ConsecutiveFailures c)).

Definition Counts_clear : Counts := mkCounts 0 0 0 0 0.

(** [Settings]; a nil [ReadyToTrip] is [None].  [OnStateChange] only
    logs and is left out. *)
Record Settings : Type := mkSettings {
  MaxRequests : Z;
  Interval : Z;
  Timeout : Z;
  ReadyToTrip : option (Counts → bool)
}.

(** [CircuitBreaker]; the zero [time.Time] of [expiry] is [None]. *)
Record CircuitBreaker : Type := mkCB {
  maxRequests : Z;
  interval : Z;
  timeout : Z;
  readyToTrip : Counts → bool;
  state : State;
  generation : Z;
  counts : Counts;
  expiry : option Z
}.

Definition with_state (st : State) (cb : CircuitBreaker) : CircuitBreaker :=
  mkCB (maxRequests cb) (interval cb) (timeout cb) (readyToTrip cb)
       st (generation cb) (counts cb) (expiry cb).

Definition with_counts (c : Counts) (cb : CircuitBreaker) : CircuitBreaker :=
  mkCB (maxRequests cb) (interval cb) (timeout cb) (readyToTrip cb)
       (state cb) (generation cb) c (expiry cb).

(** [expiry.Before(now)]; the zero time is before every instant. *)
Definition Before (t : option Z) (now : Z) : bool :=
  match t with
  | None => true
  | Some t => t <? now
  end.

(** [toNewGeneration] *)
Definition toNewGeneration (now : Z) (cb : CircuitBreaker) : CircuitBreaker :=
  mkCB (maxRequests cb) (interval cb) (timeout cb) (readyToTrip cb)
       (state cb) (incr64 (generation cb)) Counts_clear
       (match state cb with
        | StateClosed =>
            if interval cb =? 0 then None else Some (now + interval cb)
        | StateOpen => Some (now + timeout cb)
        | StateHalfOpen => None
        end).

(** [setState] *)
Definition setState (st : State) (now : Z) (cb : CircuitBreaker) : CircuitBreaker :=
  if decide (state cb = st) then cb
  else toNewGeneration now (with_state st cb).

(** Modelled from the spec: [currentState], the breaker after the
    transitions that the passing of time brings (a new counting interval
    when CLOSED, HALF-OPEN after the cooldown when OPEN), its state and its
    generation. *)
Definition currentState (now : Z) (cb : CircuitBreaker)
    : CircuitBreaker * State * Z :=
  let cb' :=
    match state cb with
    | StateClosed =>
        if negb (bool_decide (expiry cb = None)) && Before (expiry cb) now
        then toNewGeneration now cb else cb
    | StateOpen =>
        if Before (expiry cb) now then setState StateHalfOpen now cb else cb
    | StateHalfOpen => cb
    end in
  (cb', state cb', generation cb').

(** [State()] *)
Definition StateOf (now : Z) (cb : CircuitBreaker) : CircuitBreaker * State :=
  let '(cb', st, _) := currentState now cb in (cb', st).

(** Modelled from the spec: [beforeRequest], the admission of a request. *)
Definition beforeRequest (now : Z) (cb : CircuitBreaker)
    : CircuitBreaker * Z * option error :=
  let '(cb', st, gen) := currentState now cb in
  if decide (st = StateOpen) then (cb', gen, Some ErrOpenState)
  else if bool_decide (st = StateHalfOpen)
          && (maxRequests cb' <=? Requests (counts cb'))
  then (cb', gen, Some ErrTooManyRequests)
  else (with_counts (Counts_onRequest (counts cb')) cb', gen, None).

(** Modelled from the spec: [onSuccess], the effect of a success. *)
Definition onSuccess (st : State) (now : Z) (cb : CircuitBreaker) : CircuitBreaker :=
  match st with
  | StateClosed => with_counts (Counts_onSuccess (counts cb)) cb
  | StateHalfOpen =>
      let cb' := with_counts (Counts_onSuccess (counts cb)) cb in
      if maxRequests cb' <=? ConsecutiveSuccesses (counts cb')
      then setState StateClosed now cb' else cb'
  | StateOpen => cb
  end.

(** Modelled from the spec: [onFailure], the effect of a failure. *)
Definition onFailure (st : State) (now : Z) (cb : CircuitBreaker) : CircuitBreaker :=
  match st with
  | StateClosed =>
      let cb' := with_counts (Counts_onFailure (counts cb)) cb in
      if readyToTrip cb' (counts cb') then setState StateOpen now cb' else cb'
  | StateHalfOpen => setState StateOpen now cb
  | StateOpen => cb
  end.

(** Modelled from the spec: [afterRequest], the accounting of an admitted
    request; a result that belongs to an older generation is dropped. *)
Definition afterRequest (now : Z) (before : Z) (success : bool)
    (cb : CircuitBreaker) : CircuitBreaker :=
  let '(cb', st, gen) := currentState now cb in
  if negb (gen =? before) then cb'
  else if success then onSuccess st now cb' else onFailure st now cb'.

Definition defaultReadyToTrip (c : Counts) : bool := 5 <? ConsecutiveFailures c.

Definition second : Z := 1000000000.
Definition minute : Z := 60 * second.

(** [NewCircuitBreaker] *)
Definition NewCircuitBreaker (st : Settings) (now : Z) : CircuitBreaker :=
  toNewGeneration now
    (mkCB (if MaxRequests st =? 0 then 1 else MaxRequests st)
          (if Interval st <=? 0 then 0 else Interval st)
          (if Timeout st <=? 0 then 60 * second else Timeout st)
          (match ReadyToTrip st with
           | None => defaultReadyToTrip
           | Some f => f
           end)
          StateClosed 0 Counts_clear None).

(** A request that runs from admission to its result at the instant [now]
    and succeeds ([ok]) or fails: the breaker afterwards, and the error of
    a rejected request. *)
Definition call (now : Z) (ok : bool) (cb : CircuitBreaker)
    : CircuitBreaker * option error :=
  let '(cb1, generation, err) := beforeRequest now cb in
  match err with
  | Some e => (cb1, Some e)
  | None => (afterRequest now generation ok cb1, None)
  end.

(** The breaker after the requests of a list, each with the instant at
    which it runs and its result. *)
Definition calls (reqs : list (Z * bool)) (cb : CircuitBreaker) : CircuitBreaker :=
  foldl (fun cb '(now, ok) => (call now ok cb).1) cb reqs.

End gobreaker.

(** ** The Redis server behind the client

    The server is outside the repository.  It is modelled as a keyspace
    with expiry times, glob matching for [SCAN ... MATCH] as the server
    implements it ([*], [?], bracket classes and backslash escapes), and a
    transport that may fail. *)

Module server.

Inductive tok : Type :=
| TStar
| TAny
| TLit (c : ascii)
| TClass (neg : bool) (items : list (ascii * ascii)).

(** The pattern as a list of tokens; [cls] holds the bracket class that
    is being read. *)
Fixpoint tokens (cls : option (bool * list (ascii * ascii))) (p : string)
    : list tok :=
  match cls with
  | None =>
      match p with
      | EmptyString => []
      | String "*" p' => TStar :: tokens None p'
      | String "?" p' => TAny :: tokens None p'
      | String "[" (String "^" p') => tokens (Some (true, [])) p'
      | String "[" p' => tokens (Some (false, [])) p'
      | String "\" (String c p') => TLit c :: tokens None p'
      | String c p' => TLit c :: tokens None p'
      end
  | Some (neg, items) =>
      match p with
      | EmptyString => [TClass neg items]
      | String "\" (String c p') => tokens (Some (neg, items ++ [(c, c)])) p'
      | String "]" p' => TClass neg items :: tokens None p'
      | String a (String "-" (String b p')) =>
          let lo := if (nat_of_ascii a <=? nat_of_ascii b)%nat then a else b in
          let hi := if (nat_of_ascii a <=? nat_of_ascii b)%nat then b else a in
          tokens (Some (neg, items ++ [(lo, hi)])) p'
      | String c p' => tokens (Some (neg, items ++ [(c, c)])) p'
      end
  end.

Definition in_class (items : list (ascii * ascii)) (c : ascii) : bool :=
  existsb (fun '(lo, hi) =>
             (nat_of_ascii lo <=? nat_of_ascii c)%nat
             && (nat_of_ascii c <=? nat_of_ascii hi)%nat) items.

Fixpoint match_tokens (p : list tok) (s : string) : bool :=
  match p with
  | [] => bool_decide (s = EmptyString)
  | TStar :: p' =>
      (fix star (s : string) : bool :=
         match_tokens p' s
         || match s with
            | EmptyString => false
            | String _ s' => star s'
            end) s
  | TAny :: p' =>
      match s with
      | EmptyString => false
      | String _ s' => match_tokens p' s'
      end
  | TLit c :: p' =>
      match s with
      | EmptyString => false
      | String d s' => Ascii.eqb c d && match_tokens p' s'
      end
  | TClass neg items :: p' =>
      match s with
      | EmptyString => false
      | String d s' => xorb neg (in_class items d) && match_tokens p' s'
      end
  end.

(** Does [key] match the glob [pattern]? *)
Definition glob (pattern key : string) : bool :=
  match_tokens (tokens None pattern) key.

(** A stored value and the instant at which it expires, if any. *)
Record Entry : Type := mkEntry { value : string; expireAt : option Z }.

Definition live (now : Z) (e : Entry) : bool :=
  match expireAt e with
  | None => true
  | Some t => now <? t
  end.

Abbreviation Keyspace := (gmap string Entry).

Definition lookup_live (now : Z) (ks : Keyspace) (key : string) : option Entry :=
  match ks !! key with
  | Some e => if live now e then Some e else None
  | None => None
  end.

(** The commands the modelled code sends.  One [CmdScan] stands for the
    whole cursor iteration of a [SCAN ... MATCH pattern]. *)
Inductive Command : Type :=
| CmdPing
| CmdSet (key val : string) (ttl : Z)
| CmdGet (key : string)
| CmdDel (keys : list string)
| CmdScan (pattern : string).

Inductive Reply : Type :=
| Pong
| OK
| Bulk (val : string)
| NilReply
| Int (n : Z)
| Keys (keys : list string).

(** The effect of a command that reaches the server.  [SET] with a
    positive expiration sets the expiry, with [KeepTTL] (-1) keeps the old
    one, and otherwise stores the value without expiry. *)
Definition exec (now : Z) (c : Command) (ks : Keyspace) : Reply * Keyspace :=
  match c with
  | CmdPing => (Pong, ks)
  | CmdSet key val ttl =>
      let exp :=
        if 0 <? ttl then Some (now + ttl)
        else if ttl =? -1
             then match lookup_live now ks key with
                  | Some e => expireAt e
                  | None => None
                  end
             else None in
      (OK, <[key := mkEntry val exp]> ks)
  | CmdGet key =>
      match lookup_live now ks key with
      | Some e => (Bulk (value e), ks)
      | None => (NilReply, ks)
      end
  | CmdDel keys =>
      (Int (Z.of_nat (length (filter (fun k => is_Some (lookup_live now ks k)) keys))),
       foldr delete ks keys)
  | CmdScan pattern =>
      (Keys (filter (fun k => glob pattern k = true
                              ∧ is_Some (lookup_live now ks k))
                    (map_to_list ks).*1), ks)
  end.

End server.

(** ** The world: package-level variables, the heap and the environment *)

(** The address of a heap-allocated circuit breaker. *)
Definition ptr : Type := nat.

(** [*redis.Client] of go-redis: the options it was created with. *)
Record goredis_Client : Type := mkClient { Addr : string; DB : Z }.

Record World : Type := mkWorld {
  (* package redis *)
  redis_redisClient : option goredis_Client;
  redis_redisAvailable : Z;                      (* int32, read and written atomically *)
  redis_redisCB : option ptr;
  (* package config *)
  config_SessionCacheTTL : Z;
  (* the heap *)
  heap : gmap ptr gobreaker.CircuitBreaker;
  (* the environment *)
  clock : Z;                               (* time.Now(), in nanoseconds *)
  keyspace : server.Keyspace;
  faults : list (option error);            (* the fate of the coming commands *)
  wire : list server.Command;              (* the commands sent so far *)
  entropy : list (string + error)          (* the coming reads of crypto/rand *)
}.

Definition set_redis_redisClient (c : option goredis_Client) (w : World) : World :=
  mkWorld c (redis_redisAvailable w) (redis_redisCB w) (config_SessionCacheTTL w) (heap w)
          (clock w) (keyspace w) (faults w) (wire w) (entropy w).
Definition set_redis_redisAvailable (v : Z) (w : World) : World :=
  mkWorld (redis_redisClient w) v (redis_redisCB w) (config_SessionCacheTTL w) (heap w)
          (clock w) (keyspace w) (faults w) (wire w) (entropy w).
Definition set_redis_redisCB (p : option ptr) (w : World) : World :=
  mkWorld (redis_redisClient w) (redis_redisAvailable w) p (config_SessionCacheTTL w) (heap w)
          (clock w) (keyspace w) (faults w) (wire w) (entropy w).
Definition set_heap (h : gmap ptr gobreaker.CircuitBreaker) (w : World) : World :=
  mkWorld (redis_redisClient w) (redis_redisAvailable w) (redis_redisCB w) (config_SessionCacheTTL w) h
          (clock w) (keyspace w) (faults w) (wire w) (entropy w).
Definition set_clock (t : Z) (w : World) : World :=
  mkWorld (redis_redisClient w) (redis_redisAvailable w) (redis_redisCB w) (config_SessionCacheTTL w) (heap w)
          t (keyspace w) (faults w) (wire w) (entropy w).
Definition set_net (ks : server.Keyspace) (fs : list (option error))
    (cs : list server.Command) (w : World) : World :=
  mkWorld (redis_redisClient w) (redis_redisAvailable w) (redis_redisCB w) (config_SessionCacheTTL w) (heap w)
          (clock w) ks fs cs (entropy w).
Definition set_entropy (e : list (string + error)) (w : World) : World :=
  mkWorld (redis_redisClient w) (redis_redisAvailable w) (redis_redisCB w) (config_SessionCacheTTL w) (heap w)
          (clock w) (keyspace w) (faults w) (wire w) e.

(** The environment lets [d] nanoseconds pass. *)
Definition elapse (d : Z) (w : World) : World := set_clock (clock w + d) w.

(** A computation either finishes with a value and a new world or panics
    (a nil dereference). *)
Inductive Outcome (A : Type) : Type :=
| Done (a : A) (w : World)
| Panic (msg : string).
Arguments Done {A} a w.
Arguments Panic {A} msg.

Definition M (A : Type) : Type := World → Outcome A.

Global Instance M_ret : MRet M := λ A a w, Done a w.
Global Instance M_bind : MBind M := λ A B f m w,
  match m w with
  | Done a w' => f a w'
  | Panic msg => Panic msg
  end.

Definition panic {A} (msg : string) : M A := λ _, Panic msg.
Definition gets {A} (f : World → A) : M A := λ w, Done (f w) w.
Definition modify (f : World → World) : M unit := λ w, Done () (f w).

Definition nil_deref : string := "invalid memory address or nil pointer dereference".

(** A Go result [(T, error)]. *)
Definition res (T : Type) : Type := T * option error.

(** ** The go-redis client *)

Module goredis.

(** One round trip: the command is written to the wire; the transport
    either fails, and the server does not see the command, or the server
    executes it. *)
Definition roundtrip (c : server.Command) : M (server.Reply + error) := λ w,
  let wire' := wire w ++ [c] in
  match faults w with
  | Some e :: fs => Done (inr e) (set_net (keyspace w) fs wire' w)
  | fs =>
      let '(r, ks) := server.exec (clock w) c (keyspace w) in
      Done (inl r) (set_net ks (tail fs) wire' w)
  end.

(** A method call on a [*redis.Client]; the nil client panics. *)
Definition on_client {A} (c : option goredis_Client) (m : M A) : M A :=
  match c with
  | None => panic nil_deref
  | Some _ => m
  end.

(** [client.Ping(ctx).Err()] *)
Definition Ping (c : option goredis_Client) : M (option error) :=
  on_client c (r ← roundtrip server.CmdPing;
               mret (match r with inr e => Some e | inl _ => None end)).

(** [client.Set(ctx, key, value, ttl).Err()] ([Set] is reserved) *)
Definition Set_ (c : option goredis_Client) (key val : string) (ttl : Z)
    : M (option error) :=
  on_client c (r ← roundtrip (server.CmdSet key val ttl);
               mret (match r with inr e => Some e | inl _ => None end)).

(** [client.Get(ctx, key).Bytes()] *)
Definition Get (c : option goredis_Client) (key : string) : M (res string) :=
  on_client c (r ← roundtrip (server.CmdGet key);
               mret (match r with
                     | inr e => (EmptyString, Some e)
                     | inl (server.Bulk v) => (v, None)
                     | inl _ => (EmptyString, Some RedisNil)
                     end)).

(** [client.Del(ctx, keys...).Err()] *)
Definition Del (c : option goredis_Client) (keys : list string) : M (option error) :=
  on_client c (r ← roundtrip (server.CmdDel keys);
               mret (match r with inr e => Some e | inl _ => None end)).

(** [client.Scan(ctx, 0, pattern, 0).Iterator()] run to its end: the keys
    that [iter.Val()] yields and [iter.Err()]. *)
Definition Scan (c : option goredis_Client) (pattern : string)
    : M (res (list string)) :=
  on_client c (r ← roundtrip (server.CmdScan pattern);
               mret (match r with
                     | inr e => ([], Some e)
                     | inl (server.Keys ks) => (ks, None)
                     | inl _ => ([], None)
                     end)).

End goredis.

(** ** redis/client.go *)

Module redis.

(** The fields of [config.RedisConfig] that [NewRedisClient] reads to
    build the client address; the pool sizes and timeouts only tune the
    connection. *)
Record RedisConfig : Type := mkRedisConfig {
  Host : string;
  Port : Z;
  RedisDB : Z;
  Enabled : bool
}.

(** [RedisClient]; a nil [*RedisClient] is [None]. *)
Record RedisClient : Type := mkRedisClient {
  client : option goredis_Client;
  circuitBreaker : option ptr
}.

(** The settings of the breaker in [NewRedisClient]. *)
Definition breakerSettings : gobreaker.Settings :=
  gobreaker.mkSettings 5 gobreaker.minute (30 * gobreaker.second)
    (Some (fun counts => 3 <? gobreaker.ConsecutiveFailures counts)).

(** Reading and writing the breaker behind a pointer. *)
Definition load (p : ptr) : M gobreaker.CircuitBreaker := λ w,
  match heap w !! p with
  | Some cb => Done cb w
  | None => Panic nil_deref
  end.

Definition store (p : ptr) (cb : gobreaker.CircuitBreaker) : M unit :=
  modify (fun w => set_heap (<[p := cb]> (heap w)) w).

Definition alloc (cb : gobreaker.CircuitBreaker) : M ptr := λ w,
  let p := fresh (dom (heap w)) in
  Done p (set_heap (<[p := cb]> (heap w)) w).

(** [cb.State()] *)
Definition breakerState (cb : option ptr) : M gobreaker.State :=
  match cb with
  | None => panic nil_deref
  | Some p =>
      c ← load p;
      now ← gets clock;
      let '(c', st) := gobreaker.StateOf now c in
      _ ← store p c';
      mret st
  end.

(** [cb.Execute(req)]: a rejected request does not run [req]; an admitted
    one is accounted for once [req] has returned. *)
Definition Execute (cb : option ptr) (req : M (res any)) : M (res any) :=
  match cb with
  | None => panic nil_deref
  | Some p =>
      c ← load p;
      now ← gets clock;
      let '(c', generation, err) := gobreaker.beforeRequest now c in
      _ ← store p c';
      match err with
      | Some e => mret (ANil, Some e)
      | None =>
          '(result, err) ← req;
          c ← load p;
          now ← gets clock;
          _ ← store p (gobreaker.afterRequest now generation
                         (bool_decide (err = None)) c);
          mret (result, err)
      end
  end.

(** [setAvailable] *)
Definition setAvailable (available : bool) : M unit :=
  let v := if available then 1 else 0 in
  modify (set_redis_redisAvailable v).

(** [testConnection] *)
Definition testConnection (c : option goredis_Client) : M (option error) :=
  goredis.Ping c.

(** [NewRedisClient]; the health monitor it starts runs on its own
    ([healthMonitorTick] is one round of it). *)
Definition NewRedisClient (cfg : RedisConfig) : M (res (option RedisClient)) :=
  if negb (Enabled cfg) then
    _ ← setAvailable false;
    mret (None, None)
  else
    let client :=
      Some (mkClient (fmt.Sprintf "%s:%d" [AStr (Host cfg); AInt (Port cfg)])
                     (RedisDB cfg)) in
    now ← gets clock;
    cb ← alloc (gobreaker.NewCircuitBreaker breakerSettings now);
    _ ← modify (set_redis_redisClient client);
    _ ← modify (set_redis_redisCB (Some cb));
    err ← testConnection client;
    match err with
    | Some e =>
        _ ← setAvailable false;
        mret (None, Some (errors.Errorf_w "redis connection failed: " e))
    | None =>
        _ ← setAvailable true;
        mret (Some (mkRedisClient client (Some cb)), None)
    end.

(** [IsAvailable] *)
Definition IsAvailable : M bool :=
  flag ← gets redis_redisAvailable;
  if flag =? 0 then mret false
  else
    cb ← gets redis_redisCB;
    match cb with
    | None => mret true
    | Some _ =>
        st ← breakerState cb;
        if decide (st = gobreaker.StateOpen) then mret false else mret true
    end.

(** One round of [startHealthMonitor], on a tick of its timer. *)
Definition healthMonitorTick : M unit :=
  c ← gets redis_redisClient;
  match c with
  | None => mret ()
  | Some _ =>
      err ← goredis.Ping c;
      match err with
      | Some _ => setAvailable false
      | None =>
          flag ← gets redis_redisAvailable;
          if flag =? 0 then setAvailable true else mret ()
      end
  end.

(** [GetClient]; on a nil receiver the field access panics. *)
Definition GetClient (r : option RedisClient) : M (option goredis_Client) :=
  match r with
  | None => panic nil_deref
  | Some r => mret (client r)
  end.

(** [ExecuteWithCircuitBreaker] *)
Definition ExecuteWithCircuitBreaker (r : option RedisClient)
    (fn : M (res any)) : M (res any) :=
  match r with
  | None => mret (ANil, Some ErrRedisUnavailable)
  | Some r => Execute (circuitBreaker r) fn
  end.

(** [Close]; closing the connection has no effect that is modelled. *)
Definition Close (r : option RedisClient) : M (option error) :=
  match r with
  | None => mret None
  | Some r =>
      match client r with
      | None => mret None
      | Some _ => mret None
      end
  end.

End redis.

(** ** cache/invalidator.go

    The repository holds two revisions of this file.  They share
    [CacheInvalidator], [NewCacheInvalidator] and [InvalidateByPattern] and
    differ in [InvalidateUserRelatedCache]. *)

Module invalidator.

(** [CacheInvalidator]; a nil [*CacheInvalidator] is [None]. *)
Record CacheInvalidator : Type := mkCacheInvalidator {
  redisClient : option goredis_Client
}.

(** [NewCacheInvalidator] *)
Definition NewCacheInvalidator (redisClient : option redis.RedisClient)
    : M (option CacheInvalidator) :=
  match redisClient with
  | None => mret None
  | Some _ =>
      goRedisClient ← redis.GetClient redisClient;
      mret (Some (mkCacheInvalidator goRedisClient))
  end.

(** [InvalidateByPattern] *)
Definition InvalidateByPattern (ci : option CacheInvalidator) (pattern : string)
    : M (option error) :=
  match ci with
  | None => mret None
  | Some ci =>
      match redisClient ci with
      | None => mret None
      | Some _ =>
          '(keys, err) ← goredis.Scan (redisClient ci) pattern;
          match err with
          | Some err => mret (Some (errors.Errorf_w "scan iterator error: " err))
          | None =>
              if (0 <? length keys)%nat then
                err ← goredis.Del (redisClient ci) keys;
                match err with
                | Some err =>
                    mret (Some (errors.Errorf_w "failed to delete keys: " err))
                | None => mret None
                end
              else mret None
          end
      end
  end.

(** The revision with a session pattern and one response pattern
    (unnamed/part_005). *)

(** [InvalidateSessionCache] *)
Definition InvalidateSessionCache (ci : option CacheInvalidator) (userID : string)
    : M (option error) :=
  match ci with
  | None => mret None
  | Some _ =>
      let sessionPattern := patterns.GetSessionPattern userID in
      InvalidateByPattern ci sessionPattern
  end.

(** [InvalidateUserRelatedCache] *)
Definition InvalidateUserRelatedCache (ci : option CacheInvalidator)
    (userID : string) : M (option error) :=
  match ci with
  | None => mret None
  | Some _ =>
      (* Invalidate session cache; a failure is logged *)
      _ ← InvalidateSessionCache ci userID;
      (* Invalidate API response cache; a failure is logged *)
      let apiPattern := patterns.GetAPIResponseKeyPattern userID in
      _ ← InvalidateByPattern ci apiPattern;
      mret None
  end.

(** The revision with four path patterns (src/cache/invalidator.go). *)

Definition pathPatterns (userID : string) : list string :=
  [ "api:response:GET:/users*";
    "api:response:HEAD:/users*";
    fmt.Sprintf "api:response:GET:/users/%s*" [AStr userID];
    fmt.Sprintf "api:response:HEAD:/users/%s*" [AStr userID] ].

Fixpoint invalidate_each (ci : option CacheInvalidator) (patterns : list string)
    : M unit :=
  match patterns with
  | [] => mret ()
  | pattern :: rest =>
      (* a failure is logged: invalidation is best-effort *)
      _ ← InvalidateByPattern ci pattern;
      invalidate_each ci rest
  end.

(** [InvalidateUserRelatedCache] of src/cache/invalidator.go *)
Definition InvalidateUserRelatedCache_paths (ci : option CacheInvalidator)
    (userID : string) : M (option error) :=
  match ci with
  | None => mret None
  | Some ci' =>
      match redisClient ci' with
      | None => mret None
      | Some _ =>
          _ ← invalidate_each ci (pathPatterns userID);
          mret None
      end
  end.

End invalidator.

(** ** The request context of the web framework *)

(** What the handlers read from a [*fiber.Ctx]. *)
Record Ctx : Type := mkCtx {
  Method : string;                 (* c.Method() *)
  Path : string;                   (* c.Path() *)
  QueryString : string;            (* c.Request().URI().QueryString() *)
  Locals : gmap string any;        (* c.Locals(key) *)
  Headers : gmap string string;    (* the request headers *)
  IP : string;                     (* c.IP() *)
  StatusCode : Z                   (* c.Response().StatusCode() *)
}.

Module fiber.
Definition MethodGet : string := "GET".
Definition MethodHead : string := "HEAD".

(** [c.Get(key)]: the header, or the empty string. *)
Definition Get (c : Ctx) (key : string) : string := default EmptyString (Headers c !! key).

(** [c.Locals(key)]: the stored value, or nil. *)
Definition GetLocal (c : Ctx) (key : string) : any := default ANil (Locals c !! key).
End fiber.

(** ** middleware/limiter.go *)

Module limiter.

(** The [KeyGenerator] of [NewRateLimiterMiddleware] *)
Definition KeyGenerator (c : Ctx) : string :=
  (* Check for authenticated user first *)
  let userID := fiber.GetLocal c "user_id" in
  if negb (bool_decide (userID = ANil)) then
    fmt.Sprintf "rate_limit:user:%v" [userID]
  else
    (* Check for proxy headers *)
    let forwardedFor := fiber.Get c "X-Forwarded-For" in
    if negb (bool_decide (forwardedFor = EmptyString)) then
      fmt.Sprintf "rate_limit:ip:%s" [AStr forwardedFor]
    else
      let cfIP := fiber.Get c "CF-Connecting-IP" in
      if negb (bool_decide (cfIP = EmptyString)) then
        fmt.Sprintf "rate_limit:ip:%s" [AStr cfIP]
      else
        (* Fallback to connection IP *)
        fmt.Sprintf "rate_limit:ip:%s" [AStr (IP c)].

End limiter.

(** ** middleware/cache/middleware.go *)

Module middleware.

(** The configuration handed to the framework's cache middleware. *)
Record Config : Type := mkConfig {
  Next : Ctx → bool;
  Expiration : Z;
  CacheHeader : string;
  KeyGenerator : Ctx → string;
  Methods : list string
}.

(** The [Next] function: [true] bypasses the cache for the request. *)
Definition skipRequest (c : Ctx) : bool :=
  let method := Method c in
  let path := Path c in
  (* Skip write operations *)
  if negb (bool_decide (method = fiber.MethodGet))
     && negb (bool_decide (method = fiber.MethodHead)) then true
  (* Skip auth endpoints *)
  else if keygen.shouldSkipCache path then true
  (* Skip error responses *)
  else if 400 <=? StatusCode c then true
  (* Cache this request *)
  else false.

(** [NewResponseCacheMiddleware]; nil when the client is nil. *)
Definition NewResponseCacheMiddleware (redisClient : option redis.RedisClient)
    : option Config :=
  match redisClient with
  | None => None
  | Some _ =>
      Some (mkConfig skipRequest (30 * gobreaker.minute) "X-Cache"
              (fun c => keygen.GenerateCacheKey (Method c) (Path c) (QueryString c))
              [fiber.MethodGet; fiber.MethodHead])
  end.

End middleware.

(** ** Packages [strconv], [encoding/base64], [crypto/rand] *)

Module strconv.

Definition digit (n : Z) : ascii := ascii_of_nat (48 + Z.to_nat n).

Fixpoint digits (fuel : nat) (n : Z) (acc : string) : string :=
  match fuel with
  | O => acc
  | S fuel' =>
      let acc' := String (digit (n mod 10)) acc in
      if n / 10 =? 0 then acc' else digits fuel' (n / 10) acc'
  end.

(** [strconv.FormatInt(z, 10)] for a 64-bit [z] (at most 20 digits) *)
Definition FormatInt (z : Z) : string :=
  if z <? 0 then String "-" (digits 20 (- z) EmptyString)
  else digits 20 z EmptyString.

Definition is_digit (c : ascii) : bool :=
  ((48 <=? nat_of_ascii c) && (nat_of_ascii c <=? 57))%nat.

Fixpoint all_digits (s : string) : bool :=
  match s with
  | EmptyString => true
  | String c s' => is_digit c && all_digits s'
  end.

Fixpoint value_of (acc : Z) (s : string) : Z :=
  match s with
  | EmptyString => acc
  | String c s' => value_of (10 * acc + (Z.of_nat (nat_of_ascii c) - 48)) s'
  end.

(** [strconv.ParseInt(s, 10, 64)] on a JSON number literal: an optional
    minus sign and decimal digits, within the range of [int64]. *)
Definition ParseInt (s : string) : option Z :=
  let '(neg, ds) := match s with
                    | String c ds => if Ascii.eqb c "-" then (true, ds) else (false, s)
                    | _ => (false, s)
                    end in
  if bool_decide (ds = EmptyString) || negb (all_digits ds) then None
  else
    let v := if neg then - value_of 0 ds else value_of 0 ds in
    if (- 2 ^ 63 <=? v) && (v <? 2 ^ 63) then Some v else None.

End strconv.

Module base64.

(** The URL-safe alphabet. *)
Definition encodeURL (n : nat) : ascii :=
  if (n <? 26)%nat then ascii_of_nat (65 + n)
  else if (n <? 52)%nat then ascii_of_nat (97 + (n - 26))
  else if (n <? 62)%nat then ascii_of_nat (48 + (n - 52))
  else if (n =? 62)%nat then "-"%char
  else "_"%char.

(** [base64.URLEncoding.EncodeToString], with [=] padding *)
Fixpoint EncodeToString (src : string) : string :=
  match src with
  | EmptyString => EmptyString
  | String a EmptyString =>
      let a := nat_of_ascii a in
      String (encodeURL (a / 4))
        (String (encodeURL (a mod 4 * 16)) (String "=" (String "=" EmptyString)))
  | String a (String b EmptyString) =>
      let a := nat_of_ascii a in
      let b := nat_of_ascii b in
      String (encodeURL (a / 4))
        (String (encodeURL (a mod 4 * 16 + b / 16))
           (String (encodeURL (b mod 16 * 4)) (String "=" EmptyString)))
  | String a (String b (String c rest)) =>
      let a := nat_of_ascii a in
      let b := nat_of_ascii b in
      let c := nat_of_ascii c in
      String (encodeURL (a / 4))
        (String (encodeURL (a mod 4 * 16 + b / 16))
           (String (encodeURL (b mod 16 * 4 + c / 64))
              (String (encodeURL (c mod 64)) (EncodeToString rest))))
  end.

End base64.

Module rand.

(** [rand.Read(b)] for [len(b) = n]: the next read of the entropy source
    fills [b] or fails; a source that delivers fewer than [n] bytes is a
    failed read. *)
Definition Read (n : nat) : M (res string) := λ w,
  match entropy w with
  | [] => Done (EmptyString, Some (errorString "EOF")) w
  | r :: rest =>
      let w' := set_entropy rest w in
      match r with
      | inr e => Done (EmptyString, Some e) w'
      | inl b =>
          if (n <=? strings.len b)%nat then Done (strings.take n b, None) w'
          else Done (EmptyString, Some (errorString "unexpected EOF")) w'
      end
  end.

End rand.

(** ** Package [encoding/json]

    The encoder and decoder of the Go standard library, for the values the
    session cache stores: objects whose members are strings, booleans,
    numbers and [null] (nested arrays and objects are parsed and skipped). *)

Module json.

Definition dq : ascii := "034"%char.          (* the double quote *)
Definition backslash : ascii := "\"%char.

Definition hexdigit (n : nat) : ascii :=
  if (n <? 10)%nat then ascii_of_nat (48 + n) else ascii_of_nat (87 + n).

Definition cont (c : ascii) : bool :=
  ((128 <=? nat_of_ascii c) && (nat_of_ascii c <=? 191))%nat.

Definition between (lo n hi : nat) : bool := ((lo <=? n) && (n <=? hi))%nat.

(** The length of the UTF-8 sequence that [s] starts with; [0] when [s]
    starts with an invalid sequence. *)
Definition utf8_size (s : string) : nat :=
  match s with
  | EmptyString => 0
  | String c0 r =>
      let n0 := nat_of_ascii c0 in
      if (n0 <? 128)%nat then 1
      else if between 194 n0 223 then
        match r with
        | String c1 _ => if cont c1 then 2 else 0
        | _ => 0
        end
      else if between 224 n0 239 then
        match r with
        | String c1 (String c2 _) =>
            if between (if (n0 =? 224)%nat then 160 else 128) (nat_of_ascii c1)
                       (if (n0 =? 237)%nat then 159 else 191) && cont c2
            then 3 else 0
        | _ => 0
        end
      else if between 240 n0 244 then
        match r with
        | String c1 (String c2 (String c3 _)) =>
            if between (if (n0 =? 240)%nat then 144 else 128) (nat_of_ascii c1)
                       (if (n0 =? 244)%nat then 143 else 191)
               && cont c2 && cont c3
            then 4 else 0
        | _ => 0
        end
      else 0
  end%nat.

(** The bytes the encoder copies unescaped ([htmlSafeSet]). *)
Definition htmlSafe (n : nat) : bool :=
  (between 32 n 127
   && negb ((n =? 34) || (n =? 92) || (n =? 60) || (n =? 62) || (n =? 38)))%nat.

Definition escape_ascii (c : ascii) : string :=
  let n := nat_of_ascii c in
  if ((n =? 34) || (n =? 92))%nat then String backslash (String c EmptyString)
  else if (n =? 8)%nat then String backslash "b"
  else if (n =? 12)%nat then String backslash "f"
  else if (n =? 10)%nat then String backslash "n"
  else if (n =? 13)%nat then String backslash "r"
  else if (n =? 9)%nat then String backslash "t"
  else String backslash
         ("u00" +:+ String (hexdigit (n / 16)) (String (hexdigit (n mod 16)) EmptyString)).

(** U+2028 and U+2029 (E2 80 A8 and E2 80 A9) are always escaped. *)
Definition is_line_sep (c0 c1 c2 : ascii) : bool :=
  Ascii.eqb c0 "226" && Ascii.eqb c1 "128" && (Ascii.eqb c2 "168" || Ascii.eqb c2 "169").

(** The body of an encoded string ([appendString] with HTML escaping);
    [copy] counts the bytes of a multi-byte rune still to be copied. *)
Fixpoint appendString (copy : nat) (s : string) : string :=
  match s with
  | EmptyString => EmptyString
  | String c r =>
      match copy with
      | S k => String c (appendString k r)
      | O =>
          if (nat_of_ascii c <? 128)%nat then
            if htmlSafe (nat_of_ascii c) then String c (appendString O r)
            else escape_ascii c +:+ appendString O r
          else
            match utf8_size s with
            | O => String backslash "ufffd" +:+ appendString O r
            | S k =>
                match r with
                | String c1 (String c2 r2) =>
                    if is_line_sep c c1 c2
                    then String backslash "u202"
                           +:+ String (hexdigit (nat_of_ascii c2 - 160)) (appendString O r2)
                    else String c (appendString k r)
                | _ => String c (appendString k r)
                end
            end
      end
  end.

Definition quote (s : string) : string :=
  String dq (appendString O s +:+ String dq EmptyString).

(** The UTF-8 encoding of a code point. *)
Definition utf8_encode (cp : N) : string :=
  (if cp <? 128 then String (ascii_of_N cp) EmptyString
   else if cp <? 2048 then
     String (ascii_of_N (192 + cp / 64))
       (String (ascii_of_N (128 + cp mod 64)) EmptyString)
   else if cp <? 65536 then
     String (ascii_of_N (224 + cp / 4096))
       (String (ascii_of_N (128 + cp / 64 mod 64))
          (String (ascii_of_N (128 + cp mod 64)) EmptyString))
   else
     String (ascii_of_N (240 + cp / 262144))
       (String (ascii_of_N (128 + cp / 4096 mod 64))
          (String (ascii_of_N (128 + cp / 64 mod 64))
             (String (ascii_of_N (128 + cp mod 64)) EmptyString))))%N.

(** U+FFFD, which replaces what cannot be decoded. *)
Definition replacement : string := utf8_encode 65533.

Definition betweenN (lo n hi : N) : bool := ((lo <=? n) && (n <=? hi))%N.

(** The code unit of the four hexadecimal digits of a [\u] escape. *)
Definition u4 (h1 h2 h3 h4 : ascii) : option N :=
  if url.ishex h1 && url.ishex h2 && url.ishex h3 && url.ishex h4
  then Some (((N.of_nat (url.unhex h1) * 16 + N.of_nat (url.unhex h2)) * 16
              + N.of_nat (url.unhex h3)) * 16 + N.of_nat (url.unhex h4))%N
  else None.

Definition cons_fst (c : ascii) (p : string * string) : string * string :=
  (String c (fst p), snd p).
Definition app_fst (t : string) (p : string * string) : string * string :=
  (t +:+ fst p, snd p).

(** The text of a string literal after its opening quote: the decoded
    string and the input after the closing quote. *)
Fixpoint unquote (copy : nat) (s : string) : option (string * string) :=
  match s with
  | EmptyString => None
  | String c r =>
      match copy with
      | S k => cons_fst c <$> unquote k r
      | O =>
          if Ascii.eqb c dq then Some (EmptyString, r)
          else if Ascii.eqb c backslash then
            match r with
            | String "u" (String h1 (String h2 (String h3 (String h4 r2)))) =>
                match u4 h1 h2 h3 h4 with
                | None => None
                | Some u =>
                    if betweenN 55296 u 57343 then
                      match r2 with
                      | String b2 (String "u" (String k1 (String k2
                          (String k3 (String k4 r3))))) =>
                          match u4 k1 k2 k3 k4 with
                          | Some v =>
                              if Ascii.eqb b2 backslash && betweenN 55296 u 56319
                                 && betweenN 56320 v 57343
                              then app_fst (utf8_encode
                                     (65536 + (u - 55296) * 1024 + (v - 56320))%N)
                                     <$> unquote O r3
                              else app_fst replacement <$> unquote O r2
                          | None => app_fst replacement <$> unquote O r2
                          end
                      | _ => app_fst replacement <$> unquote O r2
                      end
                    else app_fst (utf8_encode u) <$> unquote O r2
                end
            | String e r1 =>
                if Ascii.eqb e dq || Ascii.eqb e backslash || Ascii.eqb e "/"
                then cons_fst e <$> unquote O r1
                else if Ascii.eqb e "b" then cons_fst "008" <$> unquote O r1
                else if Ascii.eqb e "f" then cons_fst "012" <$> unquote O r1
                else if Ascii.eqb e "n" then cons_fst "010" <$> unquote O r1
                else if Ascii.eqb e "r" then cons_fst "013" <$> unquote O r1
                else if Ascii.eqb e "t" then cons_fst "009" <$> unquote O r1
                else None
            | EmptyString => None
            end
          else if (nat_of_ascii c <? 32)%nat then None
          else if (nat_of_ascii c <? 128)%nat then cons_fst c <$> unquote O r
          else
            match utf8_size s with
            | O => app_fst replacement <$> unquote O r
            | S k => cons_fst c <$> unquote k r
            end
      end
  end.

(** JSON values; a number keeps its literal. *)
#[warnings="-register-all"] Inductive value : Type :=
| Null
| Bool (b : bool)
| Number (lit : string)
| Str (s : string)
| Array (elems : list value)
| Object (members : list (string * value)).

Definition is_space (c : ascii) : bool :=
  Ascii.eqb c " " || Ascii.eqb c "009" || Ascii.eqb c "010" || Ascii.eqb c "013".

Fixpoint skip_ws (s : string) : string :=
  match s with
  | String c r => if is_space c then skip_ws r else s
  | EmptyString => s
  end.

(** The longest prefix of decimal digits, and the rest. *)
Fixpoint span_digits (s : string) : string * string :=
  match s with
  | String c r =>
      if strconv.is_digit c then cons_fst c (span_digits r) else (EmptyString, s)
  | EmptyString => (EmptyString, s)
  end.

(** A number literal at the front of [s]: an optional minus sign, an
    integer part without a leading zero (unless it is zero), an optional
    fraction and an optional exponent. *)
Definition number (s : string) : option (string * string) :=
  let '(sign, s1) := match s with
                     | String c r => if Ascii.eqb c "-" then ("-", r) else (EmptyString, s)
                     | _ => (EmptyString, s)
                     end in
  let '(int, s2) := span_digits s1 in
  let leading_zero := match int with
                      | String c (String _ _) => Ascii.eqb c "0"
                      | _ => false
                      end in
  if bool_decide (int = EmptyString) || leading_zero then None
  else
    let frac :=
      match s2 with
      | String c r =>
          if Ascii.eqb c "." then
            let '(ds, r') := span_digits r in
            if bool_decide (ds = EmptyString) then None
            else Some (String "." ds, r')
          else Some (EmptyString, s2)
      | _ => Some (EmptyString, s2)
      end in
    match frac with
    | None => None
    | Some (fr, s3) =>
        let exp :=
          match s3 with
          | String e r =>
              if Ascii.eqb e "e" || Ascii.eqb e "E" then
                let '(sg, r1) :=
                  match r with
                  | String c r1 =>
                      if Ascii.eqb c "+" || Ascii.eqb c "-"
                      then (String c EmptyString, r1) else (EmptyString, r)
                  | _ => (EmptyString, r)
                  end in
                let '(ds, r2) := span_digits r1 in
                if bool_decide (ds = EmptyString) then None
                else Some (String e (sg +:+ ds), r2)
              else Some (EmptyString, s3)
          | _ => Some (EmptyString, s3)
          end in
        match exp with
        | None => None
        | Some (ex, s4) => Some (sign +:+ int +:+ fr +:+ ex, s4)
        end
    end.

(** The value at the front of the input (after white space), and the
    rest.  Every call consumes input, so twice the length of the input is
    enough [fuel]. *)
Fixpoint parse_value (fuel : nat) (s : string) : option (value * string) :=
  match fuel with
  | O => None
  | S fuel' =>
      match skip_ws s with
      | String "{" r =>
          match skip_ws r with
          | String "}" r' => Some (Object [], r')
          | r' =>
              '(ms, r'') ← parse_members fuel' r';
              Some (Object ms, r'')
          end
      | String "[" r =>
          match skip_ws r with
          | String "]" r' => Some (Array [], r')
          | r' =>
              '(vs, r'') ← parse_elements fuel' r';
              Some (Array vs, r'')
          end
      | String "034" r =>
          '(t, r') ← unquote O r;
          Some (Str t, r')
      | String "t" (String "r" (String "u" (String "e" r))) => Some (Bool true, r)
      | String "f" (String "a" (String "l" (String "s" (String "e" r)))) =>
          Some (Bool false, r)
      | String "n" (String "u" (String "l" (String "l" r))) => Some (Null, r)
      | s' =>
          '(lit, r) ← number s';
          Some (Number lit, r)
      end
  end
with parse_members (fuel : nat) (s : string) : option (list (string * value) * string) :=
  match fuel with
  | O => None
  | S fuel' =>
      match skip_ws s with
      | String "034" r =>
          '(k, r1) ← unquote O r;
          match skip_ws r1 with
          | String ":" r2 =>
              '(v, r3) ← parse_value fuel' r2;
              match skip_ws r3 with
              | String "," r4 =>
                  '(ms, r5) ← parse_members fuel' r4;
                  Some ((k, v) :: ms, r5)
              | String "}" r4 => Some ([(k, v)], r4)
              | _ => None
              end
          | _ => None
          end
      | _ => None
      end
  end
with parse_elements (fuel : nat) (s : string) : option (list value * string) :=
  match fuel with
  | O => None
  | S fuel' =>
      '(v, r1) ← parse_value fuel' s;
      match skip_ws r1 with
      | String "," r2 =>
          '(vs, r3) ← parse_elements fuel' r2;
          Some (v :: vs, r3)
      | String "]" r2 => Some ([v], r2)
      | _ => None
      end
  end.

(** A whole document: one value, then only white space. *)
Definition parse (data : string) : option value :=
  '(v, r) ← parse_value (2 * strings.len data + 2) data;
  if bool_decide (skip_ws r = EmptyString) then Some v else None.

Definition lower (c : ascii) : ascii :=
  if between 65 (nat_of_ascii c) 90 then ascii_of_nat (nat_of_ascii c + 32) else c.

(** Field names are matched without regard to case. *)
Fixpoint EqualFold (a b : string) : bool :=
  match a, b with
  | EmptyString, EmptyString => true
  | String x a', String y b' => Ascii.eqb (lower x) (lower y) && EqualFold a' b'
  | _, _ => false
  end.

End json.

(** ** The session service (service package) *)

Module service.

(** [SessionData] *)
Record SessionData : Type := mkSessionData {
  ID : string;
  Name : string;
  Email : string;
  Role : string;
  VerifiedEmail : bool;
  SessionID : string;
  CreatedAt : Z
}.

(** The fields of [model.User] that the session cache reads; [UserID] is
    [user.ID.String()]. *)
Record User : Type := mkUser {
  UserID : string;
  UserName : string;
  UserEmail : string;
  UserRole : string;
  UserVerifiedEmail : bool
}.

(** [sessionService] *)
Record sessionService : Type := mkSessionService {
  redisClient : option redis.RedisClient
}.

(** [NewSessionService] *)
Definition NewSessionService (redisClient : option redis.RedisClient) : sessionService :=
  mkSessionService redisClient.

Definition member (name : string) (val : string) : string :=
  String json.dq (name +:+ String json.dq (String ":" val)).

Definition show_bool (b : bool) : string := if b then "true" else "false".

(** [json.Marshal(sessionData)]: the fields in the order of their
    declaration, under their [json] tags.  Marshalling strings, a boolean
    and an integer cannot fail. *)
Definition json_Marshal (d : SessionData) : res string :=
  ("{" +:+ member "id" (json.quote (ID d))
     +:+ "," +:+ member "name" (json.quote (Name d))
     +:+ "," +:+ member "email" (json.quote (Email d))
     +:+ "," +:+ member "role" (json.quote (Role d))
     +:+ "," +:+ member "verified_email" (show_bool (VerifiedEmail d))
     +:+ "," +:+ member "session_id" (json.quote (SessionID d))
     +:+ "," +:+ member "created_at" (strconv.FormatInt (CreatedAt d))
     +:+ "}", None).

Definition zero : SessionData :=
  mkSessionData EmptyString EmptyString EmptyString EmptyString false EmptyString 0.

Definition typeError : error := errorString "json: cannot unmarshal value into Go struct field".

(** The first error is kept; decoding goes on. *)
Definition saveError (err : option error) : option error :=
  match err with
  | None => Some typeError
  | Some _ => err
  end.

Definition set_string (f : string → SessionData) (old : SessionData)
    (err : option error) (v : json.value) : SessionData * option error :=
  match v with
  | json.Str s => (f s, err)
  | json.Null => (old, err)
  | _ => (old, saveError err)
  end.

(** One member of the object is stored into the field whose tag matches
    its name; a member without a field is skipped. *)
Definition set_member (acc : SessionData * option error) (kv : string * json.value)
    : SessionData * option error :=
  let '(d, err) := acc in
  let '(k, v) := kv in
  if json.EqualFold k "id" then
    set_string (fun s => mkSessionData s (Name d) (Email d) (Role d)
                           (VerifiedEmail d) (SessionID d) (CreatedAt d)) d err v
  else if json.EqualFold k "name" then
    set_string (fun s => mkSessionData (ID d) s (Email d) (Role d)
                           (VerifiedEmail d) (SessionID d) (CreatedAt d)) d err v
  else if json.EqualFold k "email" then
    set_string (fun s => mkSessionData (ID d) (Name d) s (Role d)
                           (VerifiedEmail d) (SessionID d) (CreatedAt d)) d err v
  else if json.EqualFold k "role" then
    set_string (fun s => mkSessionData (ID d) (Name d) (Email d) s
                           (VerifiedEmail d) (SessionID d) (CreatedAt d)) d err v
  else if json.EqualFold k "verified_email" then
    match v with
    | json.Bool b => (mkSessionData (ID d) (Name d) (Email d) (Role d)
                        b (SessionID d) (CreatedAt d), err)
    | json.Null => (d, err)
    | _ => (d, saveError err)
    end
  else if json.EqualFold k "session_id" then
    set_string (fun s => mkSessionData (ID d) (Name d) (Email d) (Role d)
                           (VerifiedEmail d) s (CreatedAt d)) d err v
  else if json.EqualFold k "created_at" then
    match v with
    | json.Number lit =>
        match strconv.ParseInt lit with
        | Some n => (mkSessionData (ID d) (Name d) (Email d) (Role d)
                       (VerifiedEmail d) (SessionID d) n, err)
        | None => (d, saveError err)
        end
    | json.Null => (d, err)
    | _ => (d, saveError err)
    end
  else (d, err).

(** [json.Unmarshal(data, &sessionData)] into a zero [SessionData] *)
Definition json_Unmarshal (data : string) : SessionData * option error :=
  match json.parse data with
  | None => (zero, Some (SyntaxError "invalid character in JSON input"))
  | Some (json.Object ms) => foldl set_member (zero, None) ms
  | Some json.Null => (zero, None)
  | Some _ => (zero, Some typeError)
  end.

(** [GenerateSessionID] *)
Definition GenerateSessionID (s : sessionService) : M (res string) :=
  (* Generate 32 random bytes *)
  '(b, err) ← rand.Read 32;
  match err with
  | Some err =>
      mret (EmptyString, Some (errors.Errorf_w "failed to generate random bytes: " err))
  | None => mret (base64.EncodeToString b, None)
  end.

(** [time.Now().Unix()] *)
Definition unix_now : M Z := gets (fun w => clock w / gobreaker.second).

(** A product of [int64] values wraps around. *)
Definition wrap64 (z : Z) : Z := (z + 2 ^ 63) mod 2 ^ 64 - 2 ^ 63.

(** The function literal that [CacheUserSession] runs through the
    circuit breaker. *)
Definition cacheFn (s : sessionService) (userID serialized : string) : M (res any) :=
  let key := fmt.Sprintf "session:user:%s" [AStr userID] in
  ttl ← gets (fun w => wrap64 (config_SessionCacheTTL w * gobreaker.minute));
  c ← redis.GetClient (redisClient s);
  err ← goredis.Set_ c key serialized ttl;
  mret (ANil, err).

(** The function literal that [GetUserSession] runs through the circuit
    breaker. *)
Definition getFn (s : sessionService) (userID : string) : M (res any) :=
  let key := fmt.Sprintf "session:user:%s" [AStr userID] in
  c ← redis.GetClient (redisClient s);
  '(data, err) ← goredis.Get c key;
  match err with
  | Some err =>
      if errors.Is err RedisNil then
        (* Cache miss *)
        mret (ANil, Some ErrCacheMiss)
      else
        (* Redis error - treat as unavailable *)
        mret (ANil, Some ErrCacheMiss)
  | None => mret (ABytes data, None)
  end.

(** The function literal that [InvalidateSession] runs through the circuit
    breaker. *)
Definition delFn (s : sessionService) (userID : string) : M (res any) :=
  let key := fmt.Sprintf "session:user:%s" [AStr userID] in
  c ← redis.GetClient (redisClient s);
  err ← goredis.Del c [key];
  mret (ANil, err).

(** [CacheUserSession] *)
Definition CacheUserSession (s : sessionService) (userID : string)
    (user : option User) : M (option error) :=
  (* Check if Redis is available *)
  available ← redis.IsAvailable;
  if negb available then mret None
  else
    (* Generate secure session ID *)
    '(sessionID, err) ← GenerateSessionID s;
    match err with
    | Some err => mret (Some (errors.Errorf_w "failed to generate session ID: " err))
    | None =>
        (* Create session data from user model *)
        match user with
        | None => panic nil_deref
        | Some user =>
            now ← unix_now;
            let sessionData :=
              mkSessionData (UserID user) (UserName user) (UserEmail user)
                (UserRole user) (UserVerifiedEmail user) sessionID now in
            (* Serialize to JSON *)
            let '(serialized, err) := json_Marshal sessionData in
            match err with
            | Some err =>
                mret (Some (errors.Errorf_w "failed to marshal session data: " err))
            | None =>
                (* Execute through circuit breaker *)
                '(result, err) ←
                  redis.ExecuteWithCircuitBreaker (redisClient s)
                    (cacheFn s userID serialized);
                match err with
                | Some err => mret (Some (errors.Errorf_w "failed to cache session: " err))
                | None => mret None
                end
            end
        end
    end.

(** [GetUserSession] *)
Definition GetUserSession (s : sessionService) (userID : string)
    : M (res (option SessionData)) :=
  (* Check if Redis is available *)
  available ← redis.IsAvailable;
  if negb available then mret (None, Some ErrCacheMiss)
  else
    (* Execute through circuit breaker *)
    '(result, err) ←
      redis.ExecuteWithCircuitBreaker (redisClient s) (getFn s userID);
    match err with
    | Some err =>
        if errors.Is err ErrCacheMiss then mret (None, Some ErrCacheMiss)
        else mret (None, Some ErrCacheMiss)
    | None =>
        (* Extract bytes from result *)
        match result with
        | ABytes data =>
            (* Unmarshal JSON to SessionData *)
            let '(sessionData, err) := json_Unmarshal data in
            match err with
            | Some err =>
                mret (None, Some (errors.Errorf_w "failed to unmarshal session data: " err))
            | None => mret (Some sessionData, None)
            end
        | _ => mret (None, Some ErrCacheMiss)
        end
    end.

(** [InvalidateSession] *)
Definition InvalidateSession (s : sessionService) (userID : string) : M (option error) :=
  available ← redis.IsAvailable;
  if negb available then mret None
  else
    '(_, err) ←
      redis.ExecuteWithCircuitBreaker (redisClient s) (delFn s userID);
    match err with
    | Some _ => mret None
    | None => mret None
    end.

End service.

(** ** The vocabulary of the properties

    Observations of a run, well-formedness conditions and the worlds and
    requests of the scenarios. *)

Section vocabulary.
Import gobreaker service.

(** A [GET] request to the login route of the [/v1] group, with the status
    the response has before a handler has run. *)
Definition get_login : Ctx :=
  mkCtx "GET" "/v1/auth/login" EmptyString ∅ ∅ "203.0.113.7" 200.

(** A request to the user list with the given [user_id] local, headers and
    remote address. *)
Definition ctx_of (user : option any) (headers : list (string * string)) (ip : string) : Ctx :=
  mkCtx "GET" "/v1/users" EmptyString
        (match user with Some id => {["user_id" := id]} | None => ∅ end)
        (list_to_map headers) ip 200.

(** The patterns of the [SCAN]s among the commands on the wire. *)
Definition scans (cs : list server.Command) : list string :=
  omap (fun c => match c with server.CmdScan p => Some p | _ => None end) cs.

(** A keyspace that holds a session and a cached response of user [u1]. *)
Definition stocked : server.Keyspace :=
  <["session:user:u1" := server.mkEntry "{}" None]>
    (<["api:response:GET:/me:user:u1:?" := server.mkEntry "{}" None]> ∅).

(** A server with these keys behind a transport that loses the first
    command. *)
Definition flaky_world : World :=
  mkWorld (Some (mkClient "localhost:6379" 0)) 1 None 30 ∅ 0 stocked
          [Some (errorString "i/o timeout")] [] [].

(** The same server behind a sound transport. *)
Definition sound_world : World :=
  mkWorld (Some (mkClient "localhost:6379" 0)) 1 None 30 ∅ 0 stocked [] [] [].

(** A breaker with the settings of [NewRedisClient] and counters within
    [uint32]. *)
Definition configured (cb : CircuitBreaker) : Prop :=
  maxRequests cb = 5 ∧ interval cb = minute ∧ timeout cb = 30 * second
  ∧ (∀ c, readyToTrip cb c = (3 <? ConsecutiveFailures c))
  ∧ 0 ≤ Requests (counts cb) < 2 ^ 32 - 1.

(** The breaker of [NewRedisClient], created at instant 0 and tripped by
    four failures in a row at the instants 1 to 4. *)
Definition tripped : CircuitBreaker :=
  calls [(1, false); (2, false); (3, false); (4, false)]
        (NewCircuitBreaker redis.breakerSettings 0).

(** The same breaker once the cooldown of 30 seconds has passed. *)
Definition probing : CircuitBreaker := (StateOf (4 + 30 * second + 1) tripped).1.

(** The [&]-separated segments that the loop of [parseQuery] visits. *)
Fixpoint segments (query : string) : list string :=
  match query with
  | EmptyString => []
  | String c rest =>
      if Ascii.eqb c "&" then EmptyString :: segments rest
      else match segments rest with
           | [] => [String c EmptyString]
           | key :: keys => String c key :: keys
           end
  end.

(** One round of the loop of [parseQuery] on the segment [seg]. *)
Definition handle (acc : url.Values * option error) (seg : string)
    : url.Values * option error :=
  let '(m, err) := acc in
  if strings.ContainsByte seg ";" then
    (m, Some (errorString "invalid semicolon separator in query"))
  else if bool_decide (seg = EmptyString) then (m, err)
  else
    let '(key, value, _) := strings.Cut seg "=" in
    match url.QueryUnescape key with
    | inr err1 => (m, match err with None => Some err1 | _ => err end)
    | inl key =>
        match url.QueryUnescape value with
        | inr err1 => (m, match err with None => Some err1 | _ => err end)
        | inl value => (<[key := default [] (m !! key) ++ [value]]> m, err)
        end
    end.

(** The decoded name and value of a segment that is a well-formed
    parameter. *)
Definition pair_of (seg : string) : option (string * string) :=
  if strings.ContainsByte seg ";" then None
  else if bool_decide (seg = EmptyString) then None
  else
    let '(key, value, _) := strings.Cut seg "=" in
    match url.QueryUnescape key, url.QueryUnescape value with
    | inl k, inl v => Some (k, v)
    | _, _ => None
    end.

(** A segment that makes [url.ParseQuery] report an error. *)
Definition bad (seg : string) : bool :=
  strings.ContainsByte seg ";"
  || negb (bool_decide (seg = EmptyString))
     && let '(key, value, _) := strings.Cut seg "=" in
        match url.QueryUnescape key, url.QueryUnescape value with
        | inl _, inl _ => false
        | _, _ => true
        end.

(** The parameters of a query that carry the name [name], in their order. *)
Definition named (name : string) (query : string) : list string :=
  filter (fun seg => fst <$> pair_of seg = Some name) (segments query).

(** The values of the parameters named [name] among [segs], in order. *)
Definition values_named (name : string) (segs : list string) : list string :=
  omap (fun seg => match pair_of seg with
                   | Some (k, v) => if decide (k = name) then Some v else None
                   | None => None
                   end) segs.

(** The pointers of the program point into the heap, and a facade has its
    client and its breaker, as [NewRedisClient] builds it. *)
Definition well_formed (s : sessionService) (w : World) : Prop :=
  (∀ q, redis_redisCB w = Some q → is_Some (heap w !! q))
  ∧ (∀ r, redisClient s = Some r →
       is_Some (redis.client r)
       ∧ ∃ p, redis.circuitBreaker r = Some p ∧ is_Some (heap w !! p)).

(** The transport does not lose the next command. *)
Definition delivered (w : World) : Prop :=
  match faults w with
  | Some _ :: _ => False
  | _ => True
  end.

(** The payload stored for a user that has not expired. *)
Definition payload (w : World) (userID : string) : option string :=
  server.value <$> server.lookup_live (clock w) (keyspace w) ("session:user:" +:+ userID).

(** The client of [NewRedisClient] for a server on the local host. *)
Definition client0 : goredis_Client := mkClient "localhost:6379" 0.

(** A world as [NewRedisClient] leaves it after a successful connection at
    instant 0, with the given keys, transport faults and entropy. *)
Definition healthy (ks : server.Keyspace) (fs : list (option error))
    (ent : list (string + error)) : World :=
  mkWorld (Some client0) 1 (Some 0%nat) 30
          {[ 0%nat := gobreaker.NewCircuitBreaker redis.breakerSettings 0 ]}
          0 ks fs [server.CmdPing] ent.

(** The facade that [NewRedisClient] returns in that world, and the session
    service built on it. *)
Definition facade0 : redis.RedisClient := redis.mkRedisClient (Some client0) (Some 0%nat).

Definition sessions0 : sessionService := NewSessionService (Some facade0).

(** A key whose payload is not a JSON document. *)
Definition malformed : server.Keyspace :=
  {[ "session:user:u1" := server.mkEntry "{oops" None ]}.

(** [utf8.ValidString]: the string is a sequence of well-formed UTF-8
    runes; [copy] counts the bytes of a rune still to come. *)
Fixpoint wellformed (copy : nat) (s : string) : bool :=
  match s with
  | EmptyString => bool_decide (copy = O)
  | String c r =>
      match copy with
      | S k => wellformed k r
      | O =>
          if (nat_of_ascii c <? 128)%nat then wellformed O r
          else match json.utf8_size s with
               | O => false
               | S k => wellformed k r
               end
      end
  end.

Definition ValidString (s : string) : Prop := wellformed O s = true.

(** The range of Go's [int64]. *)
Definition int64 (n : Z) : Prop := - 2 ^ 63 ≤ n < 2 ^ 63.

(** A record whose strings are valid UTF-8 and whose time stamp is a 64-bit
    integer. *)
Definition ValidSession (d : service.SessionData) : Prop :=
  ValidString (service.ID d) ∧ ValidString (service.Name d)
  ∧ ValidString (service.Email d) ∧ ValidString (service.Role d)
  ∧ ValidString (service.SessionID d) ∧ int64 (service.CreatedAt d).

(** Every byte of the string is below 128. *)
Fixpoint all_ascii (s : string) : bool :=
  match s with
  | EmptyString => true
  | String c r => (nat_of_ascii c <? 128)%nat && all_ascii r
  end.

(** The store is available to the service: the facade has its client and
    its breaker, which is the breaker [IsAvailable] consults and is CLOSED;
    the availability flag is set; the transport is sound. *)
Definition available (s : sessionService) (w : World) : Prop :=
  ∃ r c p cb,
    redisClient s = Some r ∧ redis.client r = Some c
    ∧ redis.circuitBreaker r = Some p ∧ redis_redisCB w = Some p
    ∧ heap w !! p = Some cb ∧ gobreaker.state cb = gobreaker.StateClosed
    ∧ redis_redisAvailable w ≠ 0 ∧ faults w = [].

(** The record that [CacheUserSession] builds for a user in the world [w]
    from the random bytes [b]. *)
Definition session_of (user : User) (b : string) (w : World) : SessionData :=
  mkSessionData (UserID user) (UserName user) (UserEmail user) (UserRole user)
    (UserVerifiedEmail user) (base64.EncodeToString (strings.take 32 b))
    (clock w / gobreaker.second).

(** The scenario of the specification: user [u1] with name [A], email
    [a@x.com] and role [user]; the fetch comes five minutes after the
    store. *)
Definition alice : User := mkUser "0b9c6f7e-5a3d-4e21-9f0a-3c1d2e4f5a6b" "A" "a@x.com" "user" true.

(** The 32 bytes that [crypto/rand] delivers in the scenario. *)
Definition seed : string := "0123456789abcdef0123456789abcdef".

(** The world in which the scenario starts: an empty server, a sound
    transport. *)
Definition start : World := healthy ∅ [] [inl seed].

End vocabulary.

(** ** More of the Go standard library: [strings.TrimSpace], [strconv.Atoi] *)

Module unicode.

(** The number of bytes of the white-space rune that [s] starts with, and
    0 when [s] starts with no such rune.  [unicode.IsSpace] holds of the
    ASCII characters tab, line feed, vertical tab, form feed, carriage
    return and space, of U+0085 and U+00A0, and of U+1680, U+2000 to
    U+200A, U+2028, U+2029, U+202F, U+205F and U+3000; the bytes are their
    UTF-8 encodings. *)
Definition space_width (s : string) : nat :=
  match s with
  | EmptyString => 0
  | String c0 r0 =>
      let n0 := nat_of_ascii c0 in
      if ((9 <=? n0) && (n0 <=? 13) || (n0 =? 32))%nat then 1
      else
        match r0 with
        | EmptyString => 0
        | String c1 r1 =>
            let n1 := nat_of_ascii c1 in
            if ((n0 =? 194) && ((n1 =? 133) || (n1 =? 160)))%nat then 2
            else
              match r1 with
              | EmptyString => 0
              | String c2 _ =>
                  let n2 := nat_of_ascii c2 in
                  if ((n0 =? 225) && (n1 =? 154) && (n2 =? 128))%nat then 3
                  else if ((n0 =? 226) && (n1 =? 128)
                           && ((128 <=? n2) && (n2 <=? 138) || (n2 =? 168)
                               || (n2 =? 169) || (n2 =? 175)))%nat then 3
                  else if ((n0 =? 226) && (n1 =? 129) && (n2 =? 159))%nat then 3
                  else if ((n0 =? 227) && (n1 =? 128) && (n2 =? 128))%nat then 3
                  else 0
              end
        end
  end.

(** [strings.TrimLeftFunc(s, unicode.IsSpace)]: the white-space runes at
    the front are dropped; [skip] counts the bytes of a rune still to be
    dropped.  A byte that starts no valid encoding decodes to U+FFFD, which
    is not white space. *)
Fixpoint TrimLeft (skip : nat) (s : string) : string :=
  match s with
  | EmptyString => EmptyString
  | String _ r =>
      match skip with
      | S k => TrimLeft k r
      | O =>
          match space_width s with
          | O => s
          | S k => TrimLeft k r
          end
      end
  end.

(** [s] is a sequence of white-space runes. *)
Fixpoint all_space (skip : nat) (s : string) : bool :=
  match s with
  | EmptyString => true
  | String _ r =>
      match skip with
      | S k => all_space k r
      | O =>
          match space_width s with
          | O => false
          | S k => all_space k r
          end
      end
  end.

(** [strings.TrimRightFunc(s, unicode.IsSpace)]: the longest suffix that is
    a sequence of white-space runes is dropped.  (The library decodes the
    runes from the end; the encodings of the white-space runes start with
    bytes that continue no rune, so the two readings agree.) *)
Fixpoint TrimRight (s : string) : string :=
  match s with
  | EmptyString => EmptyString
  | String c r => if all_space O s then EmptyString else String c (TrimRight r)
  end.

(** [strings.TrimSpace(s)] *)
Definition TrimSpace (s : string) : string := TrimRight (TrimLeft O s).

End unicode.

Module strconv_Atoi.

(** [strconv.Atoi(s)]: an optional sign and decimal digits, within the
    range of the 64-bit [int].  The [*NumError] is represented by the
    message of the error it wraps; on a range error the value is the
    nearest bound. *)
Definition Atoi (s : string) : res Z :=
  let '(neg, ds) :=
    match s with
    | String c r =>
        if Ascii.eqb c "-" then (true, r)
        else if Ascii.eqb c "+" then (false, r) else (false, s)
    | EmptyString => (false, s)
    end in
  if bool_decide (ds = EmptyString) || negb (strconv.all_digits ds)
  then (0, Some (errorString "invalid syntax"))
  else
    let v := if neg then - strconv.value_of 0 ds else strconv.value_of 0 ds in
    if (- 2 ^ 63 <=? v) && (v <? 2 ^ 63) then (v, None)
    else (if neg then - 2 ^ 63 else 2 ^ 63 - 1, Some (errorString "value out of range")).

End strconv_Atoi.

(** ** The configuration registry, [github.com/spf13/viper]

    The registry is outside the repository; the configuration code reads
    it through three accessors.  What they answer for a key is an input. *)

Module viper.

Record Registry : Type := mkRegistry {
  GetString : string → string;
  GetInt : string → Z;
  GetDuration : string → Z          (* a [time.Duration], in nanoseconds *)
}.

End viper.

(** ** config/redis.go and config/config.go *)

Module config.

(** [RedisConfig] *)
Record RedisConfig : Type := mkRedisConfig {
  Host : string;
  Port : Z;
  Password : string;
  DB : Z;
  Enabled : bool;
  MaxIdle : Z;
  MaxActive : Z;
  IdleTimeout : Z;
  PoolTimeout : Z;
  DialTimeout : Z;
  ReadTimeout : Z;
  WriteTimeout : Z
}.

(** [RateLimiterConfig] *)
Record RateLimiterConfig : Type := mkRateLimiterConfig {
  RateEnabled : bool;
  DefaultMax : Z;
  DefaultWindow : Z;
  AuthMax : Z;
  AuthWindow : Z
}.

(** [RedisConfig.Validate] *)
Definition Validate (c : RedisConfig) : option error :=
  (* Validate port is in valid range *)
  if (Port c <? 1) || (65535 <? Port c) then
    Some (errorString (fmt.Sprintf "invalid Redis port: %d (must be between 1-65535)"
                         [AInt (Port c)]))
  (* Validate DB is non-negative *)
  else if DB c <? 0 then
    Some (errorString (fmt.Sprintf "invalid Redis DB: %d (must be >= 0)" [AInt (DB c)]))
  (* Validate host is not empty *)
  else if bool_decide (unicode.TrimSpace (Host c) = EmptyString) then
    Some (errorString "Redis host cannot be empty")
  else None.

(** [ValidateRedisConfig]; the package variable [RedisEnabled] is passed in
    and returned. *)
Definition ValidateRedisConfig (host : string) (port db : Z) (RedisEnabled : bool)
    : option error * bool :=
  (* Check if Redis is configured (any env var present) *)
  let redisConfigured :=
    negb (bool_decide (host = EmptyString)) || negb (port =? 0) in
  if negb redisConfigured then
    (* Redis is intentionally disabled *)
    (None, false)
  else
    let cfg := mkRedisConfig host port EmptyString db false 0 0 0 0 0 0 0 in
    (* Set defaults if not provided *)
    let cfg :=
      if Port cfg =? 0
      then mkRedisConfig (Host cfg) 6379 (Password cfg) (DB cfg) (Enabled cfg)
             (MaxIdle cfg) (MaxActive cfg) (IdleTimeout cfg) (PoolTimeout cfg)
             (DialTimeout cfg) (ReadTimeout cfg) (WriteTimeout cfg)
      else cfg in
    (* Validate configuration *)
    match Validate cfg with
    | Some err => (Some (errors.Errorf_w "invalid Redis configuration: " err), RedisEnabled)
    | None =>
        (* All validations passed - Redis is enabled *)
        (None, true)
    end.

(** A zero is replaced by the default. *)
Definition or_default (v d : Z) : Z := if v =? 0 then d else v.

(** [LoadRedisConfig]; its error is always nil. *)
Definition LoadRedisConfig (v : viper.Registry) : RedisConfig * option error :=
  (* Check if Redis is enabled (at least one env var present) *)
  let host := viper.GetString v "REDIS_HOST" in
  let port := viper.GetString v "REDIS_PORT" in
  let enabled :=
    negb (bool_decide (host = EmptyString)) || negb (bool_decide (port = EmptyString)) in
  if negb enabled then
    (mkRedisConfig EmptyString 0 EmptyString 0 enabled 0 0 0 0 0 0 0, None)
  else
    (mkRedisConfig
       (let h := viper.GetString v "REDIS_HOST" in
        if bool_decide (h = EmptyString) then "localhost" else h)
       (or_default (viper.GetInt v "REDIS_PORT") 6379)
       (viper.GetString v "REDIS_PASSWORD")
       (let db := viper.GetInt v "REDIS_DB" in if db <? 0 then 0 else db)
       enabled
       (or_default (viper.GetInt v "REDIS_MAX_IDLE") 10)
       (or_default (viper.GetInt v "REDIS_MAX_ACTIVE") 100)
       (or_default (viper.GetInt v "REDIS_IDLE_TIMEOUT") 300)
       (or_default (viper.GetInt v "REDIS_POOL_TIMEOUT") 4)
       (or_default (viper.GetInt v "REDIS_DIAL_TIMEOUT") 10)
       (or_default (viper.GetInt v "REDIS_READ_TIMEOUT") 5)
       (or_default (viper.GetInt v "REDIS_WRITE_TIMEOUT") 5),
     None).

(** A value that is not positive is replaced by the default. *)
Definition or_default_pos (v d : Z) : Z := if v <=? 0 then d else v.

(** [LoadRateLimiterConfig] *)
Definition LoadRateLimiterConfig (v : viper.Registry) : RateLimiterConfig :=
  let enabled := viper.GetString v "RATE_LIMIT_ENABLED" in
  mkRateLimiterConfig
    (bool_decide (enabled = EmptyString) || bool_decide (enabled = "true"))
    (or_default_pos (viper.GetInt v "RATE_LIMIT_MAX") 100)
    (or_default_pos (viper.GetDuration v "RATE_LIMIT_WINDOW") (15 * gobreaker.minute))
    (or_default_pos (viper.GetInt v "RATE_LIMIT_AUTH_MAX") 500)
    (or_default_pos (viper.GetDuration v "RATE_LIMIT_AUTH_WINDOW") (15 * gobreaker.minute)).

(** The assignment to the package variable [SessionCacheTTL]. *)
Definition set_SessionCacheTTL (ttl : Z) (w : World) : World :=
  mkWorld (redis_redisClient w) (redis_redisAvailable w) (redis_redisCB w) ttl (heap w)
          (clock w) (keyspace w) (faults w) (wire w) (entropy w).

(** [LoadSessionCacheConfig] *)
Definition LoadSessionCacheConfig (v : viper.Registry) : M unit :=
  (* Default TTL: 30 minutes *)
  let defaultTTL := 30 in
  _ ← modify (set_SessionCacheTTL defaultTTL);
  (* Read from environment *)
  let sessionTTLStr := viper.GetString v "SESSION_CACHE_TTL" in
  if bool_decide (sessionTTLStr = EmptyString) then mret ()
  else
    (* Parse to integer *)
    let '(sessionTTL, err) := strconv_Atoi.Atoi sessionTTLStr in
    match err with
    | Some _ => mret ()
    | None =>
        (* Validate range *)
        if (sessionTTL <? 10) || (120 <? sessionTTL) then mret ()
        else
          (* Apply valid value *)
          modify (set_SessionCacheTTL sessionTTL)
    end.

End config.

(** ** middleware/limiter.go: the configuration of the rate limiter *)

Module ratelimiter.

(** The fields of [limiter.Config] that [NewRateLimiterMiddleware] sets;
    the storage is the Redis client and the algorithm the sliding
    window. *)
Record Config : Type := mkConfig {
  Max : Z;
  Expiration : Z;
  KeyGenerator : Ctx → string;
  LimitReachedStatus : Z;
  SkipSuccessfulRequests : bool
}.

Definition StatusTooManyRequests : Z := 429.

(** [NewRateLimiterMiddleware]; nil when the limiter is disabled. *)
Definition NewRateLimiterMiddleware (redisClient : option redis.RedisClient)
    (rateLimitConfig : option config.RateLimiterConfig) : option Config :=
  match redisClient, rateLimitConfig with
  | Some _, Some cfg =>
      if negb (config.RateEnabled cfg) then None
      else
        (* Use the higher max and the larger window *)
        let maxRequests := config.AuthMax cfg in
        let maxRequests :=
          if maxRequests <? config.DefaultMax cfg then config.DefaultMax cfg
          else maxRequests in
        let windowDuration := config.AuthWindow cfg in
        let windowDuration :=
          if windowDuration <? config.DefaultWindow cfg then config.DefaultWindow cfg
          else windowDuration in
        Some (mkConfig maxRequests windowDuration limiter.KeyGenerator
                StatusTooManyRequests true)
  | _, _ => None
  end.

End ratelimiter.

(** ** redis/health_monitor.go (unnamed/part_004) *)

Module healthmonitor.

(** [HealthMonitor]: the client, the interval, the availability flag and
    whether a callback was given.  The ticker, the context and the stop
    channel drive [Start] from outside: the rounds it runs are an input. *)
Record HealthMonitor : Type := mkHealthMonitor {
  client : option goredis_Client;
  interval : Z;
  available : bool;
  onStateChange : bool               (* is the callback not nil? *)
}.

(** [NewHealthMonitor] *)
Definition NewHealthMonitor (client : option goredis_Client) (interval : Z)
    (onStateChange : bool) : HealthMonitor :=
  mkHealthMonitor client interval false onStateChange.

Definition store (a : bool) (hm : HealthMonitor) : HealthMonitor :=
  mkHealthMonitor (client hm) (interval hm) a (onStateChange hm).

(** [checkHealth] *)
Definition checkHealth (hm : HealthMonitor) : M bool :=
  err ← goredis.Ping (client hm);
  mret (bool_decide (err = None)).

(** The start of [Start]: the initial check, after which the callback is
    called if there is one.  The result carries the arguments of the calls
    of the callback. *)
Definition Start_initial (hm : HealthMonitor) : M (HealthMonitor * list bool) :=
  available ← checkHealth hm;
  let hm := store available hm in
  mret (hm, if onStateChange hm then [available] else []).

(** One round of the loop of [Start], on a tick of the ticker. *)
Definition Start_tick (hm : HealthMonitor) : M (HealthMonitor * list bool) :=
  available ← checkHealth hm;
  let previousAvailable := healthmonitor.available hm in
  let hm := store available hm in
  if negb (Bool.eqb available previousAvailable) then
    mret (hm, if onStateChange hm then [available] else [])
  else mret (hm, []).

(** The loop of [Start] for the given number of ticks before the context
    is cancelled. *)
Fixpoint Start_loop (ticks : nat) (hm : HealthMonitor) : M (HealthMonitor * list bool) :=
  match ticks with
  | O => mret (hm, [])
  | S ticks =>
      '(hm, calls) ← Start_tick hm;
      '(hm, calls') ← Start_loop ticks hm;
      mret (hm, calls ++ calls')
  end.

(** [Start], up to the cancellation of its context. *)
Definition Start (ticks : nat) (hm : HealthMonitor) : M (HealthMonitor * list bool) :=
  '(hm, calls) ← Start_initial hm;
  '(hm, calls') ← Start_loop ticks hm;
  mret (hm, calls ++ calls').

(** [IsAvailable] *)
Definition IsAvailable (hm : HealthMonitor) : bool := available hm.

End healthmonitor.

(** ** middleware/auth.go (unnamed/part_000) *)

Module auth.

(** The rights set of [hasAllRights], a [map[string]struct{}]. *)
Definition rightSet_of (userRights : list string) : gset string :=
  foldl (fun rightSet right' => {[right']} ∪ rightSet) ∅ userRights.

(** The second loop of [hasAllRights]. *)
Fixpoint all_exist (rightSet : gset string) (requiredRights : list string) : bool :=
  match requiredRights with
  | [] => true
  | right' :: rest =>
      if negb (bool_decide (right' ∈ rightSet)) then false else all_exist rightSet rest
  end.

(** [hasAllRights] *)
Definition hasAllRights (userRights requiredRights : list string) : bool :=
  all_exist (rightSet_of userRights) requiredRights.

(** What the handler needs from outside the modelled code: the
    verification of an access token ([utils.VerifyToken] with the secret
    and the access type), the lookup of a user in the database
    ([userService.GetUserByID]), [uuid.MustParse] (the canonical text of
    the identifier, [None] when it panics) and [config.RoleRights]. *)
Record Services : Type := mkServices {
  VerifyToken : string → res string;
  GetUserByID : string → res (option service.User);
  MustParse : string → option string;
  RoleRights : gmap string (list string)
}.

(** How the handler answers: a [fiber.Error], or the next handler with the
    user in the locals; [populate] tells that the goroutine that stores the
    session of the user was started. *)
Inductive Answer : Type :=
| Error (code : Z) (message : string)
| Next (user : service.User) (populate : bool).

Definition StatusUnauthorized : Z := 401.
Definition StatusForbidden : Z := 403.

(** The permission check at the end of the handler. *)
Definition authorize (sv : Services) (requiredRights : list string)
    (user : service.User) (populate : bool) (paramUserId userID : string) : Answer :=
  if (0 <? length requiredRights)%nat then
    let userRights := default [] (RoleRights sv !! service.UserRole user) in
    let hasRights := bool_decide (is_Some (RoleRights sv !! service.UserRole user)) in
    if (negb hasRights || negb (hasAllRights userRights requiredRights))
       && negb (bool_decide (paramUserId = userID))
    then Error StatusForbidden "You don't have permission to access this resource"
    else Next user populate
  else Next user populate.

(** The handler that [Auth] returns; [paramUserId] is [c.Params("userId")].
    A nil [sessionService] is [None]: the method call on the nil interface
    panics. *)
Definition Auth (sv : Services) (sessionService : option service.sessionService)
    (requiredRights : list string) (c : Ctx) (paramUserId : string) : M Answer :=
  let authHeader := fiber.Get c "Authorization" in
  let token := unicode.TrimSpace (strings.TrimPrefix authHeader "Bearer ") in
  if bool_decide (token = EmptyString) then
    mret (Error StatusUnauthorized "Please authenticate")
  else
    let '(userID, err) := VerifyToken sv token in
    match err with
    | Some _ => mret (Error StatusUnauthorized "Please authenticate")
    | None =>
        (* Try cache first *)
        '(sessionData, err) ←
          match sessionService with
          | None => panic nil_deref
          | Some s => service.GetUserSession s userID
          end;
        match err, sessionData with
        | None, Some sessionData =>
            (* Cache hit - convert SessionData to model.User *)
            match MustParse sv (service.ID sessionData) with
            | None => panic "uuid: Parse: invalid UUID"
            | Some id =>
                let user :=
                  service.mkUser id (service.Name sessionData) (service.Email sessionData)
                    (service.Role sessionData) (service.VerifiedEmail sessionData) in
                mret (authorize sv requiredRights user false paramUserId userID)
            end
        | _, _ =>
            (* Cache miss or Redis error - fallback to database *)
            let '(user, err) := GetUserByID sv userID in
            match err, user with
            | None, Some user =>
                (* Populate cache asynchronously *)
                mret (authorize sv requiredRights user true paramUserId userID)
            | _, _ => mret (Error StatusUnauthorized "Please authenticate")
            end
        end
    end.

(** The goroutine that the handler starts after a miss. *)
Definition populate (sessionService : option service.sessionService)
    (userID : string) (user : service.User) : M (option error) :=
  match sessionService with
  | None => panic nil_deref
  | Some s => service.CacheUserSession s userID (Some user)
  end.

End auth.

(** ** router/router.go (unnamed/part_001): the wiring of the cache *)

Module router.

(** The facade configuration that [NewRedisClient] reads. *)
Definition facade_config (cfg : config.RedisConfig) : redis.RedisConfig :=
  redis.mkRedisConfig (config.Host cfg) (config.Port cfg) (config.DB cfg)
    (config.Enabled cfg).

(** What [Routes] builds on the Redis facade. *)
Record Wiring : Type := mkWiring {
  redisClient : option redis.RedisClient;
  sessionService : option service.sessionService;     (* a nil interface is [None] *)
  cacheInvalidator : option invalidator.CacheInvalidator;
  cacheMiddleware : option middleware.Config
}.

(** The part of [Routes] that initializes the Redis client, the session
    service, the cache invalidator and the cache middleware.  (The health
    monitor it starts and the services of the database are not among the
    sources of the cache.)  An error of [NewRedisClient] is logged. *)
Definition Routes (v : viper.Registry) : M Wiring :=
  (* Initialize Redis client *)
  let '(redisConfig, _) := config.LoadRedisConfig v in
  redisClient ←
    (if config.Enabled redisConfig then
       '(redisClient, _) ← redis.NewRedisClient (facade_config redisConfig);
       mret redisClient
     else mret None);
  (* Initialize session service *)
  let sessionService :=
    match redisClient with
    | Some _ => Some (service.NewSessionService redisClient)
    | None => None
    end in
  (* Initialize cache invalidator *)
  cacheInvalidator ←
    match redisClient with
    | Some _ => invalidator.NewCacheInvalidator redisClient
    | None => mret None
    end;
  (* Initialize cache middleware *)
  let cacheMiddleware :=
    match redisClient with
    | Some _ => middleware.NewResponseCacheMiddleware redisClient
    | None => None
    end in
  mret (mkWiring redisClient sessionService cacheInvalidator cacheMiddleware).

End router.

(** ** service/token_service.go and the deletion of a user
    (service/user_service.go) *)

Module tokens.

(** [fiber.Cookie], the fields that the services set. *)
Record Cookie : Type := mkCookie {
  CookieName : string;
  Value : string;
  MaxAge : Z;
  CookiePath : string;
  Secure : bool;
  HTTPOnly : bool;
  SameSite : string
}.

(** [res.Tokens] *)
Record Tokens : Type := mkTokens {
  AccessToken : string;
  AccessExpires : Z;
  RefreshToken : string;
  RefreshExpires : Z
}.

(** What the token service needs from outside the modelled code: the
    signature of the claims of a token ([jwt.NewWithClaims] and
    [SignedString] with the secret, for the subject, the issue time, the
    expiry and the type), the errors of the two statements that [SaveToken]
    sends to the database, whether [uuid.MustParse] accepts a text, and the
    package variables of the configuration. *)
Record Outside : Type := mkOutside {
  SignedString : string → Z → Z → string → res string;
  deleteError : option error;
  createError : option error;
  validUUID : string → bool;
  JWTAccessExp : Z;
  JWTRefreshExp : Z;
  IsProd : bool
}.

(** [tokenService]; a nil [SessionService] is [None]. *)
Record tokenService : Type := mkTokenService {
  SessionService : option service.sessionService
}.

Definition TokenTypeAccess : string := "access".
Definition TokenTypeRefresh : string := "refresh".

(** [expires.Unix()] *)
Definition Unix (t : Z) : Z := t / gobreaker.second.

(** [GenerateToken] *)
Definition GenerateToken (o : Outside) (s : tokenService) (userID : string)
    (expires : Z) (tokenType : string) : M (res string) :=
  iat ← service.unix_now;
  mret (SignedString o userID iat (Unix expires) tokenType).

(** [DeleteToken] *)
Definition DeleteToken (o : Outside) (s : tokenService) (tokenType userID : string)
    : M (option error) :=
  let resultError := deleteError o in
  (* Invalidate session cache after successful token deletion *)
  _ ← match resultError, SessionService s with
      | None, Some ss =>
          (* a failure is logged: cache invalidation is best-effort *)
          _ ← service.InvalidateSession ss userID;
          mret ()
      | _, _ => mret ()
      end;
  mret resultError.

(** [SaveToken] *)
Definition SaveToken (o : Outside) (s : tokenService) (token userID tokenType : string)
    (expires : Z) : M (option error) :=
  err ← DeleteToken o s tokenType userID;
  match err with
  | Some err => mret (Some err)
  | None =>
      if validUUID o userID then mret (createError o)
      else panic "uuid: Parse: invalid UUID"
  end.

(** [GenerateAuthTokens]: the tokens, the error, and the cookie that is
    set on the response.  The expiry times are sums in nanoseconds. *)
Definition GenerateAuthTokens (o : Outside) (s : tokenService) (user : service.User)
    : M (option Tokens * option error * option Cookie) :=
  now ← gets clock;
  let accessTokenExpires := now + gobreaker.minute * JWTAccessExp o in
  '(accessToken, err) ←
    GenerateToken o s (service.UserID user) accessTokenExpires TokenTypeAccess;
  match err with
  | Some err => mret (None, Some err, None)
  | None =>
      now ← gets clock;
      let refreshTokenExpires := now + 60 * gobreaker.minute * 24 * JWTRefreshExp o in
      '(refreshToken, err) ←
        GenerateToken o s (service.UserID user) refreshTokenExpires TokenTypeRefresh;
      match err with
      | Some err => mret (None, Some err, None)
      | None =>
          err ← SaveToken o s refreshToken (service.UserID user) TokenTypeRefresh
                  refreshTokenExpires;
          match err with
          | Some err => mret (None, Some err, None)
          | None =>
              (* Cache user session with session ID generation *)
              cookie ←
                match SessionService s with
                | None => mret None
                | Some ss =>
                    cacheErr ← service.CacheUserSession ss (service.UserID user) (Some user);
                    match cacheErr with
                    | Some _ => mret None
                    | None =>
                        (* Set session cookie *)
                        '(sessionID, err) ← service.GenerateSessionID ss;
                        match err with
                        | Some _ => mret None
                        | None =>
                            ttl ← gets config_SessionCacheTTL;
                            mret (Some (mkCookie "session_id" sessionID
                                          (service.wrap64 (ttl * 60)) "/" (IsProd o)
                                          true "Lax"))
                        end
                    end
                end;
              mret (Some (mkTokens accessToken accessTokenExpires
                            refreshToken refreshTokenExpires), None, cookie)
          end
      end
  end.

(** [fiber.NewError(fiber.StatusNotFound, "User not found")] and the errors
    of the database. *)
Inductive ServiceError : Type :=
| FiberError (code : Z) (message : string)
| DatabaseError (err : error).

(** [userService.DeleteUser]: [rowsAffected] and [resultError] are what the
    database reports for the deletion. *)
Definition DeleteUser (SessionService : option service.sessionService)
    (rowsAffected : Z) (resultError : option error) (id : string)
    : M (option ServiceError) :=
  if rowsAffected =? 0 then mret (Some (FiberError 404 "User not found"))
  else
    (* Invalidate cache after successful deletion *)
    _ ← match SessionService with
        | Some ss =>
            (* a failure is logged: graceful degradation *)
            _ ← service.InvalidateSession ss id;
            mret ()
        | None => mret ()
        end;
    mret (DatabaseError <$> resultError).

End tokens.

(** ** Vocabulary of the properties of the configuration, the handlers and
    the callers *)

Section vocabulary_sessions.
Import gobreaker service.

(** [IsAvailable] is bound to answer no: the availability flag is down, or
    the breaker that [IsAvailable] consults is OPEN and its cooldown has
    not elapsed. *)
Definition unavailable (w : World) : Prop :=
  redis_redisAvailable w = 0
  ∨ ∃ p cb e, redis_redisCB w = Some p ∧ heap w !! p = Some cb
              ∧ state cb = StateOpen ∧ expiry cb = Some e ∧ clock w ≤ e.

End vocabulary_sessions.

Section vocabulary_tokens.

(** The characters of a [base64.URLEncoding] text: letters, digits, [-],
    [_] and the padding [=]. *)
Definition url_safe (c : ascii) : bool :=
  let n := nat_of_ascii c in
  ((65 <=? n) && (n <=? 90) || (97 <=? n) && (n <=? 122)
   || (48 <=? n) && (n <=? 57))%nat
  || Ascii.eqb c "-" || Ascii.eqb c "_" || Ascii.eqb c "=".

(** Every byte of the string satisfies [P]. *)
Fixpoint all_bytes (P : ascii → bool) (s : string) : bool :=
  match s with
  | EmptyString => true
  | String c r => P c && all_bytes P r
  end.

End vocabulary_tokens.

Section vocabulary_keys.

(** [sub] occurs in [s] ([strings.Contains]). *)
Fixpoint contains (s sub : string) : bool :=
  strings.HasPrefix s sub
  || match s with
     | EmptyString => false
     | String _ s' => contains s' sub
     end.

(** A byte that is not special in a glob pattern. *)
Definition plain_byte (c : ascii) : bool :=
  negb (Ascii.eqb c "*" || Ascii.eqb c "?" || Ascii.eqb c "[" || Ascii.eqb c "\").

End vocabulary_keys.

Section vocabulary_configuration.

(** The host name consists of white space only (or is empty). *)
Definition blank (host : string) : Prop := unicode.all_space O host = true.

(** The registry of a deployment that sets nothing. *)
Definition unset : viper.Registry :=
  viper.mkRegistry (fun _ => EmptyString) (fun _ => 0) (fun _ => 0).

(** A registry with the given texts, whose numbers are read with
    [strconv.Atoi] (0 for a text that is no number). *)
Definition registry_of (env : gmap string string) : viper.Registry :=
  viper.mkRegistry (fun k => default EmptyString (env !! k))
                   (fun k => (strconv_Atoi.Atoi (default EmptyString (env !! k))).1)
                   (fun _ => 0).

End vocabulary_configuration.

Section vocabulary_monitor.

(** Whether each of the next [n] commands is delivered. *)
Fixpoint answers (n : nat) (fs : list (option error)) : list bool :=
  match n with
  | O => []
  | S n =>
      match fs with
      | Some _ :: fs' => false :: answers n fs'
      | _ => true :: answers n (tail fs)
      end
  end.

(** The values of a sequence that differ from the value before them;
    [prev] is the value before the first. *)
Fixpoint changes (prev : bool) (l : list bool) : list bool :=
  match l with
  | [] => []
  | a :: l => if Bool.eqb a prev then changes a l else a :: changes a l
  end.

End vocabulary_monitor.

Section vocabulary_auth.
Import gobreaker service.

(** The access token of a request, as the handler of [Auth] reads it. *)
Definition bearer (c : Ctx) : string :=
  unicode.TrimSpace (strings.TrimPrefix (fiber.Get c "Authorization") "Bearer ").

(** The request carries a token that verifies for the subject [userID]. *)
Definition authenticated (sv : auth.Services) (c : Ctx) (userID : string) : Prop :=
  bearer c ≠ EmptyString ∧ auth.VerifyToken sv (bearer c) = (userID, None).

(** The store is available to the service and can take a failure: the
    breaker is CLOSED within its counting interval, with the settings of
    the repository and fewer than three failures in a row. *)
Definition steady (s : sessionService) (w : World) : Prop :=
  ∃ r c p cb e,
    redisClient s = Some r ∧ redis.client r = Some c
    ∧ redis.circuitBreaker r = Some p ∧ redis_redisCB w = Some p
    ∧ heap w !! p = Some cb ∧ configured cb ∧ state cb = StateClosed
    ∧ expiry cb = Some e ∧ clock w ≤ e
    ∧ 0 ≤ ConsecutiveFailures (counts cb) < 3
    ∧ redis_redisAvailable w ≠ 0 ∧ faults w = [].

(** The strings of the user are valid UTF-8. *)
Definition ValidUser (user : User) : Prop :=
  ValidString (UserID user) ∧ ValidString (UserName user)
  ∧ ValidString (UserEmail user) ∧ ValidString (UserRole user).

End vocabulary_auth.

(** ** Scenarios *)

Section scenarios.
Import gobreaker service.

(** A world in which the breaker of the facade was tripped at instant 4
    and is cooling down. *)
Definition cooling : World :=
  mkWorld (Some client0) 1 (Some 0%nat) 30 {[ 0%nat := tripped ]} 5 stocked [] [] [].

(** A world in which the breaker of the facade has counted three failures
    in a row, with a reachable server that holds no session. *)
Definition strained : World :=
  mkWorld (Some client0) 1 (Some 0%nat) 30
          {[ 0%nat := calls [(1, false); (2, false); (3, false)]
                        (NewCircuitBreaker redis.breakerSettings 0) ]}
          4 ∅ [] [] [].

(** The world before the start-up code has run: no client, no breaker,
    the flag down, an empty server behind a sound transport. *)
Definition offline : World := mkWorld None 0 None 30 ∅ 0 ∅ [] [] [].

(** The configuration of a Redis server on the local host. *)
Definition redis0 : redis.RedisConfig := redis.mkRedisConfig "localhost" 6379 0 true.

(** A monitor with a callback, and a world in which the second and the
    third command of the monitor are lost. *)
Definition monitor0 : healthmonitor.HealthMonitor :=
  healthmonitor.NewHealthMonitor (Some client0) (30 * second) true.

Definition outage : World :=
  healthy ∅ [None; Some (errorString "i/o timeout"); Some (errorString "i/o timeout"); None]
          [].

(** A second read of the entropy source. *)
Definition seed2 : string := "fedcba9876543210fedcba9876543210".

(** The services around the handler of [Auth] in the scenarios: one token
    verifies, for the user [alice], whom the database knows; the role
    [user] may read the users and the role [admin] may also manage them. *)
Definition services0 : auth.Services :=
  auth.mkServices
    (fun token => if String.eqb token "t0k3n" then (UserID alice, None)
                  else (EmptyString, Some (errorString "token is malformed")))
    (fun id => if String.eqb id (UserID alice) then (Some alice, None)
               else (None, Some (errorString "record not found")))
    Some
    {[ "user" := ["getUsers"]; "admin" := ["getUsers"; "manageUsers"] ]}.

(** A request for the list of the users with the token, and one without
    a header. *)
Definition request0 : Ctx :=
  mkCtx "GET" "/v1/users" EmptyString ∅ {[ "Authorization" := "Bearer t0k3n" ]}
        "203.0.113.7" 200.

Definition anonymous : Ctx :=
  mkCtx "GET" "/v1/users" EmptyString ∅ ∅ "203.0.113.7" 200.

(** The surroundings of the token service in the scenarios: every token
    is signed, the database accepts every statement. *)
Definition outside0 : tokens.Outside :=
  tokens.mkOutside (fun sub iat exp typ => (typ +:+ "." +:+ sub, None)) None None
    (fun _ => true) 30 30 false.

End scenarios.

(* ===================================================================== *)
(** * Part II. Properties                                                 *)
(* ===================================================================== *)

(** ** Strings *)

Lemma app_cons (c : ascii) (s t : string) : String c s +:+ t = String c (s +:+ t).
Proof. reflexivity. Qed.

Lemma app_empty_l (s : string) : EmptyString +:+ s = s.
Proof. reflexivity. Qed.

Lemma app_empty_r (s : string) : s +:+ EmptyString = s.
Proof. induction s as [|c s IH]; [done|]. by rewrite app_cons, IH. Qed.

Lemma app_assoc_s (s t u : string) : (s +:+ t) +:+ u = s +:+ (t +:+ u).
Proof. induction s as [|c s IH]; [done|]. by rewrite !app_cons, IH. Qed.

Lemma len_app (s t : string) : strings.len (s +:+ t) = (strings.len s + strings.len t)%nat.
Proof.
  induction s as [|c s IH]; [done|]. rewrite app_cons.
  unfold strings.len in *. cbn. by rewrite IH.
Qed.

Lemma HasPrefix_app (p s : string) : strings.HasPrefix (p +:+ s) p = true.
Proof.
  induction p as [|c p IH]; [by destruct s|].
  rewrite app_cons. cbn. by rewrite Ascii.eqb_refl.
Qed.

Lemma HasPrefix_inv (s p : string) :
  strings.HasPrefix s p = true → ∃ t, s = p +:+ t.
Proof.
  revert s. induction p as [|c p IH]; intros s H.
  - by exists s.
  - destruct s as [|d s]; [done|]. cbn in H.
    destruct (Ascii.eqb d c) eqn:E; [|done].
    apply Ascii.eqb_eq in E as ->.
    destruct (IH _ H) as [t ->]. by exists t.
Qed.

(** A formatted string with only [%s] verbs and string operands is the
    concatenation of its pieces. *)
Lemma Sprintf_key (a b c d : string) :
  fmt.Sprintf "%s%s:%s?%s" [AStr a; AStr b; AStr c; AStr d]
  = a +:+ b +:+ ":" +:+ c +:+ "?" +:+ d.
Proof. cbn. by rewrite app_empty_r. Qed.

(** ** C6: the layout of the cache key *)

(** C6, as the specification states it, fails: the key of [GET /users]
    without a query has no [:] between the path and the [?]. *)
Lemma cache_key_layout_counterexample :
  keygen.GenerateCacheKey "GET" "/users" ""
  ≠ keygen.CacheKeyPrefix +:+ "GET" +:+ ":" +:+ keygen.normalizePath "/users"
      +:+ ":" +:+ "?" +:+ keygen.sortQueryParams "".
Proof. vm_compute. discriminate. Qed.

(** C6 (amended): for every method, path and query string the key is the
    prefix [api:response:], the method, [:], the normalized path, [?] and
    the sorted query, with no separator between the path and the [?]. *)
Theorem cache_key_layout (method path queryString : string) :
  keygen.GenerateCacheKey method path queryString
  = "api:response:" +:+ method +:+ ":" +:+ keygen.normalizePath path
      +:+ "?" +:+ keygen.sortQueryParams queryString.
Proof. unfold keygen.GenerateCacheKey. by rewrite Sprintf_key. Qed.

(** ** C4: path normalization *)

(** C4: a run of three separators is not collapsed to one, and the root
    path is not left as it is. *)
Theorem normalizePath_defects :
  keygen.normalizePath "/a///b" = "/a//b"
  ∧ keygen.normalizePath "/" = ""
  ∧ keygen.GenerateCacheKey "GET" "/a///b" "" ≠ keygen.GenerateCacheKey "GET" "/a/b" "".
Proof. repeat split; vm_compute; done. Qed.

(** ** C7: the deny-list of the response cache *)

(** No path under the [/v1] group starts with an entry of the deny-list. *)
Lemma shouldSkipCache_v1 (path : string) :
  strings.HasPrefix path "/v1" = true → keygen.shouldSkipCache path = false.
Proof. intros [t ->]%HasPrefix_inv. reflexivity. Qed.

(** A [GET] or [HEAD] request under [/v1] whose response is not an error is
    handed to the cache. *)
Lemma skipRequest_v1 (c : Ctx) :
  Method c = "GET" ∨ Method c = "HEAD" →
  strings.HasPrefix (Path c) "/v1" = true →
  StatusCode c < 400 →
  middleware.skipRequest c = false.
Proof.
  intros Hm Hp Hs. unfold middleware.skipRequest.
  rewrite (shouldSkipCache_v1 _ Hp).
  assert ((400 <=? StatusCode c) = false) as -> by lia.
  destruct Hm as [-> | ->]; reflexivity.
Qed.

(** C7: the deny-list does not match the login route as it is mounted, and
    a [GET] request to it is not made to bypass the cache. *)
Theorem login_route_not_skipped :
  keygen.shouldSkipCache (Path get_login) = false
  ∧ middleware.skipRequest get_login = false.
Proof. split; reflexivity. Qed.

(** ** C9: the identity key of the rate limiter *)

Lemma Sprintf_rate_user (id : any) :
  fmt.Sprintf "rate_limit:user:%v" [id] = "rate_limit:user:" +:+ fmt.show_v id.
Proof. cbn. by rewrite app_empty_r. Qed.

Lemma Sprintf_rate_ip (addr : string) :
  fmt.Sprintf "rate_limit:ip:%s" [AStr addr] = "rate_limit:ip:" +:+ addr.
Proof. cbn. by rewrite app_empty_r. Qed.

(** C9: the key is derived from the first source that is present, in the
    order: the authenticated subject ([user_id] in the request locals),
    the header [X-Forwarded-For], the header [CF-Connecting-IP], the
    address of the connection. *)
Theorem KeyGenerator_priority (c : Ctx) :
  (∀ id, fiber.GetLocal c "user_id" = id → id ≠ ANil →
     limiter.KeyGenerator c = "rate_limit:user:" +:+ fmt.show_v id)
  ∧ (fiber.GetLocal c "user_id" = ANil →
     fiber.Get c "X-Forwarded-For" ≠ EmptyString →
     limiter.KeyGenerator c = "rate_limit:ip:" +:+ fiber.Get c "X-Forwarded-For")
  ∧ (fiber.GetLocal c "user_id" = ANil →
     fiber.Get c "X-Forwarded-For" = EmptyString →
     fiber.Get c "CF-Connecting-IP" ≠ EmptyString →
     limiter.KeyGenerator c = "rate_limit:ip:" +:+ fiber.Get c "CF-Connecting-IP")
  ∧ (fiber.GetLocal c "user_id" = ANil →
     fiber.Get c "X-Forwarded-For" = EmptyString →
     fiber.Get c "CF-Connecting-IP" = EmptyString →
     limiter.KeyGenerator c = "rate_limit:ip:" +:+ IP c).
Proof.
  unfold limiter.KeyGenerator. repeat split.
  - intros id -> Hid. rewrite bool_decide_eq_false_2 by done.
    apply Sprintf_rate_user.
  - intros -> Hx. rewrite bool_decide_eq_true_2 by done. cbn [negb].
    rewrite bool_decide_eq_false_2 by done. apply Sprintf_rate_ip.
  - intros -> -> Hcf. rewrite !bool_decide_eq_true_2 by done. cbn [negb].
    rewrite bool_decide_eq_false_2 by done. apply Sprintf_rate_ip.
  - intros -> -> ->. rewrite !bool_decide_eq_true_2 by done. apply Sprintf_rate_ip.
Qed.

Lemma KeyGenerator_priority_witness :
  limiter.KeyGenerator
    (ctx_of (Some (AStr "u1")) [("X-Forwarded-For", "198.51.100.2")] "10.0.0.1")
  = "rate_limit:user:u1"
  ∧ limiter.KeyGenerator
      (ctx_of None [("X-Forwarded-For", "198.51.100.2");
                    ("CF-Connecting-IP", "198.51.100.3")] "10.0.0.1")
    = "rate_limit:ip:198.51.100.2"
  ∧ limiter.KeyGenerator (ctx_of None [("CF-Connecting-IP", "198.51.100.3")] "10.0.0.1")
    = "rate_limit:ip:198.51.100.3"
  ∧ limiter.KeyGenerator (ctx_of None [] "10.0.0.1") = "rate_limit:ip:10.0.0.1".
Proof.
  split; [|split; [|split]].
  - refine (eq_trans (proj1 (KeyGenerator_priority _) (AStr "u1") _ _) _);
      [reflexivity | discriminate | reflexivity].
  - refine (eq_trans (proj1 (proj2 (KeyGenerator_priority _)) _ _) _);
      [reflexivity | vm_compute; discriminate | reflexivity].
  - refine (eq_trans (proj1 (proj2 (proj2 (KeyGenerator_priority _))) _ _ _) _);
      [reflexivity | reflexivity | vm_compute; discriminate | reflexivity].
  - refine (eq_trans (proj2 (proj2 (proj2 (KeyGenerator_priority _))) _ _ _) _);
      reflexivity.
Defined.

(** ** Running computations *)

Ltac run :=
  cbv beta iota delta [mbind M_bind mret M_ret gets modify panic goredis.on_client].

Lemma scans_app (cs ds : list server.Command) : scans (cs ++ ds) = scans cs ++ scans ds.
Proof. apply omap_app. Qed.

(** ** C10: the absent cache subsystem *)


(** ** C8: invalidating what is cached for a user *)

Lemma InvalidateByPattern_scans (ci : invalidator.CacheInvalidator)
    (c : goredis_Client) (pattern : string) (w : World) :
  invalidator.redisClient ci = Some c →
  ∃ e w', invalidator.InvalidateByPattern (Some ci) pattern w = Done e w'
          ∧ scans (wire w') = scans (wire w) ++ [pattern].
Proof.
  intros Hc. unfold invalidator.InvalidateByPattern, goredis.Scan, goredis.Del,
    goredis.roundtrip. rewrite Hc. run.
  destruct (faults w) as [|[e|] fs] eqn:Hf; cbn.
  all: try (eexists _, _; split; [reflexivity|]; cbn; by rewrite scans_app).
  all: match goal with
       | |- context [filter ?P ?l] => destruct (filter P l) as [|k ks] eqn:Hk
       end; cbn.
  all: try (eexists _, _; split; [reflexivity|]; cbn; by rewrite scans_app).
  - eexists _, _; split; [reflexivity|]; cbn.
    rewrite !scans_app. cbn. by rewrite app_nil_r.
  - destruct fs as [|[e|] fs]; cbn;
      (eexists _, _; split; [reflexivity|]; cbn;
       rewrite !scans_app; cbn; by rewrite app_nil_r).
Qed.

Lemma lookup_foldr_delete (m : server.Keyspace) (l : list string) (k : string) :
  foldr delete m l !! k = if decide (k ∈ l) then None else m !! k.
Proof.
  induction l as [|x l IH]; cbn [foldr].
  - by rewrite decide_False by apply not_elem_of_nil.
  - destruct (decide (k = x)) as [->|Hne].
    + rewrite lookup_delete_eq. by rewrite decide_True by (apply elem_of_cons; by left).
    + rewrite lookup_delete_ne by done. rewrite IH.
      destruct (decide (k ∈ l)).
      * by rewrite decide_True by (apply elem_of_cons; by right).
      * rewrite decide_False; [done|]. by intros [?|?]%elem_of_cons.
Qed.

(** Under a sound transport a pattern deletion succeeds and leaves no live
    key that matches the pattern; the keys that do not match are kept. *)
Lemma InvalidateByPattern_deletes (ci : invalidator.CacheInvalidator)
    (c : goredis_Client) (pattern : string) (w : World) :
  invalidator.redisClient ci = Some c → faults w = [] →
  ∃ w', invalidator.InvalidateByPattern (Some ci) pattern w = Done None w'
        ∧ faults w' = [] ∧ clock w' = clock w
        ∧ (∀ k, server.glob pattern k = true →
             server.lookup_live (clock w') (keyspace w') k = None)
        ∧ (∀ k, server.glob pattern k = false → keyspace w' !! k = keyspace w !! k).
Proof.
  intros Hc Hf. unfold invalidator.InvalidateByPattern, goredis.Scan, goredis.Del,
    goredis.roundtrip. rewrite Hc. run. rewrite Hf. cbn.
  set (keys := filter _ _).
  assert (∀ k, k ∈ keys ↔ server.glob pattern k = true
                          ∧ is_Some (server.lookup_live (clock w) (keyspace w) k)) as Hkeys.
  { intros k. unfold keys. rewrite list_elem_of_filter. split; [tauto|].
    intros [Hg Hl]. split; [done|].
    apply list_elem_of_fmap. unfold server.lookup_live in Hl.
    destruct (keyspace w !! k) as [e|] eqn:Hk; [|by destruct Hl].
    exists (k, e). split; [done|]. by apply elem_of_map_to_list. }
  destruct keys as [|k0 ks] eqn:Hks; cbn.
  - eexists. split; [reflexivity|]. cbn. repeat split; try done.
    intros k Hg. destruct (server.lookup_live (clock w) (keyspace w) k) eqn:Hl; [|done].
    exfalso. eapply not_elem_of_nil, Hkeys. eauto.
  - eexists. split; [reflexivity|]. cbn. repeat split; try done.
    + intros k Hg. unfold server.lookup_live.
      change (delete k0 (foldr delete (keyspace w) ks))
        with (foldr delete (keyspace w) (k0 :: ks)).
      rewrite lookup_foldr_delete. destruct (decide (k ∈ k0 :: ks)) as [|Hn]; [done|].
      destruct (keyspace w !! k) as [e|] eqn:Hk; [|done].
      destruct (server.live (clock w) e) eqn:Hl; [|done].
      exfalso. apply Hn, Hkeys. split; [done|].
      unfold server.lookup_live. rewrite Hk, Hl. by eexists.
    + intros k Hg.
      change (delete k0 (foldr delete (keyspace w) ks))
        with (foldr delete (keyspace w) (k0 :: ks)).
      rewrite lookup_foldr_delete. rewrite decide_False; [done|].
      intros [Hg' _]%Hkeys. congruence.
Qed.

(** Under a sound transport the session of the user and the responses
    cached for the user are gone afterwards. *)
Lemma InvalidateUserRelatedCache_deletes (ci : invalidator.CacheInvalidator)
    (c : goredis_Client) (userID : string) (w : World) :
  invalidator.redisClient ci = Some c → faults w = [] →
  ∃ w', invalidator.InvalidateUserRelatedCache (Some ci) userID w = Done None w'
        ∧ ∀ k, server.glob ("session:user:" +:+ userID) k = true
               ∨ server.glob ("api:response:*:user:" +:+ userID +:+ ":*") k = true →
               server.lookup_live (clock w') (keyspace w') k = None.
Proof.
  intros Hc Hf. unfold invalidator.InvalidateUserRelatedCache,
    invalidator.InvalidateSessionCache. run.
  destruct (InvalidateByPattern_deletes ci c (patterns.GetSessionPattern userID) w Hc Hf)
    as (w1 & -> & Hf1 & Hc1 & Hgone1 & Hkept1).
  destruct (InvalidateByPattern_deletes ci c
              (patterns.GetAPIResponseKeyPattern userID) w1 Hc Hf1)
    as (w2 & -> & Hf2 & Hc2 & Hgone2 & Hkept2).
  exists w2. split; [done|].
  assert (patterns.GetSessionPattern userID = "session:user:" +:+ userID) as Hp1
    by (unfold patterns.GetSessionPattern; cbn; by rewrite ?app_empty_r).
  assert (patterns.GetAPIResponseKeyPattern userID
          = "api:response:*:user:" +:+ userID +:+ ":*") as Hp2
    by (unfold patterns.GetAPIResponseKeyPattern; cbn; by rewrite ?app_empty_r).
  rewrite Hp1, Hp2 in *.
  intros k Hk.
  destruct (server.glob ("api:response:*:user:" +:+ userID +:+ ":*") k) eqn:Hg2;
    [by apply Hgone2|].
  destruct Hk as [Hg1|]; [|done].
  unfold server.lookup_live. rewrite (Hkept2 k Hg2), Hc2.
  apply (Hgone1 k Hg1).
Qed.

(** With a client both scans are issued, the second also after a failure
    of the first. *)
Lemma InvalidateUserRelatedCache_scans (ci : invalidator.CacheInvalidator)
    (c : goredis_Client) (userID : string) (w : World) :
  invalidator.redisClient ci = Some c →
  ∃ w', invalidator.InvalidateUserRelatedCache (Some ci) userID w = Done None w'
        ∧ scans (wire w')
          = scans (wire w) ++ [ "session:user:" +:+ userID;
                                "api:response:*:user:" +:+ userID +:+ ":*" ].
Proof.
  intros Hc. unfold invalidator.InvalidateUserRelatedCache,
    invalidator.InvalidateSessionCache. run.
  destruct (InvalidateByPattern_scans ci c (patterns.GetSessionPattern userID) w Hc)
    as (e1 & w1 & -> & H1).
  destruct (InvalidateByPattern_scans ci c
              (patterns.GetAPIResponseKeyPattern userID) w1 Hc)
    as (e2 & w2 & -> & H2).
  exists w2. split; [done|]. rewrite H2, H1, <- app_assoc.
  unfold patterns.GetSessionPattern, patterns.GetAPIResponseKeyPattern. cbn.
  by rewrite !app_empty_r.
Qed.



(** In that world the first scan is lost, and the second scan and its
    deletion still take place. *)
Example InvalidateUserRelatedCache_flaky :
  ∃ w', invalidator.InvalidateUserRelatedCache
          (Some (invalidator.mkCacheInvalidator (Some (mkClient "localhost:6379" 0))))
          "u1" flaky_world = Done None w'
        ∧ wire w' = [ server.CmdScan "session:user:u1";
                      server.CmdScan "api:response:*:user:u1:*";
                      server.CmdDel ["api:response:GET:/me:user:u1:?"] ]
        ∧ keyspace w' !! "api:response:GET:/me:user:u1:?" = None.
Proof. eexists. split; [vm_compute; reflexivity|]. split; vm_compute; reflexivity. Qed.

(** The revision in src/cache/invalidator.go scans for four path patterns
    instead, and also returns nil whatever happens. *)
Lemma invalidate_each_scans (ci : invalidator.CacheInvalidator) (c : goredis_Client)
    (ps : list string) (w : World) :
  invalidator.redisClient ci = Some c →
  ∃ w', invalidator.invalidate_each (Some ci) ps w = Done () w'
        ∧ scans (wire w') = scans (wire w) ++ ps.
Proof.
  intros Hc. revert w. induction ps as [|p ps IH]; intros w.
  - exists w. by rewrite app_nil_r.
  - cbn [invalidator.invalidate_each]. run.
    destruct (InvalidateByPattern_scans ci c p w Hc) as (e & w1 & -> & H1).
    destruct (IH w1) as (w2 & -> & H2). exists w2. split; [done|].
    by rewrite H2, H1, <- app_assoc.
Qed.

Lemma InvalidateUserRelatedCache_paths_scans (ci : invalidator.CacheInvalidator)
    (c : goredis_Client) (userID : string) (w : World) :
  invalidator.redisClient ci = Some c →
  ∃ w', invalidator.InvalidateUserRelatedCache_paths (Some ci) userID w = Done None w'
        ∧ scans (wire w')
          = scans (wire w) ++ [ "api:response:GET:/users*";
                                "api:response:HEAD:/users*";
                                "api:response:GET:/users/" +:+ userID +:+ "*";
                                "api:response:HEAD:/users/" +:+ userID +:+ "*" ].
Proof.
  intros Hc. unfold invalidator.InvalidateUserRelatedCache_paths. rewrite Hc. run.
  destruct (invalidate_each_scans ci c (invalidator.pathPatterns userID) w Hc)
    as (w' & -> & H).
  exists w'. split; [done|]. rewrite H. reflexivity.
Qed.

(** ** C3: the circuit breaker *)

Section breaker.
Import gobreaker.

(** Decide the comparisons of known constructors. *)
Ltac dec :=
  repeat first
    [ rewrite decide_True by done
    | rewrite decide_False by done
    | rewrite bool_decide_eq_true_2 by done
    | rewrite bool_decide_eq_false_2 by done ];
  cbn.

Ltac unfold_breaker :=
  unfold call, StateOf, beforeRequest, afterRequest, currentState, onSuccess,
    onFailure, setState, toNewGeneration, with_counts, with_state,
    Counts_onRequest, Counts_onSuccess, Counts_onFailure; cbn.

Lemma incr32_small (x : Z) : 0 ≤ x < 2 ^ 32 - 1 → incr32 x = x + 1.
Proof. intros H. unfold incr32. apply Z.mod_small. lia. Qed.

Lemma new_breaker (t0 : Z) :
  let cb := NewCircuitBreaker redis.breakerSettings t0 in
  state cb = StateClosed ∧ configured cb ∧ counts cb = Counts_clear
  ∧ expiry cb = Some (t0 + minute).
Proof. repeat split; cbn; lia. Qed.

(** CLOSED: within the counting interval a failure trips the breaker
    exactly when it is the fourth in a row. *)
Lemma closed_failure (cb : CircuitBreaker) (now e : Z) :
  configured cb → state cb = StateClosed → expiry cb = Some e → now ≤ e →
  0 ≤ ConsecutiveFailures (counts cb) ≤ 3 →
  let cb' := (call now false cb).1 in
  (ConsecutiveFailures (counts cb) < 3 →
     state cb' = StateClosed ∧ expiry cb' = Some e
     ∧ ConsecutiveFailures (counts cb') = ConsecutiveFailures (counts cb) + 1)
  ∧ (ConsecutiveFailures (counts cb) = 3 →
     state cb' = StateOpen ∧ expiry cb' = Some (now + 30 * second)).
Proof.
  intros (Hm & Hi & Ht & Hr & Hq) Hs He Hnow Hcf.
  destruct cb as [mr iv to rt st gen [rq ts tf cs cf] ex]; cbn in *. subst.
  unfold_breaker.
  assert ((e <? now) = false) as Hlt by lia.
  repeat (progress (rewrite ?Hlt, ?Z.eqb_refl, ?Hr; dec)).
  rewrite (incr32_small cf) by lia.
  split; intros Hc.
  - assert ((3 <? cf + 1) = false) as -> by lia. done.
  - assert ((3 <? cf + 1) = true) as -> by lia. by dec.
Qed.

(** CLOSED: a success ends the run of failures. *)
Lemma closed_success (cb : CircuitBreaker) (now e : Z) :
  configured cb → state cb = StateClosed → expiry cb = Some e → now ≤ e →
  let cb' := (call now true cb).1 in
  state cb' = StateClosed ∧ ConsecutiveFailures (counts cb') = 0.
Proof.
  intros (Hm & Hi & Ht & Hr & Hq) Hs He Hnow.
  destruct cb as [mr iv to rt st gen [rq ts tf cs cf] ex]; cbn in *. subst.
  unfold_breaker.
  assert ((e <? now) = false) as Hlt by lia.
  by repeat (progress (rewrite ?Hlt, ?Z.eqb_refl; dec)).
Qed.

(** OPEN: until the cooldown has elapsed every request is rejected and
    the breaker does not change. *)
Lemma open_rejects (cb : CircuitBreaker) (now e : Z) (ok : bool) :
  state cb = StateOpen → expiry cb = Some e → now ≤ e →
  call now ok cb = (cb, Some ErrOpenState) ∧ StateOf now cb = (cb, StateOpen).
Proof.
  intros Hs He Hnow.
  destruct cb as [mr iv to rt st gen c ex]; cbn in *. subst.
  unfold_breaker.
  assert ((e <? now) = false) as -> by lia. by dec.
Qed.

(** OPEN: once the cooldown has elapsed the breaker is HALF-OPEN, with
    fresh counters. *)
Lemma open_to_half_open (cb : CircuitBreaker) (now e : Z) :
  state cb = StateOpen → expiry cb = Some e → e < now →
  let cb' := (StateOf now cb).1 in
  state cb' = StateHalfOpen ∧ counts cb' = Counts_clear
  ∧ (StateOf now cb).2 = StateHalfOpen.
Proof.
  intros Hs He Hnow.
  destruct cb as [mr iv to rt st gen c ex]; cbn in *. subst.
  unfold_breaker.
  assert ((e <? now) = true) as -> by lia. by dec.
Qed.

(** HALF-OPEN: a request is admitted while fewer than five have been. *)
Lemma half_open_admission (cb : CircuitBreaker) (now : Z) :
  configured cb → state cb = StateHalfOpen →
  (Requests (counts cb) < 5 →
     ∃ cb', beforeRequest now cb = (cb', generation cb, None)
            ∧ Requests (counts cb') = Requests (counts cb) + 1)
  ∧ (5 ≤ Requests (counts cb) →
     beforeRequest now cb = (cb, generation cb, Some ErrTooManyRequests)).
Proof.
  intros (Hm & Hi & Ht & Hr & Hq) Hs.
  destruct cb as [mr iv to rt st gen [rq ts tf cs cf] ex]; cbn in *. subst.
  unfold_breaker. dec. split; intros H.
  - assert ((5 <=? rq) = false) as -> by lia. eexists. split; [reflexivity|].
    cbn. apply incr32_small. lia.
  - by assert ((5 <=? rq) = true) as -> by lia.
Qed.

(** HALF-OPEN: a successful trial advances the trial-success counter; the
    breaker closes when the fifth consecutive trial has succeeded. *)
Lemma half_open_success (cb : CircuitBreaker) (now : Z) :
  configured cb → state cb = StateHalfOpen → Requests (counts cb) < 5 →
  0 ≤ ConsecutiveSuccesses (counts cb) ≤ 4 →
  let cb' := (call now true cb).1 in
  (ConsecutiveSuccesses (counts cb) < 4 →
     state cb' = StateHalfOpen
     ∧ ConsecutiveSuccesses (counts cb') = ConsecutiveSuccesses (counts cb) + 1)
  ∧ (ConsecutiveSuccesses (counts cb) = 4 → state cb' = StateClosed).
Proof.
  intros (Hm & Hi & Ht & Hr & Hq) Hs Hrq Hcs.
  destruct cb as [mr iv to rt st gen [rq ts tf cs cf] ex]; cbn in *. subst.
  unfold_breaker.
  dec. assert ((5 <=? rq) = false) as -> by lia. cbn.
  rewrite Z.eqb_refl. cbn. rewrite (incr32_small cs) by lia.
  split; intros Hc.
  - by assert ((5 <=? cs + 1) = false) as -> by lia.
  - assert ((5 <=? cs + 1) = true) as -> by lia. by dec.
Qed.

(** HALF-OPEN: a failed trial reopens the breaker for a new cooldown. *)
Lemma half_open_failure (cb : CircuitBreaker) (now : Z) :
  configured cb → state cb = StateHalfOpen → Requests (counts cb) < 5 →
  let cb' := (call now false cb).1 in
  state cb' = StateOpen ∧ expiry cb' = Some (now + 30 * second).
Proof.
  intros (Hm & Hi & Ht & Hr & Hq) Hs Hrq.
  destruct cb as [mr iv to rt st gen [rq ts tf cs cf] ex]; cbn in *. subst.
  unfold_breaker.
  dec. assert ((5 <=? rq) = false) as -> by lia. cbn.
  rewrite Z.eqb_refl. by dec.
Qed.

(** C3, as the specification states it, fails: after the cooldown one
    successful trial call leaves the breaker HALF-OPEN. *)
Lemma one_trial_success_does_not_close :
  state tripped = StateOpen
  ∧ state probing = StateHalfOpen
  ∧ call (4 + 30 * second + 2) true probing
    = (calls [(4 + 30 * second + 2, true)] probing, None)
  ∧ state (calls [(4 + 30 * second + 2, true)] probing) = StateHalfOpen
  ∧ state (calls [(4 + 30 * second + 2, true)] probing) ≠ StateClosed.
Proof. repeat split; vm_compute; done. Qed.

(** C3 (amended): a new breaker is CLOSED; while CLOSED, a failure within
    the counting interval opens the breaker exactly when it is the fourth
    consecutive failure (the count of consecutive failures exceeds 3), and a
    success resets the count; an OPEN breaker rejects every request for the
    30 seconds of its cooldown and is HALF-OPEN afterwards; a HALF-OPEN
    breaker admits a request while fewer than 5 have been admitted; it
    closes on the fifth consecutive successful trial and stays HALF-OPEN on
    the first four; any failed trial reopens it. *)
Theorem breaker_state_machine :
  (∀ t0, let cb := NewCircuitBreaker redis.breakerSettings t0 in
     state cb = StateClosed ∧ configured cb ∧ counts cb = Counts_clear
     ∧ expiry cb = Some (t0 + minute))
  ∧ (∀ cb now e,
       configured cb → state cb = StateClosed → expiry cb = Some e → now ≤ e →
       0 ≤ ConsecutiveFailures (counts cb) ≤ 3 →
       let cb' := (call now false cb).1 in
       (ConsecutiveFailures (counts cb) < 3 →
          state cb' = StateClosed ∧ expiry cb' = Some e
          ∧ ConsecutiveFailures (counts cb') = ConsecutiveFailures (counts cb) + 1)
       ∧ (ConsecutiveFailures (counts cb) = 3 →
          state cb' = StateOpen ∧ expiry cb' = Some (now + 30 * second)))
  ∧ (∀ cb now e,
       configured cb → state cb = StateClosed → expiry cb = Some e → now ≤ e →
       let cb' := (call now true cb).1 in
       state cb' = StateClosed ∧ ConsecutiveFailures (counts cb') = 0)
  ∧ (∀ cb now e ok,
       state cb = StateOpen → expiry cb = Some e → now ≤ e →
       call now ok cb = (cb, Some ErrOpenState) ∧ StateOf now cb = (cb, StateOpen))
  ∧ (∀ cb now e,
       state cb = StateOpen → expiry cb = Some e → e < now →
       let cb' := (StateOf now cb).1 in
       state cb' = StateHalfOpen ∧ counts cb' = Counts_clear
       ∧ (StateOf now cb).2 = StateHalfOpen)
  ∧ (∀ cb now,
       configured cb → state cb = StateHalfOpen →
       (Requests (counts cb) < 5 →
          ∃ cb', beforeRequest now cb = (cb', generation cb, None)
                 ∧ Requests (counts cb') = Requests (counts cb) + 1)
       ∧ (5 ≤ Requests (counts cb) →
          beforeRequest now cb = (cb, generation cb, Some ErrTooManyRequests)))
  ∧ (∀ cb now,
       configured cb → state cb = StateHalfOpen → Requests (counts cb) < 5 →
       0 ≤ ConsecutiveSuccesses (counts cb) ≤ 4 →
       let cb' := (call now true cb).1 in
       (ConsecutiveSuccesses (counts cb) < 4 →
          state cb' = StateHalfOpen
          ∧ ConsecutiveSuccesses (counts cb') = ConsecutiveSuccesses (counts cb) + 1)
       ∧ (ConsecutiveSuccesses (counts cb) = 4 → state cb' = StateClosed))
  ∧ (∀ cb now,
       configured cb → state cb = StateHalfOpen → Requests (counts cb) < 5 →
       let cb' := (call now false cb).1 in
       state cb' = StateOpen ∧ expiry cb' = Some (now + 30 * second)).
Proof.
  split; [exact new_breaker|].
  split; [exact closed_failure|].
  split; [exact closed_success|].
  split; [exact open_rejects|].
  split; [exact open_to_half_open|].
  split; [exact half_open_admission|].
  split; [exact half_open_success|].
  exact half_open_failure.
Qed.

Ltac concrete :=
  first [ reflexivity
        | intros; reflexivity
        | vm_compute; first [reflexivity | discriminate | done]
        | repeat split; first [ reflexivity | intros; reflexivity
                              | vm_compute; first [reflexivity | discriminate] ] ].

Lemma breaker_state_machine_witness :
  state (NewCircuitBreaker redis.breakerSettings 0) = StateClosed
  ∧ state (call 3 false (calls [(1, false); (2, false)]
                           (NewCircuitBreaker redis.breakerSettings 0))).1 = StateClosed
  ∧ state (call 4 false (calls [(1, false); (2, false); (3, false)]
                           (NewCircuitBreaker redis.breakerSettings 0))).1 = StateOpen
  ∧ call (4 + 30 * second) true tripped = (tripped, Some ErrOpenState)
  ∧ state (StateOf (4 + 30 * second + 1) tripped).1 = StateHalfOpen
  ∧ (beforeRequest 0 (with_counts (mkCounts 5 0 0 0 0) probing)).2
    = Some ErrTooManyRequests
  ∧ state (call (4 + 30 * second + 2) true probing).1 = StateHalfOpen
  ∧ state (call (4 + 30 * second + 2) true
             (calls (replicate 4 (4 + 30 * second + 2, true)) probing)).1 = StateClosed
  ∧ state (call (4 + 30 * second + 2) false probing).1 = StateOpen.
Proof.
  destruct breaker_state_machine as (H1 & H2 & H3 & H4 & H5 & H6 & H7 & H8).
  split; [exact (proj1 (H1 0))|].
  split; [refine (proj1 (proj1 (H2 _ 3 minute _ _ _ _ _) _)); concrete|].
  split; [refine (proj1 (proj2 (H2 _ 4 minute _ _ _ _ _) _)); concrete|].
  split; [refine (proj1 (H4 tripped _ (4 + 30 * second) true _ _ _)); concrete|].
  split; [refine (proj1 (H5 tripped _ (4 + 30 * second) _ _ _)); concrete|].
  split; [refine (f_equal snd (proj2 (H6 _ 0 _ _) _)); concrete|].
  split; [refine (proj1 (proj1 (H7 probing _ _ _ _ _) _)); concrete|].
  split; [refine (proj2 (H7 _ _ _ _ _ _) _); concrete|].
  refine (proj1 (H8 probing _ _ _ _)); concrete.
Defined.

End breaker.

(** ** C5: the order of the query parameters *)

Lemma values_named_cons (name seg : string) (segs : list string) :
  values_named name (seg :: segs)
  = match pair_of seg with
    | Some (k, v) =>
        if decide (k = name) then v :: values_named name segs
        else values_named name segs
    | None => values_named name segs
    end.
Proof.
  unfold values_named. cbn. destruct (pair_of seg) as [[k v]|]; [|done].
  by destruct (decide (k = name)).
Qed.

Lemma bad_pair_of (seg : string) : bad seg = true → pair_of seg = None.
Proof.
  unfold bad, pair_of.
  destruct (strings.ContainsByte seg ";"); [done|].
  destruct (bool_decide (seg = EmptyString)); [done|].
  destruct (strings.Cut seg "=") as [[k v] f].
  by destruct (url.QueryUnescape k), (url.QueryUnescape v).
Qed.

Lemma segments_nil (query : string) : segments query = [] → query = EmptyString.
Proof.
  destruct query as [|c r]; [done|]. cbn.
  destruct (Ascii.eqb c "&"); [done|]. by destruct (segments r).
Qed.

Lemma Cut_segments (query : string) :
  query ≠ EmptyString →
  ∃ key rest found,
    strings.Cut query "&" = (key, rest, found)
    ∧ segments query = key :: segments rest
    ∧ (strings.len rest < strings.len query)%nat.
Proof.
  induction query as [|c r IH]; [done|]. intros _. cbn.
  destruct (Ascii.eqb c "&") eqn:Hc.
  - eexists _, _, _. split; [reflexivity|]. split; [done|].
    unfold strings.len; cbn; lia.
  - destruct r as [|d r'].
    + eexists _, _, _. split; [reflexivity|]. split; [done|].
      unfold strings.len; cbn; lia.
    + destruct IH as (key & rest & found & Hcut & Hseg & Hlen); [done|].
      rewrite Hcut, Hseg. eexists _, _, _. split; [reflexivity|].
      split; [done|]. unfold strings.len in *; cbn in *; lia.
Qed.

(** The loop of [parseQuery] has fuel for every query and performs
    [handle] on the segments from left to right. *)
Lemma parseQuery_fuel (fuel : nat) (m : url.Values) (err : option error)
    (query : string) :
  (strings.len query < fuel)%nat →
  url.parseQuery fuel m err query = foldl handle (m, err) (segments query).
Proof.
  revert m err query. induction fuel as [|fuel IH]; intros m err query Hlen; [lia|].
  destruct query as [|c r]; [done|].
  destruct (Cut_segments (String c r)) as (key & rest & found & Hcut & Hseg & Hlt);
    [done|].
  rewrite Hseg. cbn [foldl]. unfold url.parseQuery; fold url.parseQuery.
  rewrite Hcut. cbn [handle].
  assert (strings.len rest < fuel)%nat as Hrest
    by (unfold strings.len in *; cbn in *; lia).
  destruct (strings.ContainsByte key ";"); [by apply IH|].
  destruct (bool_decide (key = EmptyString)); [by apply IH|].
  destruct (strings.Cut key "=") as [[k v] f].
  destruct (url.QueryUnescape k) as [k'|e1]; [|by apply IH].
  destruct (url.QueryUnescape v) as [v'|e1]; by apply IH.
Qed.

Lemma ParseQuery_segments (query : string) :
  url.ParseQuery query = foldl handle (∅, None) (segments query).
Proof. apply parseQuery_fuel. lia. Qed.

Lemma handle_cases (m : url.Values) (err : option error) (seg : string) :
  (bad seg = true ∧ ∃ e, handle (m, err) seg = (m, Some e))
  ∨ (bad seg = false ∧
     handle (m, err) seg
     = (match pair_of seg with
        | Some (k, v) => <[k := default [] (m !! k) ++ [v]]> m
        | None => m
        end, err)).
Proof.
  unfold bad, pair_of, handle.
  destruct (strings.ContainsByte seg ";"); [left; eauto|].
  destruct (bool_decide (seg = EmptyString)); [by right|].
  destruct (strings.Cut seg "=") as [[k v] f].
  destruct (url.QueryUnescape k) as [k'|e1].
  - destruct (url.QueryUnescape v) as [v'|e1]; [by right|].
    left. split; [done|]. destruct err; eauto.
  - left. split; [done|]. destruct err; eauto.
Qed.

(** The query parses exactly when it has no bad segment. *)
Lemma fold_handle_err (segs : list string) (m : url.Values) (err : option error) :
  (foldl handle (m, err) segs).2 = None
  ↔ err = None ∧ Forall (fun seg => bad seg = false) segs.
Proof.
  revert m err. induction segs as [|seg segs IH]; intros m err; cbn [foldl].
  - split; [by intros ?|by intros [? _]].
  - destruct (handle_cases m err seg) as [[Hb [e ->]] | [Hb ->]]; rewrite IH.
    + split; [by intros [? _]|]. intros [_ H]. inversion H; congruence.
    + rewrite Forall_cons. tauto.
Qed.

(** The values collected under a name are those of its parameters, in
    their order, after what the map held before. *)
Lemma fold_handle_lookup (segs : list string) (m : url.Values) (err : option error)
    (name : string) :
  (foldl handle (m, err) segs).1 !! name
  = match values_named name segs with
    | [] => m !! name
    | vs => Some (default [] (m !! name) ++ vs)
    end.
Proof.
  revert m err. induction segs as [|seg segs IH]; intros m err; cbn [foldl].
  - done.
  - rewrite values_named_cons.
    destruct (handle_cases m err seg) as [[Hb [e He]] | [Hb He]]; rewrite He, IH.
    + by rewrite (bad_pair_of _ Hb).
    + destruct (pair_of seg) as [[k v]|]; [|done].
      destruct (decide (k = name)) as [->|Hne].
      * rewrite lookup_insert_eq. cbn.
        destruct (values_named name segs); [done|]. by rewrite <- app_assoc.
      * by rewrite lookup_insert_ne.
Qed.

Lemma values_named_filter (name : string) (segs : list string) :
  values_named name segs
  = values_named name (filter (fun seg => fst <$> pair_of seg = Some name) segs).
Proof.
  induction segs as [|seg segs IH]; [done|].
  rewrite filter_cons, values_named_cons.
  destruct (pair_of seg) as [[k v]|] eqn:Hp; cbn.
  - destruct (decide (k = name)) as [->|Hne].
    + rewrite decide_True by done. rewrite values_named_cons, Hp.
      rewrite decide_True by done. by rewrite IH.
    + rewrite decide_False by congruence. done.
  - rewrite decide_False by done. done.
Qed.

(** The names are sorted before they are used, so the order in which Go
    visits the map does not show. *)
Lemma sort_Strings_perm (names names' : list string) :
  names ≡ₚ names' → sort.Strings names = sort.Strings names'.
Proof.
  intros Hp. unfold sort.Strings.
  apply (Sorted_unique String.le); try apply Sorted_merge_sort; try apply _.
  by rewrite !merge_sort_Permutation.
Qed.

Lemma ParseQuery_params (query : string) (name : string) :
  (url.ParseQuery query).1 !! name
  = match values_named name (named name query) with
    | [] => None
    | vs => Some vs
    end.
Proof.
  rewrite ParseQuery_segments, fold_handle_lookup, lookup_empty.
  unfold named. by rewrite <- values_named_filter.
Qed.

Lemma ParseQuery_ok (query : string) :
  (url.ParseQuery query).2 = None ↔ Forall (fun seg => bad seg = false) (segments query).
Proof. rewrite ParseQuery_segments, fold_handle_err. tauto. Qed.


(** The values of one name keep their order, so exchanging two parameters
    of the same name changes the key as well. *)
Example same_name_order_shows :
  segments "a=1&a=2" ≡ₚ segments "a=2&a=1"
  ∧ keygen.GenerateCacheKey "GET" "/users" "a=1&a=2" = "api:response:GET:/users?a=1&a=2"
  ∧ keygen.GenerateCacheKey "GET" "/users" "a=2&a=1" = "api:response:GET:/users?a=2&a=1".
Proof. split; [apply perm_swap|]. split; vm_compute; reflexivity. Qed.

(** Two queries that parse and hold the same parameters, those of one name
    in the same order, give the same key. *)
Lemma keys_agree (method path query1 query2 : string) :
  (url.ParseQuery query1).2 = None →
  segments query1 ≡ₚ segments query2 →
  (∀ name, named name query1 = named name query2) →
  keygen.GenerateCacheKey method path query1
  = keygen.GenerateCacheKey method path query2.
Proof.
  intros Hok Hperm Hnamed.
  assert ((url.ParseQuery query2).2 = None) as Hok2.
  { apply ParseQuery_ok. rewrite <- Hperm. by apply ParseQuery_ok. }
  assert ((url.ParseQuery query1).1 = (url.ParseQuery query2).1) as Hm.
  { apply map_eq. intros name. by rewrite !ParseQuery_params, Hnamed. }
  assert (bool_decide (query1 = EmptyString) = bool_decide (query2 = EmptyString)) as He.
  { apply bool_decide_ext. split; intros ->.
    - apply segments_nil. symmetry in Hperm. by apply Permutation_nil_r in Hperm.
    - apply segments_nil. by apply Permutation_nil_r in Hperm. }
  unfold keygen.GenerateCacheKey, keygen.sortQueryParams. rewrite He.
  destruct (url.ParseQuery query1) as [m1 e1], (url.ParseQuery query2) as [m2 e2].
  cbn in *. by subst.
Qed.



(** When no name occurs twice, every reordering gives the same key. *)
Corollary query_order_independent_distinct (method path query1 query2 : string) :
  (url.ParseQuery query1).2 = None →
  segments query1 ≡ₚ segments query2 →
  (∀ name, length (named name query1) ≤ 1)%nat →
  keygen.GenerateCacheKey method path query1
  = keygen.GenerateCacheKey method path query2.
Proof.
  intros Hok Hperm Hone. apply keys_agree; [done..|].
  intros name. specialize (Hone name). unfold named in *.
  assert (filter (fun seg => fst <$> pair_of seg = Some name) (segments query1)
          ≡ₚ filter (fun seg => fst <$> pair_of seg = Some name) (segments query2))
    as Hf by (by rewrite Hperm).
  destruct (filter _ (segments query1)) as [|x [|y l]]; cbn in Hone; [| |lia].
  - by apply Permutation_nil_l in Hf.
  - by apply Permutation_singleton_l in Hf.
Qed.

(** ** The session cache *)

Section session.
Import service.

Lemma Sprintf_session_key (userID : string) :
  fmt.Sprintf "session:user:%s" [AStr userID] = "session:user:" +:+ userID.
Proof. cbn. by rewrite app_empty_r. Qed.

Lemma set_heap_id (w : World) : set_heap (heap w) w = w.
Proof. by destruct w. Qed.

(** [IsAvailable] only advances the breaker behind [redisCB]. *)
Lemma IsAvailable_run (w : World) :
  (∀ q, redis_redisCB w = Some q → is_Some (heap w !! q)) →
  ∃ b h, redis.IsAvailable w = Done b (set_heap h w) ∧ dom h = dom (heap w).
Proof.
  intros Hcb. unfold redis.IsAvailable, redis.breakerState, redis.load, redis.store. run.
  destruct (redis_redisAvailable w =? 0).
  { exists false, (heap w). by rewrite set_heap_id. }
  destruct (redis_redisCB w) as [q|] eqn:Hq.
  2: { exists true, (heap w). by rewrite set_heap_id. }
  destruct (Hcb q eq_refl) as [cb Hl]. rewrite Hl.
  destruct (gobreaker.StateOf (clock w) cb) as [cb' st]. cbn.
  assert (dom (<[q:=cb']> (heap w)) = dom (heap w)) as Hd.
  { rewrite dom_insert_L. apply subseteq_union_1_L, singleton_subseteq_l.
    by apply elem_of_dom_2 in Hl. }
  destruct (decide (st = gobreaker.StateOpen)); eexists _, _; split; done.
Qed.

Lemma heap_lookup_dom (h h' : gmap ptr gobreaker.CircuitBreaker) (p : ptr) :
  dom h = dom h' → is_Some (h' !! p) → is_Some (h !! p).
Proof. intros Hd Hp. apply elem_of_dom. rewrite Hd. by apply elem_of_dom. Qed.

Local Arguments gobreaker.beforeRequest : simpl never.
Local Arguments gobreaker.afterRequest : simpl never.
Local Arguments gobreaker.StateOf : simpl never.

(** [Execute] asks the breaker, runs an admitted request on the world with
    the breaker updated, and accounts for its result. *)
Lemma Execute_run (p : ptr) (cb : gobreaker.CircuitBreaker) (fn : M (res any))
    (w : World) :
  heap w !! p = Some cb →
  redis.Execute (Some p) fn w
  = let '(cb', gen, err) := gobreaker.beforeRequest (clock w) cb in
    let w1 := set_heap (<[p := cb']> (heap w)) w in
    match err with
    | Some e => Done (ANil, Some e) w1
    | None =>
        match fn w1 with
        | Done (result, err) w2 =>
            match heap w2 !! p with
            | Some cb2 =>
                Done (result, err)
                  (set_heap (<[p := gobreaker.afterRequest (clock w2) gen
                                      (bool_decide (err = None)) cb2]> (heap w2)) w2)
            | None => Panic nil_deref
            end
        | Panic msg => Panic msg
        end
    end.
Proof.
  intros Hl. unfold redis.Execute, redis.load, redis.store. run. rewrite Hl.
  destruct (gobreaker.beforeRequest (clock w) cb) as [[cb' gen] [e|]]; [done|].
  cbn. destruct (fn _) as [[result err] w2|]; [|done].
  by destruct (heap w2 !! p).
Qed.

(** The read of the session key: a transport failure and an absent or
    expired key are both reported as a miss. *)
Lemma getFn_run (s : sessionService) (r : redis.RedisClient) (c : goredis_Client)
    (userID : string) (w : World) :
  redisClient s = Some r → redis.client r = Some c →
  getFn s userID w
  = Done (match faults w, payload w userID with
          | Some _ :: _, _ => (ANil, Some ErrCacheMiss)
          | _, Some data => (ABytes data, None)
          | _, None => (ANil, Some ErrCacheMiss)
          end)
         (set_net (keyspace w) (tail (faults w))
                  (wire w ++ [server.CmdGet ("session:user:" +:+ userID)]) w).
Proof.
  intros Hr Hc. unfold getFn, redis.GetClient, goredis.Get, goredis.roundtrip, payload.
  rewrite Hr, Hc, Sprintf_session_key. run.
  destruct (faults w) as [|[e|] fs]; cbn.
  - by destruct (server.lookup_live _ _ _).
  - by destruct (errors.Is e RedisNil).
  - by destruct (server.lookup_live _ _ _).
Qed.


Example NewRedisClient_healthy (ks : server.Keyspace) (ent : list (string + error)) :
  redis.NewRedisClient (redis.mkRedisConfig "localhost" 6379 0 true)
    (mkWorld None 0 None 30 ∅ 0 ks [] [] ent)
  = Done (Some facade0, None) (healthy ks [] ent).
Proof. reflexivity. Qed.

Lemma well_formed_healthy ks fs ent : well_formed sessions0 (healthy ks fs ent).
Proof.
  split.
  - intros q [= <-]. by eexists.
  - intros r [= <-]. split; [by eexists|]. exists 0%nat. split; [done|]. by eexists.
Qed.



End session.

(** ** The JSON encoding of a session record round-trips *)

Section json_round_trip.

Lemma ascii_lt_128 (c : ascii) :
  (nat_of_ascii c <? 128)%nat = true →
  ∃ b0 b1 b2 b3 b4 b5 b6, c = Ascii b0 b1 b2 b3 b4 b5 b6 false.
Proof.
  destruct c as [b0 b1 b2 b3 b4 b5 b6 []]; [|by eauto 10].
  destruct b0, b1, b2, b3, b4, b5, b6; discriminate.
Qed.

Lemma ascii_ge_128 (c : ascii) :
  (nat_of_ascii c <? 128)%nat = false →
  Ascii.eqb c json.dq = false ∧ Ascii.eqb c json.backslash = false
  ∧ (nat_of_ascii c <? 32)%nat = false.
Proof.
  destruct c as [b0 b1 b2 b3 b4 b5 b6 []].
  - intros _. destruct b0, b1, b2, b3, b4, b5, b6; done.
  - destruct b0, b1, b2, b3, b4, b5, b6; discriminate.
Qed.

(** An ASCII byte is decoded from what the encoder writes for it. *)
Lemma unquote_ascii (c : ascii) (r : string) (t : string) (res : option (string * string)) :
  (nat_of_ascii c <? 128)%nat = true →
  json.unquote O t = res →
  json.unquote O
    ((if json.htmlSafe (nat_of_ascii c) then String c EmptyString
      else json.escape_ascii c) +:+ t)
  = json.cons_fst c <$> res.
Proof.
  intros (b0 & b1 & b2 & b3 & b4 & b5 & b6 & ->)%ascii_lt_128 <-.
  destruct b0, b1, b2, b3, b4, b5, b6; reflexivity.
Qed.

Lemma take_appendString (k : nat) (r t : string) :
  (k ≤ strings.len r)%nat →
  strings.take k (json.appendString k r +:+ t) = strings.take k r.
Proof.
  revert r. induction k as [|k IH]; intros r Hk; [by destruct r, (_ +:+ _)|].
  destruct r as [|c r]; [unfold strings.len in Hk; cbn in Hk; lia|].
  cbn [json.appendString]. rewrite app_cons. cbn [strings.take].
  rewrite IH; [done|]. unfold strings.len in *. cbn in Hk. lia.
Qed.

(** The length of a rune is read off its first bytes. *)
Lemma utf8_size_take (c : ascii) (r : string) (k : nat) :
  (nat_of_ascii c <? 128)%nat = false →
  json.utf8_size (String c r) = S k →
  (k ≤ strings.len r)%nat
  ∧ ∀ r', strings.take k r' = strings.take k r → json.utf8_size (String c r') = S k.
Proof.
  intros Hge. unfold json.utf8_size, strings.len. rewrite Hge.
  destruct (json.between 194 (nat_of_ascii c) 223).
  { destruct r as [|c1 r]; [done|]. destruct (json.cont c1) eqn:H1; [|done].
    intros [= <-]. split; [cbn; lia|].
    intros [|c1' r'] [=]; subst. by rewrite H1. }
  destruct (json.between 224 (nat_of_ascii c) 239).
  { destruct r as [|c1 [|c2 r]]; [done..|].
    destruct (json.between _ (nat_of_ascii c1) _ && json.cont c2) eqn:H1; [|done].
    intros [= <-]. split; [cbn; lia|].
    intros [|c1' [|c2' r']] [=]; subst. by rewrite H1. }
  destruct (json.between 240 (nat_of_ascii c) 244); [|done].
  destruct r as [|c1 [|c2 [|c3 r]]]; [done..|].
  destruct (json.between _ (nat_of_ascii c1) _ && json.cont c2 && json.cont c3) eqn:H1;
    [|done].
  intros [= <-]. split; [cbn; lia|].
  intros [|c1' [|c2' [|c3' r']]] [=]; subst. by rewrite H1.
Qed.

Lemma fmap_cons_fst (c : ascii) (s t : string) :
  json.cons_fst c <$> Some (s, t) = Some (String c s, t).
Proof. done. Qed.

(** What the encoder writes for a valid string, followed by a closing
    quote, is decoded to the string. *)
Lemma unquote_appendString (n : nat) :
  ∀ (s : string) (copy : nat) (rest : string),
    (strings.len s ≤ n)%nat →
    wellformed copy s = true →
    json.unquote copy (json.appendString copy s +:+ String json.dq rest)
    = Some (s, rest).
Proof.
  induction n as [|n IH]; intros s copy rest Hlen Hwf.
  { destruct s; [|unfold strings.len in Hlen; cbn in Hlen; lia].
    destruct copy; [done|]. cbn in Hwf. by apply bool_decide_eq_true in Hwf. }
  destruct s as [|c r].
  { destruct copy; [done|]. cbn in Hwf. by apply bool_decide_eq_true in Hwf. }
  assert (strings.len r ≤ n)%nat as Hr by (unfold strings.len in *; cbn in Hlen; lia).
  destruct copy as [|k].
  2: { cbn [json.appendString]. rewrite app_cons. cbn [json.unquote].
       rewrite IH by done. done. }
  cbn [wellformed] in Hwf. cbn [json.appendString].
  destruct (nat_of_ascii c <? 128)%nat eqn:Hc.
  { rewrite <- (app_empty_l (json.appendString O r)) at 1.
    assert (∀ t, (if json.htmlSafe (nat_of_ascii c)
             then String c (json.appendString O r)
             else json.escape_ascii c +:+ json.appendString O r) +:+ t
            = (if json.htmlSafe (nat_of_ascii c) then String c EmptyString
               else json.escape_ascii c) +:+ (json.appendString O r +:+ t)) as ->.
    { intros t. destruct (json.htmlSafe _); [done|]. by rewrite app_assoc_s. }
    rewrite (unquote_ascii c r _ (Some (r, rest))); [done..|]. by apply IH. }
  destruct (json.utf8_size (String c r)) as [|k] eqn:Hsz; [done|].
  destruct (utf8_size_take c r k Hc Hsz) as [Hk Hsame].
  destruct (ascii_ge_128 c Hc) as (Hq & Hb & H32).
  assert (json.unquote O (String c (json.appendString k r) +:+ String json.dq rest)
          = Some (String c r, rest)) as Hraw.
  { rewrite app_cons. cbn [json.unquote]. rewrite Hq, Hb, H32, Hc.
    rewrite (Hsame _ (take_appendString k r _ Hk)).
    by rewrite IH. }
  destruct r as [|c1 [|c2 r2]]; [done..|].
  destruct (json.is_line_sep c c1 c2) eqn:Hsep; [|done].
  unfold json.is_line_sep in Hsep.
  apply andb_true_iff in Hsep as [[->%Ascii.eqb_eq ->%Ascii.eqb_eq]%andb_true_iff Hc2].
  assert (strings.len r2 ≤ n)%nat as Hr2 by (unfold strings.len in *; cbn in Hr; lia).
  apply orb_true_iff in Hc2 as [->%Ascii.eqb_eq | ->%Ascii.eqb_eq].
  - cbn in Hsz. injection Hsz as <-. cbn in Hwf.
    rewrite !app_cons, app_empty_l, app_cons. cbn.
    by rewrite (IH r2 O rest Hr2 Hwf).
  - cbn in Hsz. injection Hsz as <-. cbn in Hwf.
    rewrite !app_cons, app_empty_l, app_cons. cbn.
    by rewrite (IH r2 O rest Hr2 Hwf).
Qed.

Lemma unquote_quote (s rest : string) :
  ValidString s →
  json.unquote O (json.appendString O s +:+ String json.dq rest) = Some (s, rest).
Proof. intros H. by apply (unquote_appendString (strings.len s)). Qed.

(** *** Numbers *)

Lemma digits_S (fuel : nat) (n : Z) (acc : string) :
  strconv.digits (S fuel) n acc
  = if n / 10 =? 0 then String (strconv.digit (n mod 10)) acc
    else strconv.digits fuel (n / 10) (String (strconv.digit (n mod 10)) acc).
Proof. reflexivity. Qed.

Lemma digits_acc (fuel : nat) (n : Z) (acc : string) :
  strconv.digits fuel n acc = strconv.digits fuel n EmptyString +:+ acc.
Proof.
  revert n acc. induction fuel as [|fuel IH]; intros n acc; [done|].
  rewrite !digits_S. destruct (n / 10 =? 0); [done|].
  rewrite IH, (IH _ (String _ EmptyString)). by rewrite app_assoc_s.
Qed.

Lemma all_digits_app (s t : string) :
  strconv.all_digits (s +:+ t) = strconv.all_digits s && strconv.all_digits t.
Proof.
  induction s as [|c s IH]; [done|]. rewrite app_cons. cbn. by rewrite IH, andb_assoc.
Qed.

Lemma value_of_app (a : Z) (s t : string) :
  strconv.value_of a (s +:+ t) = strconv.value_of (strconv.value_of a s) t.
Proof.
  revert a. induction s as [|c s IH]; intros a; [done|]. rewrite app_cons. cbn. apply IH.
Qed.

Lemma digit_spec (m : Z) :
  0 ≤ m < 10 →
  strconv.is_digit (strconv.digit m) = true
  ∧ Z.of_nat (nat_of_ascii (strconv.digit m)) - 48 = m
  ∧ (0 < m → Ascii.eqb (strconv.digit m) "0" = false).
Proof.
  intros Hm.
  assert (m = 0 ∨ m = 1 ∨ m = 2 ∨ m = 3 ∨ m = 4 ∨ m = 5 ∨ m = 6 ∨ m = 7 ∨ m = 8 ∨ m = 9)
    as Hc by lia.
  destruct Hc as [->|[->|[->|[->|[->|[->|[->|[->|[->| ->]]]]]]]]];
    (split; [reflexivity|split; [reflexivity|]]); intros; first [lia|reflexivity].
Qed.

(** The decimal digits of a natural number below [10 ^ (S fuel)]: digits
    only, denoting the number, without a leading zero. *)
Lemma digits_spec (fuel : nat) :
  ∀ n, 0 ≤ n < 10 ^ Z.of_nat (S fuel) →
    ∃ c t, strconv.digits (S fuel) n EmptyString = String c t
           ∧ strconv.all_digits (String c t) = true
           ∧ strconv.value_of 0 (String c t) = n
           ∧ (0 < n → Ascii.eqb c "0" = false)
           ∧ (n = 0 → t = EmptyString).
Proof.
  induction fuel as [|fuel IH]; intros n Hn.
  - change (10 ^ Z.of_nat 1) with 10 in Hn.
    rewrite digits_S. assert (n / 10 = 0) as -> by (apply Z.div_small; lia).
    destruct (digit_spec (n mod 10)) as (Hd & Hv & Hz); [by rewrite Z.mod_small|].
    rewrite Z.mod_small in * by lia.
    eexists _, _. split; [reflexivity|]. cbn. rewrite Hd.
    split; [done|]. split; [lia|]. by split.
  - rewrite digits_S. destruct (n / 10 =? 0) eqn:Hq.
    + assert (n < 10) by (apply Z.eqb_eq in Hq; apply Z.div_small_iff in Hq; lia).
      destruct (digit_spec (n mod 10)) as (Hd & Hv & Hz);
        [apply Z.mod_pos_bound; lia|].
      rewrite Z.mod_small in * by lia.
      eexists _, _. split; [reflexivity|]. cbn. rewrite Hd.
      split; [done|]. split; [lia|]. by split.
    + apply Z.eqb_neq in Hq.
      assert (0 ≤ n / 10 < 10 ^ Z.of_nat (S fuel)) as Hn'.
      { split; [apply Z.div_pos; lia|]. apply Z.div_lt_upper_bound; [lia|].
        rewrite <- Z.pow_succ_r by lia. rewrite <- Nat2Z.inj_succ. lia. }
      destruct (IH _ Hn') as (c & t & Hds & Hall & Hval & Hlead & _).
      destruct (digit_spec (n mod 10)) as (Hd & Hv & Hz);
        [apply Z.mod_pos_bound; lia|].
      rewrite digits_acc, Hds, app_cons.
      eexists _, _. split; [reflexivity|].
      rewrite <- app_cons, all_digits_app, value_of_app, Hall, Hval.
      cbn. rewrite Hd, Hv.
      split; [done|]. split; [pose proof (Z.div_mod n 10); lia|].
      split; [intros _; apply Hlead; lia|]. intros ->. done.
Qed.

Lemma span_digits_app (ds : string) (c : ascii) (rest : string) :
  strconv.all_digits ds = true → strconv.is_digit c = false →
  json.span_digits (ds +:+ String c rest) = (ds, String c rest).
Proof.
  intros Hds Hc. induction ds as [|d ds IH]; [by rewrite app_empty_l; cbn; rewrite Hc|].
  cbn in Hds. apply andb_true_iff in Hds as [Hd Hds].
  rewrite app_cons. cbn. by rewrite Hd, IH.
Qed.

Lemma is_digit_not_minus (c : ascii) :
  strconv.is_digit c = true → Ascii.eqb c "-" = false.
Proof. destruct c as [[] [] [] [] [] [] [] []]; done. Qed.

(** A formatted 64-bit integer is parsed as a number literal, up to the
    byte after it, and denotes the integer. *)
Lemma number_FormatInt (n : Z) (rest : string) :
  int64 n →
  json.number (strconv.FormatInt n +:+ String "}" rest)
  = Some (strconv.FormatInt n, String "}" rest)
  ∧ strconv.ParseInt (strconv.FormatInt n) = Some n
  ∧ ∃ c t, strconv.FormatInt n = String c t
           ∧ (strconv.is_digit c || Ascii.eqb c "-") = true.
Proof.
  intros Hn. unfold strconv.FormatInt, json.number, strconv.ParseInt.
  destruct (n <? 0) eqn:Hneg.
  - destruct (digits_spec 19 (- n)) as (c & t & Hds & Hall & Hval & Hlead & Hz);
      [unfold int64 in Hn; lia|].
    rewrite Hds, app_cons. cbn [Ascii.eqb Bool.eqb andb].
    rewrite span_digits_app by done.
    rewrite Hall, Hval, (Hlead ltac:(lia)).
    rewrite bool_decide_eq_false_2 by done. cbn.
    assert ((- 2 ^ 63 <=? - - n) && (- - n <? 2 ^ 63) = true) as Hr
      by (unfold int64 in Hn; lia).
    destruct t; cbn; rewrite Hr, Z.opp_involutive, ?app_empty_r;
      (split; [done|split; [done|by eexists _, _]]).
  - destruct (digits_spec 19 n) as (c & t & Hds & Hall & Hval & Hlead & Hz);
      [unfold int64 in Hn; lia|].
    pose proof Hall as Hc. cbn in Hc. apply andb_true_iff in Hc as [Hc _].
    rewrite Hds, app_cons, (is_digit_not_minus c Hc).
    rewrite <- app_cons, span_digits_app by done.
    rewrite Hall, Hval.
    rewrite bool_decide_eq_false_2 by done.
    assert (match t with "" => false | String _ _ => Ascii.eqb c "0" end = false) as Hlz.
    { destruct t; [done|]. apply Hlead. destruct (decide (n = 0)) as [->|]; [|lia].
      by specialize (Hz eq_refl). }
    rewrite Hlz. cbn.
    assert ((- 2 ^ 63 <=? n) && (n <? 2 ^ 63) = true) as ->
      by (unfold int64 in Hn; lia).
    rewrite ?app_empty_r.
    split; [done|split; [done|]]. eexists _, _. split; [done|]. by rewrite Hc.
Qed.

(** *** Values and members *)

Lemma parse_value_string (fuel : nat) (s rest : string) :
  ValidString s →
  json.parse_value (S fuel)
    (String json.dq (json.appendString O s +:+ String json.dq rest))
  = Some (json.Str s, rest).
Proof. intros Hs. cbn. by rewrite unquote_quote. Qed.

Lemma parse_value_number_start (fuel : nat) (c : ascii) (r : string) :
  (strconv.is_digit c || Ascii.eqb c "-") = true →
  json.parse_value (S fuel) (String c r)
  = '(lit, r') ← json.number (String c r); Some (json.Number lit, r').
Proof. destruct c as [[] [] [] [] [] [] [] []]; try discriminate; reflexivity. Qed.

Lemma parse_value_number (fuel : nat) (n : Z) (rest : string) :
  int64 n →
  json.parse_value (S fuel) (strconv.FormatInt n +:+ String "}" rest)
  = Some (json.Number (strconv.FormatInt n), String "}" rest).
Proof.
  intros Hn. destruct (number_FormatInt n rest Hn) as (Hnum & _ & c & t & Hf & Hc).
  rewrite Hf, app_cons, parse_value_number_start by done.
  rewrite <- app_cons, <- Hf, Hnum. done.
Qed.

Lemma parse_value_bool (fuel : nat) (b : bool) (rest : string) :
  json.parse_value (S fuel) (service.show_bool b +:+ rest) = Some (json.Bool b, rest).
Proof. by destruct b. Qed.

(** One member of an object, when its name needs no escape and its value
    is followed by a comma or by the closing brace. *)
Lemma parse_members_comma (fuel : nat) (key val : string) (v : json.value)
    (rest : string) :
  (∀ t, json.unquote O (key +:+ String json.dq t) = Some (key, t)) →
  json.parse_value fuel val = Some (v, String "," rest) →
  json.parse_members (S fuel) (service.member key val)
  = '(ms, r) ← json.parse_members fuel rest; Some ((key, v) :: ms, r).
Proof.
  intros Hkey Hval. unfold service.member. cbn. rewrite Hkey. cbn. by rewrite Hval.
Qed.

Lemma parse_members_last (fuel : nat) (key val : string) (v : json.value)
    (rest : string) :
  (∀ t, json.unquote O (key +:+ String json.dq t) = Some (key, t)) →
  json.parse_value fuel val = Some (v, String "}" rest) →
  json.parse_members (S fuel) (service.member key val) = Some ([(key, v)], rest).
Proof.
  intros Hkey Hval. unfold service.member. cbn. rewrite Hkey. cbn. by rewrite Hval.
Qed.

Lemma member_app (key val t : string) :
  service.member key val +:+ t = service.member key (val +:+ t).
Proof. unfold service.member. by rewrite !app_cons, app_assoc_s, !app_cons. Qed.

Lemma quote_app (s t : string) :
  json.quote s +:+ t = String json.dq (json.appendString O s +:+ String json.dq t).
Proof. unfold json.quote. by rewrite !app_cons, app_assoc_s, app_cons. Qed.

Lemma parse_object_start (fuel : nat) (key val : string) :
  json.parse_value (S fuel) (String "{" (service.member key val))
  = '(ms, r) ← json.parse_members fuel (service.member key val);
    Some (json.Object ms, r).
Proof. reflexivity. Qed.

Lemma len_member (key val : string) : (3 ≤ strings.len (service.member key val))%nat.
Proof.
  unfold service.member, strings.len. cbn. rewrite <- Nat.succ_le_mono.
  change (String.length (key +:+ String json.dq (String ":" val)))
    with (strings.len (key +:+ String json.dq (String ":" val))).
  rewrite len_app. unfold strings.len. cbn. lia.
Qed.

(** Decoding what [json.Marshal] produced for a session record gives the
    record back. *)
Lemma json_round_trip (d : service.SessionData) :
  ValidSession d →
  service.json_Unmarshal (service.json_Marshal d).1 = (d, None).
Proof.
  intros (Hid & Hname & Hemail & Hrole & Hsid & Hat).
  destruct d as [id name email role verified sid created]. cbn in Hid, Hname, Hemail, Hrole, Hsid, Hat.
  unfold service.json_Unmarshal, json.parse, service.json_Marshal.
  cbn [fst service.ID service.Name service.Email service.Role service.VerifiedEmail
       service.SessionID service.CreatedAt].
  rewrite !member_app, !quote_app.
  rewrite !app_cons, !app_empty_l.
  match goal with
  | |- context [json.parse_value ?f _] =>
      assert (∃ k, f = (9 + k)%nat) as [k ->]
  end.
  { match goal with
    | |- context [strings.len (String "{" (service.member ?key ?val))] =>
        pose proof (len_member key val) as Hl;
        change (strings.len (String "{" (service.member key val)))
          with (S (strings.len (service.member key val)));
        exists (2 * S (strings.len (service.member key val)) + 2 - 9)%nat
    end.
    lia. }
  cbn [Nat.add].
  rewrite parse_object_start.
  erewrite (parse_members_comma _ "id" _ (json.Str id));
    [|intros; reflexivity|by apply parse_value_string].
  erewrite (parse_members_comma _ "name" _ (json.Str name));
    [|intros; reflexivity|by apply parse_value_string].
  erewrite (parse_members_comma _ "email" _ (json.Str email));
    [|intros; reflexivity|by apply parse_value_string].
  erewrite (parse_members_comma _ "role" _ (json.Str role));
    [|intros; reflexivity|by apply parse_value_string].
  erewrite (parse_members_comma _ "verified_email" _
             (json.Bool verified));
    [|intros; reflexivity|by apply parse_value_bool].
  erewrite (parse_members_comma _ "session_id" _ (json.Str sid));
    [|intros; reflexivity|by apply parse_value_string].
  erewrite (parse_members_last _ "created_at" _
             (json.Number (strconv.FormatInt created)));
    [|intros; reflexivity|by apply parse_value_number].
  destruct (number_FormatInt created EmptyString Hat) as (_ & Hparse & _).
  cbn. rewrite bool_decide_eq_true_2 by done.
  lazy -[strconv.ParseInt strconv.FormatInt]. by rewrite Hparse.
Qed.

(** *** The session token *)

Lemma all_ascii_valid (s : string) : all_ascii s = true → ValidString s.
Proof.
  unfold ValidString. induction s as [|c r IH]; [done|]. cbn [all_ascii wellformed].
  intros [-> Hr]%andb_true_iff. by apply IH.
Qed.

Lemma encodeURL_ascii (n : nat) :
  (nat_of_ascii (base64.encodeURL n) <? 128)%nat = true.
Proof.
  unfold base64.encodeURL.
  destruct (Nat.ltb_spec n 26);
    [rewrite nat_ascii_embedding by lia; apply Nat.ltb_lt; lia|].
  destruct (Nat.ltb_spec n 52);
    [rewrite nat_ascii_embedding by lia; apply Nat.ltb_lt; lia|].
  destruct (Nat.ltb_spec n 62);
    [rewrite nat_ascii_embedding by lia; apply Nat.ltb_lt; lia|].
  by destruct (n =? 62)%nat.
Qed.

(** The token is made of the 64 characters of the alphabet and of the
    padding character, and is empty only for an empty input. *)
Lemma EncodeToString_ascii (n : nat) :
  ∀ src, (strings.len src ≤ n)%nat → all_ascii (base64.EncodeToString src) = true.
Proof.
  induction n as [n IH] using lt_wf_ind. intros src Hlen.
  destruct src as [|a [|b [|c rest]]]; cbn [base64.EncodeToString all_ascii].
  - done.
  - by rewrite !encodeURL_ascii.
  - by rewrite !encodeURL_ascii.
  - rewrite !encodeURL_ascii. cbn [andb].
    apply (IH (strings.len rest)); [|done]. unfold strings.len in *. cbn in Hlen. lia.
Qed.

Lemma EncodeToString_nonempty (src : string) :
  src ≠ EmptyString → base64.EncodeToString src ≠ EmptyString.
Proof. by destruct src as [|a [|b [|c rest]]]. Qed.

Lemma take_nonempty (n : nat) (s : string) :
  (0 < n)%nat → (n ≤ strings.len s)%nat → strings.take n s ≠ EmptyString.
Proof.
  destruct n; [lia|]. destruct s; [unfold strings.len; cbn; lia|done].
Qed.

End json_round_trip.

(** ** C1: the round trip of the session cache *)

Section round_trip.
Import service.

Local Arguments gobreaker.beforeRequest : simpl never.
Local Arguments gobreaker.afterRequest : simpl never.
Local Arguments gobreaker.StateOf : simpl never.
Local Arguments json_Marshal : simpl never.
Local Arguments json_Unmarshal : simpl never.
Local Arguments base64.EncodeToString : simpl never.

Lemma currentState_closed (now : Z) (cb : gobreaker.CircuitBreaker) :
  gobreaker.state cb = gobreaker.StateClosed →
  ∃ cb' gen, gobreaker.currentState now cb = (cb', gobreaker.StateClosed, gen)
             ∧ gobreaker.state cb' = gobreaker.StateClosed.
Proof.
  intros Hs. unfold gobreaker.currentState. rewrite Hs.
  destruct (_ && _).
  - eexists _, _. unfold gobreaker.toNewGeneration. rewrite Hs. cbn. split; reflexivity.
  - eexists _, _. rewrite Hs. by split.
Qed.

Lemma StateOf_closed (now : Z) (cb : gobreaker.CircuitBreaker) :
  gobreaker.state cb = gobreaker.StateClosed →
  ∃ cb', gobreaker.StateOf now cb = (cb', gobreaker.StateClosed)
         ∧ gobreaker.state cb' = gobreaker.StateClosed.
Proof.
  intros Hs. unfold gobreaker.StateOf.
  destruct (currentState_closed now cb Hs) as (cb' & g & -> & Hs'). eauto.
Qed.

Lemma beforeRequest_closed (now : Z) (cb : gobreaker.CircuitBreaker) :
  gobreaker.state cb = gobreaker.StateClosed →
  ∃ cb' gen, gobreaker.beforeRequest now cb = (cb', gen, None)
             ∧ gobreaker.state cb' = gobreaker.StateClosed.
Proof.
  intros Hs. unfold gobreaker.beforeRequest.
  destruct (currentState_closed now cb Hs) as (cb' & g & -> & Hs').
  rewrite decide_False by done. rewrite bool_decide_eq_false_2 by done.
  cbn. eexists _, _. split; [reflexivity|]. done.
Qed.

Lemma afterRequest_closed (now gen : Z) (cb : gobreaker.CircuitBreaker) :
  gobreaker.state cb = gobreaker.StateClosed →
  gobreaker.state (gobreaker.afterRequest now gen true cb) = gobreaker.StateClosed.
Proof.
  intros Hs. unfold gobreaker.afterRequest.
  destruct (currentState_closed now cb Hs) as (cb' & g & -> & Hs').
  by destruct (negb _).
Qed.

Lemma IsAvailable_closed (w : World) (p : ptr) (cb : gobreaker.CircuitBreaker) :
  redis_redisAvailable w ≠ 0 → redis_redisCB w = Some p →
  heap w !! p = Some cb → gobreaker.state cb = gobreaker.StateClosed →
  ∃ cb', redis.IsAvailable w = Done true (set_heap (<[p := cb']> (heap w)) w)
         ∧ gobreaker.state cb' = gobreaker.StateClosed.
Proof.
  intros Hflag Hcb Hl Hs.
  unfold redis.IsAvailable, redis.breakerState, redis.load, redis.store. run.
  rewrite (proj2 (Z.eqb_neq _ _) Hflag), Hcb, Hl.
  destruct (StateOf_closed (clock w) cb Hs) as (cb' & -> & Hs').
  cbn. rewrite decide_False by done. eauto.
Qed.

Lemma wrap64_small (z : Z) : int64 z → wrap64 z = z.
Proof. unfold int64, wrap64. intros H. rewrite Z.mod_small; lia. Qed.

(** The write of the session key under a sound transport. *)
Lemma cacheFn_run (s : sessionService) (r : redis.RedisClient) (c : goredis_Client)
    (userID serialized : string) (w : World) :
  redisClient s = Some r → redis.client r = Some c → faults w = [] →
  10 ≤ config_SessionCacheTTL w ≤ 120 →
  cacheFn s userID serialized w
  = Done (ANil, None)
      (set_net (<["session:user:" +:+ userID :=
                    server.mkEntry serialized
                      (Some (clock w + config_SessionCacheTTL w * gobreaker.minute))]>
                  (keyspace w)) []
               (wire w ++ [server.CmdSet ("session:user:" +:+ userID) serialized
                             (config_SessionCacheTTL w * gobreaker.minute)]) w).
Proof.
  intros Hr Hc Hf Httl.
  unfold cacheFn, redis.GetClient, goredis.Set_, goredis.roundtrip.
  rewrite Hr, Hc, Sprintf_session_key. run. rewrite Hf.
  rewrite wrap64_small by (unfold int64, gobreaker.minute, gobreaker.second; lia).
  cbn.
  assert ((0 <? config_SessionCacheTTL w * gobreaker.minute) = true) as ->
    by (unfold gobreaker.minute, gobreaker.second; lia).
  done.
Qed.

Lemma payload_set_heap (h : gmap ptr gobreaker.CircuitBreaker) (w : World)
    (userID : string) :
  payload (set_heap h w) userID = payload w userID.
Proof. reflexivity. Qed.

(** A hit: the store is available and holds a payload that decodes. *)
Lemma GetUserSession_hit (s : sessionService) (userID data : string)
    (sd : SessionData) (w : World) :
  available s w → payload w userID = Some data → json_Unmarshal data = (sd, None) →
  ∃ w', GetUserSession s userID w = Done (Some sd, None) w'.
Proof.
  intros (r & c & p & cb & Hr & Hc & Hp & Hcb & Hl & Hs & Hflag & Hf) Hpay Hj.
  unfold GetUserSession. run.
  destruct (IsAvailable_closed w p cb Hflag Hcb Hl Hs) as (cb1 & -> & Hs1).
  cbn [negb]. unfold redis.ExecuteWithCircuitBreaker. rewrite Hr, Hp.
  rewrite (Execute_run p cb1) by apply lookup_insert_eq.
  cbn [clock set_heap heap].
  destruct (beforeRequest_closed (clock w) cb1 Hs1) as (cb2 & gen & -> & Hs2).
  cbn zeta. rewrite (getFn_run s r c) by done.
  cbn [faults set_heap set_net heap]. rewrite Hf, lookup_insert_eq.
  rewrite !payload_set_heap, Hpay.
  cbn. rewrite Hj. eauto.
Qed.

Lemma json_Marshal_pair (d : SessionData) : json_Marshal d = ((json_Marshal d).1, None).
Proof. reflexivity. Qed.

(** Storing a session when the store is available. *)
Lemma CacheUserSession_run (s : sessionService) (userID : string) (user : User)
    (w : World) (b : string) (ent : list (string + error)) :
  available s w → entropy w = inl b :: ent → (32 ≤ strings.len b)%nat →
  10 ≤ config_SessionCacheTTL w ≤ 120 →
  ∃ w1, CacheUserSession s userID (Some user) w = Done None w1
        ∧ available s w1 ∧ clock w1 = clock w
        ∧ keyspace w1
          = <["session:user:" +:+ userID :=
                server.mkEntry (json_Marshal (session_of user b w)).1
                  (Some (clock w + config_SessionCacheTTL w * gobreaker.minute))]>
              (keyspace w).
Proof.
  intros (r & c & p & cb & Hr & Hc & Hp & Hcb & Hl & Hs & Hflag & Hf) He Hb Httl.
  unfold CacheUserSession. run.
  destruct (IsAvailable_closed w p cb Hflag Hcb Hl Hs) as (cb1 & -> & Hs1).
  cbn [negb]. unfold GenerateSessionID, rand.Read. run.
  cbn [entropy set_heap]. rewrite He.
  rewrite (proj2 (Nat.leb_le _ _) Hb).
  unfold unix_now. run. cbn [clock set_entropy set_heap].
  rewrite json_Marshal_pair.
  unfold redis.ExecuteWithCircuitBreaker. rewrite Hr, Hp.
  rewrite (Execute_run p cb1) by apply lookup_insert_eq.
  cbn [clock set_heap set_entropy heap].
  destruct (beforeRequest_closed (clock w) cb1 Hs1) as (cb2 & gen & -> & Hs2).
  cbn zeta. rewrite (cacheFn_run s r c) by done.
  cbn [heap set_net set_heap set_entropy clock]. rewrite lookup_insert_eq.
  cbn [keyspace wire config_SessionCacheTTL set_heap set_entropy set_net].
  eexists. split; [reflexivity|]. split; [|by split].
  eexists r, c, p, _. cbn. rewrite lookup_insert_eq.
  repeat split; try done. by apply afterRequest_closed.
Qed.



End round_trip.

(** ** The session service while the store is unavailable *)

Section unavailable_store.
Import gobreaker service.

Lemma set_heap_insert_id (w : World) (p : ptr) (cb : CircuitBreaker) :
  heap w !! p = Some cb → set_heap (<[p := cb]> (heap w)) w = w.
Proof. intros H. rewrite insert_id by done. by destruct w. Qed.

Lemma StateOf_open (now e : Z) (cb : CircuitBreaker) :
  state cb = StateOpen → expiry cb = Some e → now ≤ e → StateOf now cb = (cb, StateOpen).
Proof.
  intros Hs He Hnow. unfold StateOf, currentState, Before. rewrite Hs, He.
  assert ((e <? now) = false) as -> by lia. by rewrite Hs.
Qed.

Lemma IsAvailable_unavailable (w : World) :
  unavailable w → redis.IsAvailable w = Done false w.
Proof.
  unfold redis.IsAvailable, redis.breakerState, redis.load, redis.store. run.
  destruct (Z.eqb_spec (redis_redisAvailable w) 0) as [|Hflag]; [done|].
  intros [?|(p & cb & e & Hcb & Hl & Hs & He & Hnow)]; [done|].
  rewrite Hcb, Hl, (StateOf_open _ e) by done. cbn.
  rewrite decide_True by done. by rewrite set_heap_insert_id.
Qed.

(** X1: while the availability flag is down, or while the breaker is OPEN
    and cooling down, the three operations of the session service return
    at once (nil, the miss sentinel, nil): nothing is sent to the server, no
    entropy is read, the world is as it was; even a nil user is not
    touched. *)
Theorem unavailable_store_is_bypassed (s : sessionService) (userID : string)
    (user : option User) (w : World) :
  unavailable w →
  CacheUserSession s userID user w = Done None w
  ∧ GetUserSession s userID w = Done (None, Some ErrCacheMiss) w
  ∧ InvalidateSession s userID w = Done None w.
Proof.
  intros Hw. unfold CacheUserSession, GetUserSession, InvalidateSession. run.
  by rewrite (IsAvailable_unavailable w Hw).
Qed.

Lemma unavailable_store_is_bypassed_witness :
  CacheUserSession sessions0 "u1" None cooling = Done None cooling
  ∧ GetUserSession sessions0 "u1" cooling = Done (None, Some ErrCacheMiss) cooling
  ∧ InvalidateSession sessions0 "u1" cooling = Done None cooling.
Proof.
  apply (unavailable_store_is_bypassed sessions0 "u1" None cooling).
  right. exists 0%nat, tripped, (4 + 30 * gobreaker.second).
  repeat split; first [reflexivity | vm_compute; discriminate].
Defined.

End unavailable_store.

(** ** A miss and the circuit breaker *)

Section misses_and_the_breaker.
Import gobreaker service.

Local Arguments gobreaker.beforeRequest : simpl never.
Local Arguments gobreaker.afterRequest : simpl never.
Local Arguments gobreaker.StateOf : simpl never.

(** Within its counting interval a CLOSED breaker is not changed by the
    passing of time. *)
Lemma StateOf_closed_in_interval (now e : Z) (cb : CircuitBreaker) :
  state cb = StateClosed → expiry cb = Some e → now ≤ e →
  StateOf now cb = (cb, StateClosed).
Proof.
  intros Hs He Hnow. unfold StateOf, currentState, Before. rewrite Hs, He.
  assert ((e <? now) = false) as -> by lia.
  rewrite bool_decide_eq_false_2 by done. cbn. by rewrite Hs.
Qed.

Lemma IsAvailable_closed_in_interval (w : World) (p : ptr) (cb : CircuitBreaker)
    (e : Z) :
  redis_redisAvailable w ≠ 0 → redis_redisCB w = Some p → heap w !! p = Some cb →
  state cb = StateClosed → expiry cb = Some e → clock w ≤ e →
  redis.IsAvailable w = Done true w.
Proof.
  intros Hflag Hcb Hl Hs He Hnow.
  unfold redis.IsAvailable, redis.breakerState, redis.load, redis.store. run.
  rewrite (proj2 (Z.eqb_neq _ _) Hflag), Hcb, Hl.
  rewrite (StateOf_closed_in_interval _ e) by done. cbn.
  by rewrite set_heap_insert_id.
Qed.

(** X2: a lookup that finds no session is a failure for the circuit
    breaker.  On a reachable server, with the breaker CLOSED within its
    counting interval, [GetUserSession] for an absent or expired key returns
    the miss sentinel and leaves the keys alone, and the breaker has counted
    one more consecutive failure: the fourth in a row opens it for 30
    seconds. *)
Theorem cache_miss_counts_as_failure (s : sessionService) (userID : string)
    (w : World) (r : redis.RedisClient) (c : goredis_Client) (p : ptr)
    (cb : CircuitBreaker) (e : Z) :
  redisClient s = Some r → redis.client r = Some c →
  redis.circuitBreaker r = Some p → redis_redisCB w = Some p →
  heap w !! p = Some cb → redis_redisAvailable w ≠ 0 →
  configured cb → state cb = StateClosed → expiry cb = Some e → clock w ≤ e →
  0 ≤ ConsecutiveFailures (counts cb) ≤ 3 →
  delivered w → payload w userID = None →
  ∃ w' cb',
    GetUserSession s userID w = Done (None, Some ErrCacheMiss) w'
    ∧ keyspace w' = keyspace w ∧ heap w' !! p = Some cb'
    ∧ (ConsecutiveFailures (counts cb) < 3 →
         state cb' = StateClosed
         ∧ ConsecutiveFailures (counts cb') = ConsecutiveFailures (counts cb) + 1)
    ∧ (ConsecutiveFailures (counts cb) = 3 →
         state cb' = StateOpen ∧ expiry cb' = Some (clock w + 30 * second)
         ∧ unavailable w').
Proof.
  intros Hr Hc Hp Hcb Hl Hflag Hconf Hs He Hnow Hcf Hdel Hpay.
  unfold GetUserSession. run.
  rewrite (IsAvailable_closed_in_interval w p cb e) by done. cbn [negb].
  unfold redis.ExecuteWithCircuitBreaker. rewrite Hr, Hp.
  rewrite (Execute_run p cb) by done.
  pose proof (closed_failure cb (clock w) e Hconf Hs He Hnow Hcf) as Hcall.
  unfold call in Hcall.
  destruct (beforeRequest (clock w) cb) as [[cb1 gen] err] eqn:Hbefore.
  assert (err = None) as ->.
  { destruct (beforeRequest_closed (clock w) cb Hs) as (? & ? & Heq & _).
    rewrite Hbefore in Heq. by injection Heq. }
  cbn zeta. rewrite (getFn_run s r c) by done.
  cbn [faults set_heap set_net heap clock]. rewrite lookup_insert_eq.
  change (payload (set_heap _ w) userID) with (payload w userID). rewrite Hpay.
  assert (match faults w with
          | Some _ :: _ | _ => (ANil, Some ErrCacheMiss)
          end = (ANil, Some ErrCacheMiss)) as -> by by destruct (faults w) as [|[?|] ?].
  rewrite (bool_decide_eq_false_2 (Some ErrCacheMiss = None)) by done. cbn.
  cbn [fst] in Hcall. destruct Hcall as [Hlt Heq].
  eexists _, _. split; [reflexivity|]. cbn. rewrite lookup_insert_eq.
  split; [done|]. split; [reflexivity|].
  split; [intros H; by destruct (Hlt H) as (? & ? & ?)|].
  intros H3. destruct (Heq H3) as [Hopen Hexp]. split; [done|]. split; [done|].
  right. eexists p, _, _. cbn. rewrite lookup_insert_eq.
  split; [done|]. split; [done|]. split; [done|]. split; [done|].
  unfold second. lia.
Qed.

Lemma cache_miss_counts_as_failure_witness :
  ∃ w' cb',
    GetUserSession sessions0 "u1" strained = Done (None, Some ErrCacheMiss) w'
    ∧ keyspace w' = keyspace strained ∧ heap w' !! 0%nat = Some cb'
    ∧ state cb' = StateOpen ∧ expiry cb' = Some (clock strained + 30 * gobreaker.second)
    ∧ unavailable w'.
Proof.
  destruct (cache_miss_counts_as_failure sessions0 "u1" strained facade0 client0 0%nat
              (gobreaker.calls [(1, false); (2, false); (3, false)]
                 (gobreaker.NewCircuitBreaker redis.breakerSettings 0)) gobreaker.minute)
    as (w' & cb' & Hget & Hks & Hcb & _ & Hopen).
  - reflexivity.
  - reflexivity.
  - reflexivity.
  - reflexivity.
  - reflexivity.
  - discriminate.
  - repeat split; first [reflexivity | discriminate | intros c; reflexivity].
  - reflexivity.
  - reflexivity.
  - vm_compute. discriminate.
  - vm_compute. split; discriminate.
  - exact I.
  - reflexivity.
  - exists w', cb'. split; [exact Hget|]. split; [exact Hks|]. split; [exact Hcb|].
    apply Hopen. reflexivity.
Defined.

End misses_and_the_breaker.

(** ** Invalidating a session *)

Section invalidate_session.
Import gobreaker service.

Local Arguments gobreaker.beforeRequest : simpl never.
Local Arguments gobreaker.afterRequest : simpl never.
Local Arguments gobreaker.StateOf : simpl never.

(** The deletion of the session key. *)
Lemma delFn_run (s : sessionService) (r : redis.RedisClient) (c : goredis_Client)
    (userID : string) (w : World) :
  redisClient s = Some r → redis.client r = Some c →
  delFn s userID w
  = Done (ANil, match faults w with Some e :: _ => Some e | _ => None end)
         (set_net (match faults w with
                   | Some _ :: _ => keyspace w
                   | _ => delete ("session:user:" +:+ userID) (keyspace w)
                   end)
                  (tail (faults w))
                  (wire w ++ [server.CmdDel ["session:user:" +:+ userID]]) w).
Proof.
  intros Hr Hc. unfold delFn, redis.GetClient, goredis.Del, goredis.roundtrip.
  rewrite Hr, Hc, Sprintf_session_key. run.
  by destruct (faults w) as [|[e|] fs].
Qed.

(** A miss: the store is available and holds no live payload. *)
Lemma GetUserSession_miss (s : sessionService) (userID : string) (w : World) :
  available s w → payload w userID = None →
  ∃ w', GetUserSession s userID w = Done (None, Some ErrCacheMiss) w'
        ∧ keyspace w' = keyspace w.
Proof.
  intros (r & c & p & cb & Hr & Hc & Hp & Hcb & Hl & Hs & Hflag & Hf) Hpay.
  unfold GetUserSession. run.
  destruct (IsAvailable_closed w p cb Hflag Hcb Hl Hs) as (cb1 & -> & Hs1).
  cbn [negb]. unfold redis.ExecuteWithCircuitBreaker. rewrite Hr, Hp.
  rewrite (Execute_run p cb1) by apply lookup_insert_eq.
  cbn [clock set_heap heap].
  destruct (beforeRequest_closed (clock w) cb1 Hs1) as (cb2 & gen & -> & Hs2).
  cbn zeta. rewrite (getFn_run s r c) by done.
  cbn [faults set_heap set_net heap]. rewrite Hf, lookup_insert_eq.
  rewrite !payload_set_heap, Hpay. cbn. eauto.
Qed.

(** [InvalidateSession] when the store is available, step by step. *)
Lemma InvalidateSession_available (s : sessionService) (userID : string) (w : World) :
  available s w →
  ∃ w1, InvalidateSession s userID w = Done None w1
        ∧ available s w1
        ∧ keyspace w1 = delete ("session:user:" +:+ userID) (keyspace w)
        ∧ clock w1 = clock w ∧ entropy w1 = entropy w
        ∧ config_SessionCacheTTL w1 = config_SessionCacheTTL w.
Proof.
  intros (r & c & p & cb & Hr & Hc & Hp & Hcb & Hl & Hs & Hflag & Hf).
  unfold InvalidateSession. run.
  destruct (IsAvailable_closed w p cb Hflag Hcb Hl Hs) as (cb1 & -> & Hs1).
  cbn [negb]. unfold redis.ExecuteWithCircuitBreaker. rewrite Hr, Hp.
  rewrite (Execute_run p cb1) by apply lookup_insert_eq.
  cbn [clock set_heap heap].
  destruct (beforeRequest_closed (clock w) cb1 Hs1) as (cb2 & gen & -> & Hs2).
  cbn zeta. rewrite (delFn_run s r c) by done.
  cbn [faults set_heap set_net heap]. rewrite Hf, lookup_insert_eq. cbn.
  eexists. split; [reflexivity|]. cbn. split; [|done].
  exists r, c, p, (afterRequest (clock w) gen true cb2). cbn.
  rewrite lookup_insert_eq. repeat split; try done. by apply afterRequest_closed.
Qed.

(** X3: when the store is available, [InvalidateSession] returns nil, the
    session key of the user is gone, every other key is as it was, the store
    is still available, and the next [GetUserSession] of the user is a
    miss. *)
Theorem InvalidateSession_then_miss (s : sessionService) (userID : string)
    (w : World) :
  available s w →
  ∃ w1 w2,
    InvalidateSession s userID w = Done None w1
    ∧ available s w1
    ∧ keyspace w1 = delete ("session:user:" +:+ userID) (keyspace w)
    ∧ payload w1 userID = None
    ∧ GetUserSession s userID w1 = Done (None, Some ErrCacheMiss) w2.
Proof.
  intros Hav.
  destruct (InvalidateSession_available s userID w Hav)
    as (w1 & Hinv & Hav1 & Hks1 & _).
  assert (payload w1 userID = None) as Hpay1.
  { unfold payload, server.lookup_live. by rewrite Hks1, lookup_delete_eq. }
  destruct (GetUserSession_miss s userID w1 Hav1 Hpay1) as (w2 & Hget & _).
  by exists w1, w2.
Qed.

Lemma InvalidateSession_then_miss_witness :
  ∃ w1 w2,
    InvalidateSession sessions0 "u1" (healthy stocked [] []) = Done None w1
    ∧ available sessions0 w1
    ∧ keyspace w1 = delete ("session:user:" +:+ "u1") (keyspace (healthy stocked [] []))
    ∧ payload w1 "u1" = None
    ∧ GetUserSession sessions0 "u1" w1 = Done (None, Some ErrCacheMiss) w2.
Proof.
  apply (InvalidateSession_then_miss sessions0 "u1" (healthy stocked [] [])).
  exists facade0, client0, 0%nat, (gobreaker.NewCircuitBreaker redis.breakerSettings 0).
  repeat split; first [reflexivity | discriminate].
Defined.

(** X4: [InvalidateSession] reports nothing: in every world whose pointers
    point into the heap it returns nil, whatever the breaker and the
    transport do; and when the transport loses the command the keys are as
    they were, so a stale session stays until it expires. *)
Theorem InvalidateSession_reports_nothing (s : sessionService) (userID : string)
    (w : World) :
  well_formed s w →
  ∃ w', InvalidateSession s userID w = Done None w'
        ∧ (¬ delivered w → keyspace w' = keyspace w).
Proof.
  intros [Hcb Hs]. unfold InvalidateSession. run.
  destruct (IsAvailable_run w Hcb) as (b & h & -> & Hd).
  destruct b; cbn [negb]; [|by eexists].
  unfold redis.ExecuteWithCircuitBreaker.
  destruct (redisClient s) as [r|] eqn:Hr; [|by eexists].
  destruct (Hs r eq_refl) as ([c Hc] & p & Hp & Hl).
  apply (heap_lookup_dom h) in Hl as [cb Hl]; [|done].
  rewrite Hp, (Execute_run p cb) by done. cbn [clock set_heap heap].
  destruct (gobreaker.beforeRequest (clock w) cb) as [[cb' gen] [e|]]; [by eexists|].
  cbn zeta. rewrite (delFn_run s r c) by done.
  cbn [heap set_net set_heap faults]. rewrite lookup_insert_eq.
  unfold delivered. destruct (faults w) as [|[e|] fs]; cbn.
  all: eexists; split; [reflexivity|]; cbn; tauto.
Qed.

Lemma InvalidateSession_reports_nothing_witness :
  ∃ w', InvalidateSession sessions0 "u1"
          (healthy stocked [Some (errorString "i/o timeout")] []) = Done None w'
        ∧ (¬ delivered (healthy stocked [Some (errorString "i/o timeout")] []) →
           keyspace w' = keyspace (healthy stocked [Some (errorString "i/o timeout")] [])).
Proof.
  apply (InvalidateSession_reports_nothing sessions0 "u1"
           (healthy stocked [Some (errorString "i/o timeout")] [])).
  split.
  - intros q [= <-]. by eexists.
  - intros r [= <-]. split; [by eexists|]. exists 0%nat. split; [reflexivity|]. by eexists.
Defined.

End invalidate_session.

(** ** The lifetime of a session *)

Section session_lifetime.
Import gobreaker service.

Local Arguments gobreaker.beforeRequest : simpl never.
Local Arguments gobreaker.afterRequest : simpl never.
Local Arguments gobreaker.StateOf : simpl never.
Local Arguments json_Marshal : simpl never.
Local Arguments json_Unmarshal : simpl never.
Local Arguments base64.EncodeToString : simpl never.

(** X5: a stored session is gone once its lifetime has passed.  When the
    store is available, [CacheUserSession] stores the record under the
    session key of the user with an expiry of [SessionCacheTTL] minutes, and
    a [GetUserSession] that comes [SessionCacheTTL] minutes later or more is
    a miss. *)
Theorem session_expires (s : sessionService) (userID : string) (user : User)
    (w : World) (b : string) (ent : list (string + error)) (d : Z) :
  available s w →
  entropy w = inl b :: ent → (32 ≤ strings.len b)%nat →
  10 ≤ config_SessionCacheTTL w ≤ 120 →
  config_SessionCacheTTL w * minute ≤ d →
  ∃ w1 w2 data,
    CacheUserSession s userID (Some user) w = Done None w1
    ∧ keyspace w1 !! ("session:user:" +:+ userID)
      = Some (server.mkEntry data (Some (clock w + config_SessionCacheTTL w * minute)))
    ∧ GetUserSession s userID (elapse d w1) = Done (None, Some ErrCacheMiss) w2.
Proof.
  intros Hav He Hb Httl Hd.
  destruct (CacheUserSession_run s userID user w b ent Hav He Hb Httl)
    as (w1 & Hstore & Hav1 & Hclock1 & Hks1).
  destruct (GetUserSession_miss s userID (elapse d w1)) as (w2 & Hget & _).
  - destruct Hav1 as (r & c & p & cb & H). by exists r, c, p, cb.
  - unfold payload, server.lookup_live, elapse. cbn [clock keyspace set_clock].
    rewrite Hks1, lookup_insert_eq, Hclock1. cbn.
    by assert ((clock w + d <? clock w + config_SessionCacheTTL w * minute) = false)
      as -> by lia.
  - exists w1, w2, (json_Marshal (session_of user b w)).1.
    split; [done|]. split; [|done]. by rewrite Hks1, lookup_insert_eq.
Qed.

Lemma session_expires_witness :
  ∃ w1 w2 data,
    CacheUserSession sessions0 "u1" (Some alice) start = Done None w1
    ∧ keyspace w1 !! ("session:user:" +:+ "u1")
      = Some (server.mkEntry data
                (Some (clock start + config_SessionCacheTTL start * gobreaker.minute)))
    ∧ GetUserSession sessions0 "u1" (elapse (30 * gobreaker.minute) w1)
      = Done (None, Some ErrCacheMiss) w2.
Proof.
  apply (session_expires sessions0 "u1" alice start seed [] (30 * gobreaker.minute)).
  - exists facade0, client0, 0%nat, (gobreaker.NewCircuitBreaker redis.breakerSettings 0).
    repeat split; first [reflexivity | discriminate].
  - reflexivity.
  - vm_compute. lia.
  - vm_compute. split; discriminate.
  - vm_compute. discriminate.
Defined.

End session_lifetime.

(** ** What [CacheUserSession] leaves behind on an error *)

Section cache_user_session.
Import gobreaker service.

Local Arguments gobreaker.beforeRequest : simpl never.
Local Arguments gobreaker.afterRequest : simpl never.
Local Arguments gobreaker.StateOf : simpl never.
Local Arguments json_Marshal : simpl never.
Local Arguments base64.EncodeToString : simpl never.
Local Arguments strings.take : simpl never.
Local Arguments strings.len : simpl never.

(** The write of the session key, whatever the transport does. *)
Lemma cacheFn_any (s : sessionService) (r : redis.RedisClient) (c : goredis_Client)
    (userID serialized : string) (w : World) :
  redisClient s = Some r → redis.client r = Some c →
  ∃ err ks, cacheFn s userID serialized w
            = Done (ANil, err)
                (set_net ks (tail (faults w))
                   (wire w ++ [server.CmdSet ("session:user:" +:+ userID) serialized
                                 (wrap64 (config_SessionCacheTTL w * minute))]) w)
            ∧ (err ≠ None → ks = keyspace w)
            ∧ ∀ k, k ≠ "session:user:" +:+ userID → ks !! k = keyspace w !! k.
Proof.
  intros Hr Hc. unfold cacheFn, redis.GetClient, goredis.Set_, goredis.roundtrip.
  rewrite Hr, Hc, Sprintf_session_key. run.
  destruct (faults w) as [|[e|] fs]; cbn; eexists _, _; (split; [reflexivity|]).
  all: split; [done|]; intros k Hk; by rewrite ?lookup_insert_ne.
Qed.

(** [GenerateSessionID] consumes one read of the entropy source. *)
Lemma GenerateSessionID_run (s : sessionService) (w : World) :
  GenerateSessionID s w
  = match entropy w with
    | [] =>
        Done (EmptyString,
              Some (errors.Errorf_w "failed to generate random bytes: "
                      (errorString "EOF"))) w
    | inr e :: rest =>
        Done (EmptyString,
              Some (errors.Errorf_w "failed to generate random bytes: " e))
             (set_entropy rest w)
    | inl b :: rest =>
        if (32 <=? strings.len b)%nat
        then Done (base64.EncodeToString (strings.take 32 b), None) (set_entropy rest w)
        else Done (EmptyString,
                   Some (errors.Errorf_w "failed to generate random bytes: "
                           (errorString "unexpected EOF")))
                  (set_entropy rest w)
    end.
Proof.
  unfold GenerateSessionID, rand.Read. run.
  destruct (entropy w) as [|[b|e] rest]; [done| |done].
  by destruct (32 <=? strings.len b)%nat.
Qed.



End cache_user_session.

(** ** [GenerateSessionID] *)

Section session_id.
Import service.

Local Arguments Nat.div : simpl never.

Lemma Is_refl (e : error) : errors.Is e e = true.
Proof. destruct e; cbn; by rewrite bool_decide_eq_true_2. Qed.

(** An error made by [fmt.Errorf] with [%w] wraps its operand. *)
Lemma Is_Errorf_w (prefix : string) (e : error) :
  errors.Is (errors.Errorf_w prefix e) e = true.
Proof. unfold errors.Errorf_w. cbn [errors.Is]. by rewrite Is_refl, orb_true_r. Qed.

Lemma encodeURL_url_safe (n : nat) : url_safe (base64.encodeURL n) = true.
Proof.
  unfold base64.encodeURL, url_safe.
  destruct (Nat.ltb_spec n 26).
  { rewrite nat_ascii_embedding by lia.
    assert ((65 <=? 65 + n)%nat = true) as -> by (apply Nat.leb_le; lia).
    by assert ((65 + n <=? 90)%nat = true) as -> by (apply Nat.leb_le; lia). }
  destruct (Nat.ltb_spec n 52).
  { rewrite nat_ascii_embedding by lia.
    assert ((97 <=? 97 + (n - 26))%nat = true) as -> by (apply Nat.leb_le; lia).
    assert ((97 + (n - 26) <=? 122)%nat = true) as -> by (apply Nat.leb_le; lia).
    by rewrite orb_true_r. }
  destruct (Nat.ltb_spec n 62).
  { rewrite nat_ascii_embedding by lia.
    assert ((48 <=? 48 + (n - 52))%nat = true) as -> by (apply Nat.leb_le; lia).
    assert ((48 + (n - 52) <=? 57)%nat = true) as -> by (apply Nat.leb_le; lia).
    by rewrite !orb_true_r. }
  by destruct (n =? 62)%nat.
Qed.

(** The encoding has four characters for every three bytes, the last
    group padded, all of them from the URL-safe alphabet. *)
Lemma EncodeToString_shape (n : nat) :
  ∀ src, (strings.len src ≤ n)%nat →
    strings.len (base64.EncodeToString src) = (4 * ((strings.len src + 2) / 3))%nat
    ∧ all_bytes url_safe (base64.EncodeToString src) = true.
Proof.
  induction n as [n IH] using lt_wf_ind. intros src Hlen.
  destruct src as [|a [|b [|c rest]]];
    cbn [base64.EncodeToString all_bytes]; rewrite ?encodeURL_url_safe.
  - done.
  - done.
  - done.
  - destruct (IH (strings.len rest)) with (src := rest) as [Hl Ha];
      [unfold strings.len in *; cbn in Hlen; lia|done|].
    split; [|done]. unfold strings.len in *. cbn [String.length]. rewrite Hl.
    replace (S (S (S (String.length rest))) + 2)%nat
      with (String.length rest + 2 + 1 * 3)%nat by lia.
    rewrite Nat.div_add by done. lia.
Qed.

Lemma len_take (n : nat) (s : string) :
  (n ≤ strings.len s)%nat → strings.len (strings.take n s) = n.
Proof.
  unfold strings.len. revert s. induction n as [|n IH]; intros s H; [done|].
  destruct s as [|c s]; cbn in *; [lia|]. rewrite IH; lia.
Qed.

(** X7: [GenerateSessionID] consumes one read of the entropy source and
    returns either a token of 44 characters of the URL-safe alphabet (the
    base64 text of 32 bytes) and no error, or the empty string and an error
    that wraps the failure of the read. *)
Theorem GenerateSessionID_token (s : sessionService) (w : World) :
  ∃ id e, GenerateSessionID s w = Done (id, e) (set_entropy (tail (entropy w)) w)
    ∧ match e with
      | None =>
          ∃ b, head (entropy w) = Some (inl b)
               ∧ id = base64.EncodeToString (strings.take 32 b)
               ∧ strings.len id = 44%nat ∧ all_bytes url_safe id = true
      | Some err =>
          id = EmptyString
          ∧ ∃ cause, err = errors.Errorf_w "failed to generate random bytes: " cause
                     ∧ errors.Is err cause = true
                     ∧ match head (entropy w) with
                       | Some (inr e) => cause = e
                       | Some (inl b) => (strings.len b < 32)%nat
                       | None => True
                       end
      end.
Proof.
  unfold GenerateSessionID, rand.Read. run.
  destruct (entropy w) as [|[b|e] rest] eqn:He; cbn [tail head].
  - eexists _, _. split; [by destruct w; cbn in *; subst|].
    split; [done|]. eexists. split; [reflexivity|]. split; [|done].
    apply Is_Errorf_w.
  - destruct (Nat.leb_spec 32 (strings.len b)) as [Hb|Hb].
    + eexists _, _. split; [reflexivity|]. exists b. split; [done|]. split; [done|].
      destruct (EncodeToString_shape 32 (strings.take 32 b)) as [Hl Ha];
        [by rewrite len_take|].
      split; [|done]. rewrite Hl, len_take by done. reflexivity.
    + eexists _, _. split; [reflexivity|]. split; [done|].
      eexists. split; [reflexivity|]. split; [|done].
      apply Is_Errorf_w.
  - eexists _, _. split; [reflexivity|]. split; [done|].
    eexists. split; [reflexivity|]. split; [|done].
    apply Is_Errorf_w.
Qed.

End session_id.

(** ** The connection: [NewRedisClient] and the health monitor of the package *)

Section connection.
Import gobreaker service.

(** [NewRedisClient] with an enabled configuration, step by step. *)
Lemma NewRedisClient_run (cfg : redis.RedisConfig) (w : World) :
  redis.Enabled cfg = true →
  redis.NewRedisClient cfg w
  = let p := fresh (dom (heap w)) in
    let cb := NewCircuitBreaker redis.breakerSettings (clock w) in
    let c := mkClient (fmt.Sprintf "%s:%d" [AStr (redis.Host cfg); AInt (redis.Port cfg)])
                      (redis.RedisDB cfg) in
    match faults w with
    | Some cause :: fs =>
        Done (None, Some (errors.Errorf_w "redis connection failed: " cause))
          (mkWorld (Some c) 0 (Some p) (config_SessionCacheTTL w)
             (<[p := cb]> (heap w)) (clock w) (keyspace w) fs
             (wire w ++ [server.CmdPing]) (entropy w))
    | fs =>
        Done (Some (redis.mkRedisClient (Some c) (Some p)), None)
          (mkWorld (Some c) 1 (Some p) (config_SessionCacheTTL w)
             (<[p := cb]> (heap w)) (clock w) (keyspace w) (tail fs)
             (wire w ++ [server.CmdPing]) (entropy w))
    end.
Proof.
  intros Hen. unfold redis.NewRedisClient, redis.alloc, redis.testConnection,
    goredis.Ping, goredis.roundtrip, redis.setAvailable. rewrite Hen. run.
  cbn [negb faults set_heap set_redis_redisClient set_redis_redisCB].
  by destruct (faults w) as [|[cause|] fs].
Qed.

(** X8: [NewRedisClient] with an enabled configuration always returns and
    leaves the keys alone.  When the PING is answered it returns a facade
    and no error, the availability flag is 1, the facade and the package
    share a new CLOSED breaker with the settings of the repository, and the
    session service built on the facade finds the store available as long
    as the transport is sound.  When the PING is lost it returns no facade
    and an error that wraps the cause, and the flag is 0, so that the
    store is unavailable. *)
Theorem NewRedisClient_outcome (cfg : redis.RedisConfig) (w : World) :
  redis.Enabled cfg = true →
  ∃ r e w', redis.NewRedisClient cfg w = Done (r, e) w'
    ∧ keyspace w' = keyspace w
    ∧ well_formed (NewSessionService r) w'
    ∧ (delivered w →
         e = None ∧ redis_redisAvailable w' = 1
         ∧ ∃ c p cb, r = Some (redis.mkRedisClient (Some c) (Some p))
             ∧ Addr c = fmt.Sprintf "%s:%d" [AStr (redis.Host cfg); AInt (redis.Port cfg)]
             ∧ redis_redisClient w' = Some c ∧ redis_redisCB w' = Some p
             ∧ heap w' !! p = Some cb ∧ state cb = StateClosed ∧ configured cb
             ∧ (tail (faults w) = [] → available (NewSessionService r) w'))
    ∧ (∀ cause fs, faults w = Some cause :: fs →
         r = None ∧ e = Some (errors.Errorf_w "redis connection failed: " cause)
         ∧ errors.Is (errors.Errorf_w "redis connection failed: " cause) cause = true
         ∧ unavailable w').
Proof.
  intros Hen. rewrite (NewRedisClient_run cfg w Hen). cbv zeta.
  set (p := fresh (dom (heap w))).
  set (cb := NewCircuitBreaker redis.breakerSettings (clock w)).
  set (c := mkClient _ _).
  assert (∀ fs, delivered w → faults w = fs →
            let w' := mkWorld (Some c) 1 (Some p) (config_SessionCacheTTL w)
                        (<[p := cb]> (heap w)) (clock w) (keyspace w) (tail fs)
                        (wire w ++ [server.CmdPing]) (entropy w) in
            let r := Some (redis.mkRedisClient (Some c) (Some p)) in
            keyspace w' = keyspace w
            ∧ well_formed (NewSessionService r) w'
            ∧ (delivered w →
                 (None : option error) = None ∧ redis_redisAvailable w' = 1
                 ∧ ∃ c0 p0 cb0, r = Some (redis.mkRedisClient (Some c0) (Some p0))
                     ∧ Addr c0 = fmt.Sprintf "%s:%d"
                                   [AStr (redis.Host cfg); AInt (redis.Port cfg)]
                     ∧ redis_redisClient w' = Some c0 ∧ redis_redisCB w' = Some p0
                     ∧ heap w' !! p0 = Some cb0 ∧ state cb0 = StateClosed
                     ∧ configured cb0
                     ∧ (tail (faults w) = [] → available (NewSessionService r) w'))) as Hok.
  { intros fs Hdel Hfs. cbv zeta. cbn [keyspace heap redis_redisCB redis_redisClient
      redis_redisAvailable faults]. split; [done|]. split.
    { split.
      - intros q [= <-]. cbn. rewrite lookup_insert_eq. by eexists.
      - intros r [= <-]. cbn. split; [by eexists|]. exists p. cbn.
        rewrite lookup_insert_eq. split; [done|]. by eexists. }
    intros _. split; [done|]. split; [done|].
    exists c, p, cb. rewrite lookup_insert_eq.
    split; [done|]. split; [done|]. split; [done|]. split; [done|].
    split; [done|]. split; [done|]. split; [by apply new_breaker|].
    rewrite Hfs. intros Htl.
    exists (redis.mkRedisClient (Some c) (Some p)), c, p, cb. cbn.
    rewrite lookup_insert_eq. by repeat split. }
  destruct (faults w) as [|[cause|] fs] eqn:Hf.
  - eexists _, _, _. split; [reflexivity|].
    destruct (Hok [] (ltac:(by unfold delivered; rewrite Hf)) eq_refl) as (H1 & H2 & H3).
    split; [done|]. split; [done|]. split; [done|]. by intros ? ? [=].
  - eexists _, _, _. split; [reflexivity|]. cbn. split; [done|]. split.
    { split.
      - intros q [= <-]. cbn. rewrite lookup_insert_eq. by eexists.
      - by intros r [=]. }
    split; [by unfold delivered; rewrite Hf|].
    intros ? ? [= <- <-]. split; [done|]. split; [done|].
    split; [apply Is_Errorf_w|]. by left.
  - eexists _, _, _. split; [reflexivity|].
    destruct (Hok (None :: fs) (ltac:(by unfold delivered; rewrite Hf)) eq_refl)
      as (H1 & H2 & H3).
    split; [done|]. split; [done|]. split; [done|]. by intros ? ? [=].
Qed.

Lemma NewRedisClient_outcome_witness :
  ∃ r e w', redis.NewRedisClient redis0 offline = Done (r, e) w'
    ∧ keyspace w' = keyspace offline
    ∧ well_formed (NewSessionService r) w'
    ∧ (delivered offline →
         e = None ∧ redis_redisAvailable w' = 1
         ∧ ∃ c p cb, r = Some (redis.mkRedisClient (Some c) (Some p))
             ∧ Addr c = fmt.Sprintf "%s:%d" [AStr (redis.Host redis0); AInt (redis.Port redis0)]
             ∧ redis_redisClient w' = Some c ∧ redis_redisCB w' = Some p
             ∧ heap w' !! p = Some cb ∧ state cb = StateClosed ∧ configured cb
             ∧ (tail (faults offline) = [] → available (NewSessionService r) w'))
    ∧ (∀ cause fs, faults offline = Some cause :: fs →
         r = None ∧ e = Some (errors.Errorf_w "redis connection failed: " cause)
         ∧ errors.Is (errors.Errorf_w "redis connection failed: " cause) cause = true
         ∧ unavailable w').
Proof.
  apply (NewRedisClient_outcome redis0 offline). reflexivity.
Defined.

(** X9: one round of the health monitor.  Without a client it does
    nothing.  With a client it sends one PING and touches neither the keys
    nor the breaker; when the PING is lost the flag is 0 afterwards and the
    store is unavailable; when it is answered the flag is not 0, and it is 1
    if it was 0 before. *)
Theorem healthMonitorTick_flag (w : World) :
  match redis_redisClient w with
  | None => redis.healthMonitorTick w = Done () w
  | Some _ =>
      ∃ w', redis.healthMonitorTick w = Done () w'
        ∧ wire w' = wire w ++ [server.CmdPing]
        ∧ keyspace w' = keyspace w ∧ heap w' = heap w
        ∧ redis_redisCB w' = redis_redisCB w
        ∧ (¬ delivered w → redis_redisAvailable w' = 0 ∧ unavailable w')
        ∧ (delivered w →
             redis_redisAvailable w' ≠ 0
             ∧ (redis_redisAvailable w = 0 → redis_redisAvailable w' = 1)
             ∧ (redis_redisAvailable w ≠ 0 →
                  redis_redisAvailable w' = redis_redisAvailable w))
  end.
Proof.
  unfold redis.healthMonitorTick, goredis.Ping, goredis.roundtrip, redis.setAvailable,
    delivered. run.
  destruct (redis_redisClient w) as [c|]; [|done]. cbn.
  destruct (faults w) as [|[cause|] fs]; cbn.
  2: { eexists. split; [reflexivity|]. cbn. repeat split; try done. by left. }
  all: destruct (Z.eqb_spec (redis_redisAvailable w) 0) as [H0|H0]; cbn.
  all: eexists; (split; [reflexivity|]); cbn; repeat split; try done.
Qed.

End connection.

(** ** What the invalidation leaves in the cache *)

Section invalidation_and_keys.

(** [InvalidateByPattern] always returns, and a key that the pattern does
    not match is as it was. *)
Lemma InvalidateByPattern_frame (ci : option invalidator.CacheInvalidator)
    (pattern : string) (w : World) :
  ∃ e w', invalidator.InvalidateByPattern ci pattern w = Done e w'
          ∧ ∀ k, server.glob pattern k = false → keyspace w' !! k = keyspace w !! k.
Proof.
  destruct ci as [ci|]; [|by eexists _, _].
  unfold invalidator.InvalidateByPattern, goredis.Scan, goredis.Del, goredis.roundtrip.
  destruct (invalidator.redisClient ci) as [c|]; [|by eexists _, _]. run.
  destruct (faults w) as [|[e|] fs] eqn:Hf; cbn.
  2: by eexists _, _.
  all: match goal with
       | |- context [filter ?P ?l] => set (keys := filter P l)
       end.
  all: assert (∀ k, server.glob pattern k = false → k ∉ keys) as Hkeys
         by (intros k Hk [[Hg _] _]%list_elem_of_filter; congruence).
  all: destruct keys as [|k0 ks] eqn:Hks; cbn; [by eexists _, _|].
  - eexists _, _. split; [reflexivity|]. cbn. intros k Hk.
    change (delete k0 (foldr delete (keyspace w) ks))
      with (foldr delete (keyspace w) (k0 :: ks)).
    rewrite lookup_foldr_delete. rewrite decide_False; [done|]. by apply Hkeys.
  - destruct fs as [|[e|] fs]; cbn.
    2: by eexists _, _.
    all: eexists _, _; (split; [reflexivity|]); cbn; intros k Hk.
    all: change (delete k0 (foldr delete (keyspace w) ks))
           with (foldr delete (keyspace w) (k0 :: ks)).
    all: rewrite lookup_foldr_delete; rewrite decide_False; [done|]; by apply Hkeys.
Qed.

Lemma invalidate_each_frame (ci : option invalidator.CacheInvalidator)
    (ps : list string) (w : World) :
  ∃ w', invalidator.invalidate_each ci ps w = Done () w'
        ∧ ∀ k, (∀ p, p ∈ ps → server.glob p k = false) →
               keyspace w' !! k = keyspace w !! k.
Proof.
  revert w. induction ps as [|p ps IH]; intros w; [by exists w|].
  cbn [invalidator.invalidate_each]. run.
  destruct (InvalidateByPattern_frame ci p w) as (e & w1 & -> & H1).
  destruct (IH w1) as (w2 & -> & H2). exists w2. split; [done|].
  intros k Hk. rewrite H2, H1; [done| |].
  - apply Hk. by left.
  - intros q Hq. apply Hk. by right.
Qed.

(** The normalized form of a path under [/v1] starts with [/v]. *)
Lemma normalizePath_v1 (path : string) :
  strings.HasPrefix path "/v1" = true →
  ∃ t, keygen.normalizePath path = String "/" (String "v" t).
Proof.
  intros [t ->]%HasPrefix_inv. unfold keygen.normalizePath, strings.ReplaceAll.
  change ("/v1" +:+ t) with (String "/" (String "v" (String "1" t))).
  cbn [strings.replace_from strings.HasPrefix Ascii.eqb Bool.eqb].
  set (r := strings.replace_from "//" "/" 0 t).
  unfold strings.TrimSuffix. destruct (strings.HasSuffix _ _); [|by eexists].
  unfold strings.len. cbn [String.length Nat.sub strings.take]. by eexists.
Qed.

(** No path pattern of the invalidator matches the key that the response
    cache derives for a [GET] or [HEAD] request to a route under [/v1]. *)
Lemma pathPatterns_miss_v1 (userID method path query pattern : string) :
  method = "GET" ∨ method = "HEAD" →
  strings.HasPrefix path "/v1" = true →
  pattern ∈ invalidator.pathPatterns userID →
  server.glob pattern (keygen.GenerateCacheKey method path query) = false.
Proof.
  intros Hm Hp Hpat. unfold keygen.GenerateCacheKey. rewrite Sprintf_key.
  destruct (normalizePath_v1 path Hp) as [t ->].
  unfold invalidator.pathPatterns in Hpat.
  repeat (apply elem_of_cons in Hpat as [->|Hpat]); [| | | |by apply elem_of_nil in Hpat].
  all: destruct Hm as [-> | ->]; reflexivity.
Qed.

(** X10: the revision of [InvalidateUserRelatedCache] with four path
    patterns (src/cache/invalidator.go) never removes a response that the
    cache middleware stored for a route of the [/v1] group: the patterns
    start with [/users], the keys with [/v1].  Whatever the user, the world
    and the transport, the call returns nil and the key of every [GET] or
    [HEAD] request to a path under [/v1] is as it was. *)
Theorem InvalidateUserRelatedCache_paths_keeps_v1
    (ci : option invalidator.CacheInvalidator) (userID : string) (w : World)
    (method path query : string) :
  method = "GET" ∨ method = "HEAD" →
  strings.HasPrefix path "/v1" = true →
  ∃ w', invalidator.InvalidateUserRelatedCache_paths ci userID w = Done None w'
        ∧ keyspace w' !! keygen.GenerateCacheKey method path query
          = keyspace w !! keygen.GenerateCacheKey method path query.
Proof.
  intros Hm Hp. unfold invalidator.InvalidateUserRelatedCache_paths.
  destruct ci as [ci|]; [|by exists w].
  destruct (invalidator.redisClient ci) as [c|]; [|by exists w]. run.
  destruct (invalidate_each_frame (Some ci) (invalidator.pathPatterns userID) w)
    as (w' & -> & Hframe).
  exists w'. split; [done|]. apply Hframe.
  intros p Hpat. by apply (pathPatterns_miss_v1 userID).
Qed.

Lemma InvalidateUserRelatedCache_paths_keeps_v1_witness :
  ∃ w', invalidator.InvalidateUserRelatedCache_paths
          (Some (invalidator.mkCacheInvalidator (Some client0))) "u1" sound_world
        = Done None w'
        ∧ keyspace w' !! keygen.GenerateCacheKey "GET" "/v1/users/u1" EmptyString
          = keyspace sound_world !! keygen.GenerateCacheKey "GET" "/v1/users/u1" EmptyString.
Proof.
  apply (InvalidateUserRelatedCache_paths_keeps_v1
           (Some (invalidator.mkCacheInvalidator (Some client0))) "u1" sound_world
           "GET" "/v1/users/u1" EmptyString).
  - left. reflexivity.
  - reflexivity.
Defined.

Lemma HasPrefix_contains (s sub : string) :
  strings.HasPrefix s sub = true → contains s sub = true.
Proof. intros H. destruct s; cbn [contains]; by rewrite H. Qed.

Lemma contains_cons (c : ascii) (s sub : string) :
  contains s sub = true → contains (String c s) sub = true.
Proof. intros H. cbn [contains]. by rewrite H, orb_true_r. Qed.

Lemma contains_app (s t sub : string) :
  contains t sub = true → contains (s +:+ t) sub = true.
Proof.
  intros H. induction s as [|c s IH]; [done|]. rewrite app_cons. by apply contains_cons.
Qed.

(** What [*] matches is a prefix of the key. *)
Lemma match_star (p : list server.tok) (s : string) :
  server.match_tokens (server.TStar :: p) s = true →
  ∃ s1 s2, s = s1 +:+ s2 ∧ server.match_tokens p s2 = true.
Proof.
  induction s as [|c s IH]; cbn [server.match_tokens].
  - rewrite orb_false_r. intros H. by exists EmptyString, EmptyString.
  - intros [H|H]%orb_true_iff.
    + by exists EmptyString, (String c s).
    + destruct (IH H) as (s1 & s2 & -> & H2). by exists (String c s1), s2.
Qed.

Lemma match_lit (c : ascii) (p : list server.tok) (s : string) :
  server.match_tokens (server.TLit c :: p) s = true →
  ∃ s', s = String c s' ∧ server.match_tokens p s' = true.
Proof.
  destruct s as [|d s]; cbn [server.match_tokens]; [done|].
  intros [->%Ascii.eqb_eq H]%andb_true_iff. by exists s.
Qed.

(** A key that one of the two patterns of a user matches contains the
    text [:user:]. *)
Lemma user_patterns_need_segment (userID key : string) :
  server.glob (patterns.GetSessionPattern userID) key = true
  ∨ server.glob (patterns.GetAPIResponseKeyPattern userID) key = true →
  contains key ":user:" = true.
Proof.
  unfold server.glob, patterns.GetSessionPattern, patterns.GetAPIResponseKeyPattern,
    patterns.SessionKeyPrefix.
  intros [H|H].
  - change (fmt.Sprintf "%s%s" [AStr "session:user:"; AStr userID])
      with (String "s" (String "e" (String "s" (String "s" (String "i" (String "o"
             (String "n" (String ":" (String "u" (String "s" (String "e" (String "r"
             (String ":" (userID +:+ "")))))))))))))) in H.
    cbn [server.tokens] in H.
    do 13 (apply match_lit in H as (? & -> & H)).
    do 7 apply contains_cons. apply HasPrefix_contains.
    match goal with |- strings.HasPrefix (String _ (String _ (String _ (String _
      (String _ (String _ ?x)))))) _ = _ => apply (HasPrefix_app ":user:" x) end.
  - change (fmt.Sprintf "api:response:*:user:%s:*" [AStr userID])
      with (String "a" (String "p" (String "i" (String ":" (String "r" (String "e"
             (String "s" (String "p" (String "o" (String "n" (String "s" (String "e"
             (String ":" (String "*" (String ":" (String "u" (String "s" (String "e"
             (String "r" (String ":" (userID +:+ ":*" +:+ ""))))))))))))))))))))) in H.
    cbn [server.tokens] in H.
    do 13 (apply match_lit in H as (? & -> & H)).
    apply match_star in H as (s1 & s2 & -> & H).
    do 6 (apply match_lit in H as (? & -> & H)).
    do 13 apply contains_cons. apply contains_app. apply HasPrefix_contains.
    match goal with |- strings.HasPrefix (String _ (String _ (String _ (String _
      (String _ (String _ ?x)))))) _ = _ => apply (HasPrefix_app ":user:" x) end.
Qed.

(** X11: the revision of [InvalidateUserRelatedCache] with a session
    pattern and a response pattern (unnamed/part_005) removes no key that
    does not contain the text [:user:], whatever the user, the world and
    the transport; the keys that the cache middleware derives from a method,
    a path and a query carry no user, so a cached response stays unless its
    request happens to contain that text. *)
Theorem InvalidateUserRelatedCache_needs_user_segment
    (ci : option invalidator.CacheInvalidator) (userID : string) (w : World)
    (key : string) :
  contains key ":user:" = false →
  ∃ w', invalidator.InvalidateUserRelatedCache ci userID w = Done None w'
        ∧ keyspace w' !! key = keyspace w !! key.
Proof.
  intros Hkey. unfold invalidator.InvalidateUserRelatedCache,
    invalidator.InvalidateSessionCache.
  destruct ci as [ci|]; [|by exists w]. run.
  destruct (InvalidateByPattern_frame (Some ci) (patterns.GetSessionPattern userID) w)
    as (e1 & w1 & -> & H1).
  destruct (InvalidateByPattern_frame (Some ci)
              (patterns.GetAPIResponseKeyPattern userID) w1) as (e2 & w2 & -> & H2).
  exists w2. split; [done|]. rewrite H2, H1; [done| |].
  - destruct (server.glob (patterns.GetSessionPattern userID) key) eqn:Hg; [|done].
    rewrite (user_patterns_need_segment userID) in Hkey by by left. done.
  - destruct (server.glob (patterns.GetAPIResponseKeyPattern userID) key) eqn:Hg; [|done].
    rewrite (user_patterns_need_segment userID) in Hkey by by right. done.
Qed.

Lemma InvalidateUserRelatedCache_needs_user_segment_witness :
  ∃ w', invalidator.InvalidateUserRelatedCache
          (Some (invalidator.mkCacheInvalidator (Some client0))) "u1" sound_world
        = Done None w'
        ∧ keyspace w' !! "api:response:GET:/v1/users/u1?"
          = keyspace sound_world !! "api:response:GET:/v1/users/u1?".
Proof.
  apply (InvalidateUserRelatedCache_needs_user_segment
           (Some (invalidator.mkCacheInvalidator (Some client0))) "u1" sound_world
           "api:response:GET:/v1/users/u1?").
  reflexivity.
Defined.

End invalidation_and_keys.

(** ** The session pattern *)

Section session_pattern.
Import service.

(** A byte that is not special stands for itself in a pattern. *)
Lemma tokens_plain_byte (c : ascii) (p : string) :
  plain_byte c = true →
  server.tokens None (String c p) = server.TLit c :: server.tokens None p.
Proof.
  destruct c as [[] [] [] [] [] [] [] []]; try discriminate; intros _; reflexivity.
Qed.

Lemma tokens_plain (s t : string) :
  all_bytes plain_byte s = true →
  server.tokens None (s +:+ t)
  = (server.TLit <$> list_ascii_of_string s) ++ server.tokens None t.
Proof.
  induction s as [|c s IH]; [done|]. cbn [all_bytes].
  intros [Hc Hs]%andb_true_iff. rewrite app_cons, tokens_plain_byte by done.
  cbn. by rewrite IH.
Qed.

(** A pattern of literals matches its own text and nothing else. *)
Lemma match_literals (s key : string) :
  server.match_tokens (server.TLit <$> list_ascii_of_string s) key = true ↔ key = s.
Proof.
  revert key. induction s as [|c s IH]; intros key; cbn.
  - by rewrite bool_decide_eq_true.
  - destruct key as [|d key]; [done|]. rewrite andb_true_iff, IH, Ascii.eqb_eq.
    split; [by intros [-> ->]|by intros [= -> ->]].
Qed.

(** For a user identifier without glob characters the session pattern
    matches the session key of the user and no other key. *)
Lemma GetSessionPattern_exact (userID key : string) :
  all_bytes plain_byte userID = true →
  server.glob (patterns.GetSessionPattern userID) key = true
  ↔ key = patterns.GetSessionKey userID.
Proof.
  intros Hplain. unfold server.glob, patterns.GetSessionPattern, patterns.GetSessionKey.
  assert (fmt.Sprintf "%s%s" [AStr patterns.SessionKeyPrefix; AStr userID]
          = ("session:user:" +:+ userID) +:+ "") as ->
    by (cbn; by rewrite !app_empty_r).
  rewrite tokens_plain.
  - cbn [server.tokens]. rewrite app_nil_r. by rewrite match_literals, app_empty_r.
  - clear key. change ("session:user:" +:+ userID)
      with (String "s" (String "e" (String "s" (String "s" (String "i" (String "o"
             (String "n" (String ":" (String "u" (String "s" (String "e" (String "r"
             (String ":" userID))))))))))))).
    by cbn [all_bytes].
Qed.

(** A pattern deletion under a sound transport, step by step. *)
Lemma InvalidateByPattern_sound (ci : invalidator.CacheInvalidator)
    (c : goredis_Client) (pattern : string) (w : World) :
  invalidator.redisClient ci = Some c → faults w = [] →
  ∃ ks cs, invalidator.InvalidateByPattern (Some ci) pattern w
           = Done None (set_net ks [] cs w)
    ∧ (∀ k, server.glob pattern k = true → server.lookup_live (clock w) ks k = None)
    ∧ (∀ k, server.glob pattern k = false → ks !! k = keyspace w !! k).
Proof.
  intros Hc Hf. unfold invalidator.InvalidateByPattern, goredis.Scan, goredis.Del,
    goredis.roundtrip. rewrite Hc. run. rewrite Hf. cbn.
  set (keys := filter _ _).
  assert (∀ k, k ∈ keys ↔ server.glob pattern k = true
                          ∧ is_Some (server.lookup_live (clock w) (keyspace w) k)) as Hkeys.
  { intros k. unfold keys. rewrite list_elem_of_filter. split; [tauto|].
    intros [Hg Hl]. split; [done|].
    apply list_elem_of_fmap. unfold server.lookup_live in Hl.
    destruct (keyspace w !! k) as [e|] eqn:Hk; [|by destruct Hl].
    exists (k, e). split; [done|]. by apply elem_of_map_to_list. }
  destruct keys as [|k0 ks] eqn:Hks; cbn.
  - eexists _, _. split; [reflexivity|]. split; [|done].
    intros k Hg. destruct (server.lookup_live (clock w) (keyspace w) k) eqn:Hl; [|done].
    exfalso. eapply not_elem_of_nil, Hkeys. eauto.
  - eexists _, _. split; [reflexivity|]. split.
    + intros k Hg. unfold server.lookup_live.
      change (delete k0 (foldr delete (keyspace w) ks))
        with (foldr delete (keyspace w) (k0 :: ks)).
      rewrite lookup_foldr_delete. destruct (decide (k ∈ k0 :: ks)) as [|Hn]; [done|].
      destruct (keyspace w !! k) as [e|] eqn:Hk; [|done].
      destruct (server.live (clock w) e) eqn:Hl; [|done].
      exfalso. apply Hn, Hkeys. split; [done|].
      unfold server.lookup_live. rewrite Hk, Hl. by eexists.
    + intros k Hg.
      change (delete k0 (foldr delete (keyspace w) ks))
        with (foldr delete (keyspace w) (k0 :: ks)).
      rewrite lookup_foldr_delete. rewrite decide_False; [done|].
      intros [Hg' _]%Hkeys. congruence.
Qed.

(** X12: the invalidator and the session service agree on the session key.
    For a user identifier without glob characters, and with the store
    available, [InvalidateSessionCache] returns nil, leaves every key but
    the session key of the user as it was, and the next [GetUserSession] of
    the user is a miss. *)
Theorem InvalidateSessionCache_exact (ci : invalidator.CacheInvalidator)
    (c : goredis_Client) (s : sessionService) (userID : string) (w : World) :
  all_bytes plain_byte userID = true →
  invalidator.redisClient ci = Some c → available s w →
  ∃ w1 w2,
    invalidator.InvalidateSessionCache (Some ci) userID w = Done None w1
    ∧ (∀ k, k ≠ patterns.GetSessionKey userID → keyspace w1 !! k = keyspace w !! k)
    ∧ payload w1 userID = None
    ∧ GetUserSession s userID w1 = Done (None, Some ErrCacheMiss) w2.
Proof.
  intros Hplain Hc Hav. unfold invalidator.InvalidateSessionCache.
  pose proof Hav as (r & c' & p & cb & Hr & Hc' & Hp & Hcb & Hl & Hs & Hflag & Hf).
  destruct (InvalidateByPattern_sound ci c (patterns.GetSessionPattern userID) w Hc Hf)
    as (ks & cs & -> & Hgone & Hkept).
  assert (payload (set_net ks [] cs w) userID = None) as Hpay.
  { unfold payload. cbn [clock keyspace set_net]. rewrite Hgone; [done|].
    apply GetSessionPattern_exact; [done|].
    unfold patterns.GetSessionKey. cbn. by rewrite app_empty_r. }
  destruct (GetUserSession_miss s userID (set_net ks [] cs w)) as (w2 & Hget & _);
    [by exists r, c', p, cb|done|].
  exists (set_net ks [] cs w), w2. split; [done|]. split; [|done].
  intros k Hk. cbn. apply Hkept.
  destruct (server.glob (patterns.GetSessionPattern userID) k) eqn:Hg; [|done].
  by apply GetSessionPattern_exact in Hg.
Qed.

Lemma InvalidateSessionCache_exact_witness :
  ∃ w1 w2,
    invalidator.InvalidateSessionCache
      (Some (invalidator.mkCacheInvalidator (Some client0))) "u1" (healthy stocked [] [])
    = Done None w1
    ∧ (∀ k, k ≠ patterns.GetSessionKey "u1" →
            keyspace w1 !! k = keyspace (healthy stocked [] []) !! k)
    ∧ payload w1 "u1" = None
    ∧ GetUserSession sessions0 "u1" w1 = Done (None, Some ErrCacheMiss) w2.
Proof.
  apply (InvalidateSessionCache_exact (invalidator.mkCacheInvalidator (Some client0))
           client0 sessions0 "u1" (healthy stocked [] [])).
  - reflexivity.
  - reflexivity.
  - exists facade0, client0, 0%nat, (gobreaker.NewCircuitBreaker redis.breakerSettings 0).
    repeat split; first [reflexivity | discriminate].
Defined.

End session_pattern.

(** ** Query escaping *)

Section query_escaping.

(** One byte at a time: what [QueryEscape] writes for a byte,
    [QueryUnescape] reads back as that byte. *)
Lemma QueryUnescape_QueryEscape_cons (c : ascii) (s : string) :
  url.QueryUnescape (url.QueryEscape (String c s))
  = match url.QueryUnescape (url.QueryEscape s) with
    | inl t => inl (String c t)
    | inr e => inr e
    end.
Proof. destruct c as [[] [] [] [] [] [] [] []]; reflexivity. Qed.

(** [url.QueryUnescape] undoes [url.QueryEscape]: for every byte
    string, escaping and then unescaping gives the string back, without
    error. *)
Lemma QueryUnescape_QueryEscape (s : string) :
  url.QueryUnescape (url.QueryEscape s) = inl s.
Proof.
  induction s as [|c s IH]; [done|].
  by rewrite QueryUnescape_QueryEscape_cons, IH.
Qed.

End query_escaping.

(** ** A query of one parameter *)

Section single_parameter.

Lemma ContainsByte_QueryEscape_cons (c : ascii) (s : string) :
  strings.ContainsByte (url.QueryEscape (String c s)) "&"
  = strings.ContainsByte (url.QueryEscape s) "&"
  ∧ strings.ContainsByte (url.QueryEscape (String c s)) ";"
    = strings.ContainsByte (url.QueryEscape s) ";"
  ∧ strings.ContainsByte (url.QueryEscape (String c s)) "="
    = strings.ContainsByte (url.QueryEscape s) "=".
Proof. destruct c as [[] [] [] [] [] [] [] []]; repeat split; reflexivity. Qed.

(** An escaped text holds no separator of a query. *)
Lemma ContainsByte_QueryEscape (s : string) :
  strings.ContainsByte (url.QueryEscape s) "&" = false
  ∧ strings.ContainsByte (url.QueryEscape s) ";" = false
  ∧ strings.ContainsByte (url.QueryEscape s) "=" = false.
Proof.
  induction s as [|c s IH]; [done|].
  destruct (ContainsByte_QueryEscape_cons c s) as (-> & -> & ->). exact IH.
Qed.

Lemma ContainsByte_app (s t : string) (b : ascii) :
  strings.ContainsByte (s +:+ t) b = strings.ContainsByte s b || strings.ContainsByte t b.
Proof.
  induction s as [|c s IH]; [done|]. rewrite app_cons. cbn. by rewrite IH, orb_assoc.
Qed.

Lemma segments_single (s : string) :
  s ≠ EmptyString → strings.ContainsByte s "&" = false → segments s = [s].
Proof.
  induction s as [|c s IH]; [done|]. intros _. cbn.
  intros [Hc Hs]%orb_false_iff. rewrite Hc.
  destruct s as [|d s]; [done|]. by rewrite IH.
Qed.

Lemma Cut_app (a b : string) (sep : ascii) :
  strings.ContainsByte a sep = false →
  strings.Cut (a +:+ String sep b) sep = (a, b, true).
Proof.
  induction a as [|c a IH]; cbn.
  - intros _. rewrite app_empty_l. cbn. by rewrite Ascii.eqb_refl.
  - intros [Hc Ha]%orb_false_iff. rewrite app_cons. cbn. by rewrite Hc, IH.
Qed.

(** X13: a query of one parameter is rebuilt from its decoded name and
    value: however the name and the value were percent-encoded, the sorted
    query is the decoded name, [=], and the value escaped again.  The value
    is in canonical form; the name is written back as it decodes, not
    escaped. *)
Theorem sortQueryParams_single (name value : string) :
  keygen.sortQueryParams (url.QueryEscape name +:+ "=" +:+ url.QueryEscape value)
  = name +:+ "=" +:+ url.QueryEscape value.
Proof.
  destruct (ContainsByte_QueryEscape name) as (Hn1 & Hn2 & Hn3).
  destruct (ContainsByte_QueryEscape value) as (Hv1 & Hv2 & Hv3).
  set (q := url.QueryEscape name +:+ "=" +:+ url.QueryEscape value).
  assert (q ≠ EmptyString) as Hq.
  { unfold q. destruct (url.QueryEscape name); [by rewrite app_empty_l|by rewrite app_cons]. }
  assert (strings.ContainsByte q "&" = false) as Hamp.
  { unfold q. change ("=" +:+ url.QueryEscape value) with (String "=" (url.QueryEscape value)).
    rewrite ContainsByte_app. cbn. by rewrite Hn1, Hv1. }
  assert (strings.ContainsByte q ";" = false) as Hsemi.
  { unfold q. change ("=" +:+ url.QueryEscape value) with (String "=" (url.QueryEscape value)).
    rewrite ContainsByte_app. cbn. by rewrite Hn2, Hv2. }
  unfold keygen.sortQueryParams. rewrite bool_decide_eq_false_2 by done.
  rewrite ParseQuery_segments, segments_single by done.
  cbn [foldl handle]. rewrite Hsemi, bool_decide_eq_false_2 by done.
  unfold q at 1. change ("=" +:+ url.QueryEscape value) with (String "=" (url.QueryEscape value)).
  rewrite Cut_app by done. rewrite !QueryUnescape_QueryEscape.
  rewrite lookup_empty. cbn [default app].
  unfold keygen.names_of. rewrite insert_empty, map_to_list_singleton.
  cbn. unfold keygen.parts_of. rewrite lookup_singleton_eq. cbn.
  by rewrite !app_empty_r.
Qed.

End single_parameter.

(** ** Canonical paths *)

Section normalize_path.

Local Arguments strings.HasPrefix : simpl never.

Lemma HasPrefix_cons (c d : ascii) (s p : string) :
  strings.HasPrefix (String c s) (String d p) = Ascii.eqb c d && strings.HasPrefix s p.
Proof. unfold strings.HasPrefix; fold strings.HasPrefix. by destruct (Ascii.eqb c d). Qed.

Lemma HasPrefix_nil_l (d : ascii) (p : string) :
  strings.HasPrefix EmptyString (String d p) = false.
Proof. reflexivity. Qed.

Lemma HasPrefix_nil_r (s : string) : strings.HasPrefix s EmptyString = true.
Proof. by destruct s. Qed.

Lemma contains_unfold (c : ascii) (s sub : string) :
  contains (String c s) sub = strings.HasPrefix (String c s) sub || contains s sub.
Proof. reflexivity. Qed.

Lemma replace_from_cons (c : ascii) (s : string) :
  strings.replace_from "//" "/" 0 (String c s)
  = if strings.HasPrefix (String c s) "//"
    then String "/" (strings.replace_from "//" "/" 0 (strings.drop 1 s))
    else String c (strings.replace_from "//" "/" 0 s).
Proof.
  cbn [strings.replace_from]. destruct (strings.HasPrefix _ _) eqn:H; [|done].
  rewrite app_cons, app_empty_l. unfold strings.len. cbn [String.length Nat.sub].
  destruct s as [|d s]; [|done].
  by rewrite HasPrefix_cons, HasPrefix_nil_l, andb_false_r in H.
Qed.

Lemma HasPrefix_slash (c : ascii) (s : string) :
  strings.HasPrefix (String c s) "/" = Ascii.eqb c "/".
Proof. by rewrite HasPrefix_cons, HasPrefix_nil_r, andb_true_r. Qed.

Lemma HasPrefix_double (c : ascii) (s : string) :
  strings.HasPrefix (String c s) "//" = Ascii.eqb c "/" && strings.HasPrefix s "/".
Proof. by rewrite HasPrefix_cons. Qed.

Lemma HasPrefix_triple (c : ascii) (s : string) :
  strings.HasPrefix (String c s) "///" = Ascii.eqb c "/" && strings.HasPrefix s "//".
Proof. by rewrite HasPrefix_cons. Qed.

(** Where no three separators are in a row the replacement leaves no two
    in a row, and it starts with a separator only if the path does. *)
Lemma replace_collapses (n : nat) :
  ∀ s, (strings.len s ≤ n)%nat → contains s "///" = false →
    contains (strings.replace_from "//" "/" 0 s) "//" = false
    ∧ (strings.HasPrefix (strings.replace_from "//" "/" 0 s) "/" = true →
       strings.HasPrefix s "/" = true).
Proof.
  induction n as [n IH] using lt_wf_ind. intros s Hlen Htriple.
  destruct s as [|c s]; [done|]. rewrite replace_from_cons.
  rewrite contains_unfold in Htriple. apply orb_false_iff in Htriple as [Hhead Htail].
  rewrite HasPrefix_triple in Hhead. rewrite HasPrefix_double, HasPrefix_slash.
  destruct (Ascii.eqb c "/") eqn:Hc; cbn [andb] in *.
  - destruct s as [|d s]; [by apply Ascii.eqb_eq in Hc as ->|].
    rewrite HasPrefix_double in Hhead. rewrite HasPrefix_slash.
    rewrite contains_unfold in Htail. apply orb_false_iff in Htail as [_ Htail'].
    destruct (Ascii.eqb d "/") eqn:Hd; cbn [andb strings.drop] in *.
    + destruct (IH (strings.len s)) with (s := s) as [Hcs Hps];
        [unfold strings.len in *; cbn in *; lia|done|done|].
      split; [|done].
      rewrite contains_unfold, Hcs, orb_false_r, HasPrefix_double. cbn [Ascii.eqb].
      destruct (strings.HasPrefix (strings.replace_from "//" "/" 0 s) "/") eqn:Hr; [|done].
      by rewrite (Hps eq_refl) in Hhead.
    + destruct (IH (strings.len (String d s))) with (s := String d s) as [Hcs Hps];
        [unfold strings.len in *; cbn in *; lia|done| |].
      { by rewrite contains_unfold, HasPrefix_triple, Hd. }
      split; [|done].
      rewrite contains_unfold, Hcs, orb_false_r, HasPrefix_double, Hc. cbn [andb].
      destruct (strings.HasPrefix (strings.replace_from "//" "/" 0 (String d s)) "/")
        eqn:Hr; [|done].
      specialize (Hps eq_refl). by rewrite HasPrefix_slash, Hd in Hps.
  - destruct (IH (strings.len s)) with (s := s) as [Hcs Hps];
      [unfold strings.len in *; cbn in *; lia|done|done|].
    split; [|by rewrite HasPrefix_slash, Hc].
    by rewrite contains_unfold, Hcs, orb_false_r, HasPrefix_double, Hc.
Qed.

Lemma HasSuffix_slash_inv (s : string) :
  strings.HasSuffix s "/" = true → s = strings.take (strings.len s - 1) s +:+ "/".
Proof.
  unfold strings.HasSuffix, strings.len. induction s as [|c s IH]; [done|].
  destruct s as [|d s].
  - cbn. by destruct (Ascii.eqb_spec c "/") as [->|].
  - intros H. cbn [String.length Nat.sub strings.take] in *.
    rewrite Nat.sub_0_r in *. rewrite app_cons. f_equal. apply IH. exact H.
Qed.

Lemma HasPrefix_take (n : nat) (s sub : string) :
  strings.HasPrefix (strings.take n s) sub = true → strings.HasPrefix s sub = true.
Proof.
  revert n s. induction sub as [|d sub IH]; intros n s; [by rewrite !HasPrefix_nil_r|].
  destruct n, s as [|c s]; cbn [strings.take]; try by rewrite HasPrefix_nil_l.
  rewrite !HasPrefix_cons. intros [-> H]%andb_true_iff. by rewrite (IH n s).
Qed.

Lemma contains_take (n : nat) (s sub : string) :
  contains (strings.take n s) sub = true → contains s sub = true.
Proof.
  revert n. induction s as [|c s IH]; intros n.
  - by destruct n.
  - destruct n; cbn [strings.take].
    + intros H. cbn [contains] in H. rewrite orb_false_r in H.
      apply (HasPrefix_take 0 (String c s)) in H. by rewrite contains_unfold, H.
    + rewrite !contains_unfold. intros [H|H]%orb_true_iff.
      * apply (HasPrefix_take (S n) (String c s)) in H. by rewrite H.
      * by rewrite (IH n H), orb_true_r.
Qed.

Lemma replace_fixed (s : string) :
  contains s "//" = false → strings.replace_from "//" "/" 0 s = s.
Proof.
  induction s as [|c s IH]; [done|]. rewrite contains_unfold.
  intros [Hh Ht]%orb_false_iff. by rewrite replace_from_cons, Hh, IH.
Qed.

(** X14: where no three separators are in a row, [normalizePath] gives a
    canonical path: the result has no two separators in a row, does not end
    with a separator, and is left as it is by [normalizePath]. *)
Theorem normalizePath_canonical (path : string) :
  contains path "///" = false →
  contains (keygen.normalizePath path) "//" = false
  ∧ strings.HasSuffix (keygen.normalizePath path) "/" = false
  ∧ keygen.normalizePath (keygen.normalizePath path) = keygen.normalizePath path.
Proof.
  intros Htriple. unfold keygen.normalizePath, strings.ReplaceAll.
  destruct (replace_collapses (strings.len path) path (le_n _) Htriple) as [Hdouble _].
  set (r := strings.replace_from "//" "/" 0 path) in *.
  assert (contains (strings.TrimSuffix r "/") "//" = false
          ∧ strings.HasSuffix (strings.TrimSuffix r "/") "/" = false) as [Hc Hs].
  { unfold strings.TrimSuffix. destruct (strings.HasSuffix r "/") eqn:Hsuffix; [|done].
    change (strings.len "/") with 1%nat. split.
    - destruct (contains (strings.take _ r) "//") eqn:H; [|done].
      apply contains_take in H. congruence.
    - destruct (strings.HasSuffix (strings.take _ r) "/") eqn:H; [|done].
      apply HasSuffix_slash_inv in H. apply HasSuffix_slash_inv in Hsuffix.
      rewrite H, app_assoc_s in Hsuffix.
      rewrite Hsuffix, contains_app in Hdouble; [done|].
      by apply HasPrefix_contains. }
  split; [done|]. split; [done|].
  rewrite replace_fixed by done. unfold strings.TrimSuffix at 1. by rewrite Hs.
Qed.

Lemma normalizePath_canonical_witness :
  contains (keygen.normalizePath "/v1//users/") "//" = false
  ∧ strings.HasSuffix (keygen.normalizePath "/v1//users/") "/" = false
  ∧ keygen.normalizePath (keygen.normalizePath "/v1//users/")
    = keygen.normalizePath "/v1//users/".
Proof.
  apply (normalizePath_canonical "/v1//users/"). reflexivity.
Defined.

End normalize_path.

(** ** Trailing separators *)

Section trailing_slash.

Local Arguments strings.HasPrefix : simpl never.

Lemma HasSuffix_single (c : ascii) :
  strings.HasSuffix (String c EmptyString) "/" = Ascii.eqb c "/".
Proof. unfold strings.HasSuffix, strings.len. cbn. by destruct (Ascii.eqb c "/"). Qed.

Lemma HasSuffix_cons (c d : ascii) (s : string) :
  strings.HasSuffix (String c (String d s)) "/" = strings.HasSuffix (String d s) "/".
Proof.
  unfold strings.HasSuffix, strings.len. cbn [String.length Nat.sub Nat.leb].
  by rewrite !Nat.sub_0_r.
Qed.

Lemma replace_nonempty (c : ascii) (s : string) :
  strings.replace_from "//" "/" 0 (String c s) ≠ EmptyString.
Proof. rewrite replace_from_cons. by destruct (strings.HasPrefix _ _). Qed.

(** A path that does not end with a separator keeps its last byte: the
    replacement of the path followed by a separator is the replacement of
    the path, followed by a separator, and it does not end with one
    itself. *)
Lemma replace_app_slash (n : nat) :
  ∀ p, (strings.len p ≤ n)%nat → strings.HasSuffix p "/" = false →
    strings.replace_from "//" "/" 0 (p +:+ "/")
    = strings.replace_from "//" "/" 0 p +:+ "/"
    ∧ strings.HasSuffix (strings.replace_from "//" "/" 0 p) "/" = false.
Proof.
  induction n as [n IH] using lt_wf_ind. intros p Hlen Hsuffix.
  destruct p as [|c [|d s]].
  - done.
  - rewrite HasSuffix_single in Hsuffix.
    change (String c "" +:+ "/") with (String c (String "/" "")).
    rewrite !replace_from_cons, !HasPrefix_double, Hsuffix. cbn [andb].
    change (strings.HasPrefix "" "/") with false. rewrite andb_false_r.
    cbn [strings.replace_from].
    split; [done|]. by rewrite HasSuffix_single.
  - rewrite HasSuffix_cons in Hsuffix. rewrite !app_cons.
    rewrite (replace_from_cons c (String d (s +:+ "/"))), (replace_from_cons c (String d s)).
    rewrite !HasPrefix_double, !HasPrefix_slash.
    destruct (Ascii.eqb c "/" && Ascii.eqb d "/") eqn:Hdouble; cbn [strings.drop].
    + destruct s as [|e s].
      { apply andb_true_iff in Hdouble as [_ Hd]. by rewrite HasSuffix_single, Hd in Hsuffix. }
      rewrite HasSuffix_cons in Hsuffix.
      destruct (IH (strings.len (String e s))) with (p := String e s) as [Happ Hno];
        [unfold strings.len in *; cbn in *; lia|done|done|].
      rewrite Happ. split; [by rewrite app_cons|].
      destruct (strings.replace_from "//" "/" 0 (String e s)) as [|x t] eqn:Hr;
        [by apply replace_nonempty in Hr|].
      by rewrite HasSuffix_cons.
    + destruct (IH (strings.len (String d s))) with (p := String d s) as [Happ Hno];
        [unfold strings.len in *; cbn in *; lia|done|done|].
      rewrite <- app_cons, Happ. split; [by rewrite app_cons|].
      destruct (strings.replace_from "//" "/" 0 (String d s)) as [|x t] eqn:Hr;
        [by apply replace_nonempty in Hr|].
      by rewrite HasSuffix_cons.
Qed.

Lemma TrimSuffix_app_slash (t : string) : strings.TrimSuffix (t +:+ "/") "/" = t.
Proof.
  unfold strings.TrimSuffix, strings.HasSuffix. rewrite len_app.
  change (strings.len "/") with 1%nat.
  replace (strings.len t + 1 - 1)%nat with (strings.len t) by lia.
  assert ((1 <=? strings.len t + 1)%nat = true) as -> by (apply Nat.leb_le; lia).
  assert (strings.drop (strings.len t) (t +:+ "/") = "/"
          ∧ strings.take (strings.len t) (t +:+ "/") = t) as [-> ->]; [|done].
  unfold strings.len. induction t as [|c t [IH1 IH2]]; [done|].
  rewrite app_cons. cbn. by rewrite IH1, IH2.
Qed.

(** X15: a trailing separator does not change the key.  For every path
    that does not end with a separator, the path followed by a separator
    has the same normalized form, and so the same cache key for every
    method and query. *)
Theorem trailing_slash_same_key (method path query : string) :
  strings.HasSuffix path "/" = false →
  keygen.normalizePath (path +:+ "/") = keygen.normalizePath path
  ∧ keygen.GenerateCacheKey method (path +:+ "/") query
    = keygen.GenerateCacheKey method path query.
Proof.
  intros Hsuffix.
  assert (keygen.normalizePath (path +:+ "/") = keygen.normalizePath path) as Hnorm.
  { unfold keygen.normalizePath, strings.ReplaceAll.
    destruct (replace_app_slash (strings.len path) path (le_n _) Hsuffix) as [-> Hno].
    rewrite TrimSuffix_app_slash. unfold strings.TrimSuffix. by rewrite Hno. }
  split; [done|]. unfold keygen.GenerateCacheKey. by rewrite Hnorm.
Qed.

Lemma trailing_slash_same_key_witness :
  keygen.normalizePath ("/v1/users" +:+ "/") = keygen.normalizePath "/v1/users"
  ∧ keygen.GenerateCacheKey "GET" ("/v1/users" +:+ "/") "page=2"
    = keygen.GenerateCacheKey "GET" "/v1/users" "page=2".
Proof.
  apply (trailing_slash_same_key "GET" "/v1/users" "page=2"). reflexivity.
Defined.

End trailing_slash.

(** ** The validation of the Redis configuration *)

Section configuration.

Lemma TrimLeft_all_space (s : string) :
  ∀ k, unicode.TrimLeft k s = EmptyString ↔ unicode.all_space k s = true.
Proof.
  induction s as [|c s IH]; intros k; [done|].
  cbn [unicode.TrimLeft unicode.all_space]. destruct k as [|k]; [|apply IH].
  destruct (unicode.space_width (String c s)); [done|apply IH].
Qed.

(** What [TrimLeft] leaves does not start with white space. *)
Lemma TrimLeft_head (s : string) :
  ∀ k, unicode.TrimLeft k s = EmptyString
       ∨ unicode.space_width (unicode.TrimLeft k s) = 0%nat.
Proof.
  induction s as [|c s IH]; intros k; [by left|].
  cbn [unicode.TrimLeft]. destruct k as [|k]; [|apply IH].
  destruct (unicode.space_width (String c s)) eqn:Hw; [by right|apply IH].
Qed.

(** [TrimSpace] gives the empty string for the blank strings only. *)
Lemma TrimSpace_empty (s : string) :
  unicode.TrimSpace s = EmptyString ↔ blank s.
Proof.
  unfold unicode.TrimSpace, blank. rewrite <- TrimLeft_all_space. split.
  - intros H. destruct (TrimLeft_head s 0) as [Hl|Hl]; [done|].
    destruct (unicode.TrimLeft 0 s) as [|c t] eqn:Ht; [done|].
    cbn [unicode.TrimRight unicode.all_space] in H. rewrite Hl in H. done.
  - by intros ->.
Qed.

(** Without a host [Validate] finds a fault, whatever the port and the
    database index are. *)
Lemma Validate_empty_host (p db : Z) :
  ∃ cause, config.Validate
             (config.mkRedisConfig EmptyString p EmptyString db false 0 0 0 0 0 0 0)
           = Some cause.
Proof.
  unfold config.Validate. cbn [config.Port config.DB config.Host].
  destruct ((p <? 1) || (65535 <? p)); [by eexists|].
  destruct (db <? 0); by eexists.
Qed.

(** X16: [ValidateRedisConfig] decides whether Redis is used.  With no
    host and no port it returns nil and disables Redis.  Otherwise it
    returns nil and enables Redis exactly when the host is not blank, the
    port is 0 (for the default 6379) or within 1..65535, and the database
    index is not negative; in every other case it returns an error that
    wraps the cause and leaves the flag as it was.  In particular a port
    without a host is always an error. *)
Theorem ValidateRedisConfig_decides (host : string) (port db : Z) (enabled : bool) :
  (host = EmptyString ∧ port = 0 →
     config.ValidateRedisConfig host port db enabled = (None, false))
  ∧ (¬ (host = EmptyString ∧ port = 0) →
       (¬ blank host ∧ (port = 0 ∨ 1 ≤ port ≤ 65535) ∧ 0 ≤ db →
          config.ValidateRedisConfig host port db enabled = (None, true))
       ∧ (¬ (¬ blank host ∧ (port = 0 ∨ 1 ≤ port ≤ 65535) ∧ 0 ≤ db) →
            ∃ cause, config.ValidateRedisConfig host port db enabled
                     = (Some (errors.Errorf_w "invalid Redis configuration: " cause),
                        enabled)
                     ∧ config.Validate
                         (config.mkRedisConfig host (if port =? 0 then 6379 else port)
                            EmptyString db false 0 0 0 0 0 0 0) = Some cause))
  ∧ (host = EmptyString → port ≠ 0 →
       ∃ err, config.ValidateRedisConfig host port db enabled = (Some err, enabled)).
Proof.
  assert (∀ h p, 1 ≤ p ≤ 65535 → 0 ≤ db → ¬ blank h →
            config.Validate (config.mkRedisConfig h p EmptyString db false 0 0 0 0 0 0 0)
            = None) as Hok.
  { intros h p Hp Hdb Hh. unfold config.Validate. cbn [config.Port config.DB config.Host].
    assert ((p <? 1) || (65535 <? p) = false) as -> by lia.
    assert ((db <? 0) = false) as -> by lia.
    rewrite bool_decide_eq_false_2; [done|]. intros HH. by apply Hh, TrimSpace_empty. }
  assert (∀ h p, ¬ (1 ≤ p ≤ 65535 ∧ 0 ≤ db ∧ ¬ blank h) →
            ∃ cause, config.Validate
                       (config.mkRedisConfig h p EmptyString db false 0 0 0 0 0 0 0)
                     = Some cause) as Hbad.
  { intros h p Hn. unfold config.Validate. cbn [config.Port config.DB config.Host].
    destruct ((p <? 1) || (65535 <? p)) eqn:Hp; [by eexists|].
    destruct (db <? 0) eqn:Hdb; [by eexists|].
    destruct (bool_decide_reflect (unicode.TrimSpace h = EmptyString)) as [Hh|Hh];
      [by eexists|].
    exfalso. apply Hn. split; [lia|]. split; [lia|]. intros HH. by apply Hh, TrimSpace_empty. }
  unfold config.ValidateRedisConfig. split; [|split].
  - intros [-> ->]. reflexivity.
  - intros Hconf.
    assert (negb (negb (bool_decide (host = EmptyString)) || negb (port =? 0)) = false)
      as ->.
    { destruct (bool_decide_reflect (host = EmptyString)) as [->|]; [|done].
      destruct (Z.eqb_spec port 0) as [->|]; [|done]. tauto. }
    cbn [config.Port config.Host config.DB config.Password config.Enabled
         config.MaxIdle config.MaxActive config.IdleTimeout config.PoolTimeout
         config.DialTimeout config.ReadTimeout config.WriteTimeout].
    split.
    + intros (Hh & Hp & Hdb).
      destruct (Z.eqb_spec port 0); (rewrite Hok; [done|lia|done|done]).
    + intros Hn. destruct (Hbad host (if port =? 0 then 6379 else port)) as [cause Hc].
      { intros (Hp & Hdb & Hh). apply Hn. split; [done|]. split; [|done].
        destruct (Z.eqb_spec port 0); [by left|by right]. }
      exists cause. split; [|done].
      destruct (port =? 0); by rewrite Hc.
  - intros -> Hp.
    rewrite (proj2 (Z.eqb_neq _ _) Hp).
    rewrite bool_decide_eq_true_2 by done. cbn [negb orb config.Port].
    rewrite (proj2 (Z.eqb_neq _ _) Hp).
    destruct (Validate_empty_host port db) as [cause Hc]. rewrite Hc. by eexists.
Qed.

End configuration.

(** ** Loading the configuration *)

Section loading.

Lemma is_digit_not_sign (c : ascii) :
  strconv.is_digit c = true → Ascii.eqb c "-" = false ∧ Ascii.eqb c "+" = false.
Proof. destruct c as [[] [] [] [] [] [] [] []]; done. Qed.

(** [strconv.Atoi] reads back what [strconv.FormatInt] writes for a
    number that is not negative. *)
Lemma Atoi_FormatInt (n : Z) :
  0 ≤ n < 2 ^ 63 → strconv_Atoi.Atoi (strconv.FormatInt n) = (n, None).
Proof.
  intros Hn. unfold strconv.FormatInt, strconv_Atoi.Atoi.
  assert ((n <? 0) = false) as -> by lia.
  destruct (digits_spec 19 n) as (c & t & -> & Hall & Hval & _); [lia|].
  pose proof Hall as Hc. cbn [strconv.all_digits] in Hc.
  apply andb_true_iff in Hc as [Hc _].
  destruct (is_digit_not_sign c Hc) as [-> ->].
  rewrite bool_decide_eq_false_2 by done. rewrite Hall, Hval. cbn [negb orb].
  by assert ((- 2 ^ 63 <=? n) && (n <? 2 ^ 63) = true) as -> by lia.
Qed.

(** X17: whatever the registry holds, [LoadSessionCacheConfig] leaves a
    lifetime between 10 and 120 minutes in [SessionCacheTTL] and changes
    nothing else: the number that [SESSION_CACHE_TTL] denotes when it is a
    decimal number within that range, and 30 in every other case (the
    setting is empty, is no number, or is out of range). *)
Theorem LoadSessionCacheConfig_range (v : viper.Registry) (w : World) :
  ∃ ttl, config.LoadSessionCacheConfig v w = Done () (config.set_SessionCacheTTL ttl w)
    ∧ 10 ≤ ttl ≤ 120
    ∧ (ttl = 30
       ∨ strconv_Atoi.Atoi (viper.GetString v "SESSION_CACHE_TTL") = (ttl, None))
    ∧ (∀ n, strconv_Atoi.Atoi (viper.GetString v "SESSION_CACHE_TTL") = (n, None) →
            10 ≤ n ≤ 120 → ttl = n)
    ∧ (∀ n, viper.GetString v "SESSION_CACHE_TTL" = strconv.FormatInt n →
            10 ≤ n ≤ 120 → ttl = n).
Proof.
  unfold config.LoadSessionCacheConfig. run.
  assert (∀ n, viper.GetString v "SESSION_CACHE_TTL" = strconv.FormatInt n →
               10 ≤ n ≤ 120 →
               viper.GetString v "SESSION_CACHE_TTL" ≠ EmptyString
               ∧ strconv_Atoi.Atoi (viper.GetString v "SESSION_CACHE_TTL") = (n, None))
    as Hfmt.
  { intros n Hs Hn. rewrite Hs, Atoi_FormatInt by lia. split; [|done].
    unfold strconv.FormatInt. assert ((n <? 0) = false) as -> by lia.
    by destruct (digits_spec 19 n) as (c & t & -> & _); [lia|]. }
  destruct (bool_decide_reflect (viper.GetString v "SESSION_CACHE_TTL" = EmptyString))
    as [He|He].
  { exists 30. split; [done|]. split; [lia|]. split; [by left|]. split.
    - intros n Hn. rewrite He in Hn. by injection Hn.
    - intros n Hs Hn. by destruct (Hfmt n Hs Hn). }
  destruct (strconv_Atoi.Atoi (viper.GetString v "SESSION_CACHE_TTL"))
    as [ttl [err|]] eqn:Ha.
  { exists 30. split; [done|]. split; [lia|]. split; [by left|]. split.
    - by intros n [=].
    - intros n Hs Hn. destruct (Hfmt n Hs Hn) as [_ [=]]. }
  destruct ((ttl <? 10) || (120 <? ttl)) eqn:Hr.
  { exists 30. split; [done|]. split; [lia|]. split; [by left|]. split.
    - intros n [= <-]. lia.
    - intros n Hs Hn. destruct (Hfmt n Hs Hn) as [_ [= <-]]. lia. }
  exists ttl. split; [done|]. split; [lia|]. split; [by right|]. split.
  - by intros n [= <-].
  - intros n Hs Hn. by destruct (Hfmt n Hs Hn) as [_ [= <-]].
Qed.

(** X18: a deployment that sets a port and no host.  [LoadRedisConfig]
    yields an enabled configuration for [localhost] with the port, which
    [Validate] accepts when the port is within 1..65535; but
    [ValidateRedisConfig], which the start-up code runs on the same three
    settings, returns an error (which the start-up code treats as
    fatal). *)
Theorem port_without_host (v : viper.Registry) (enabled : bool) :
  viper.GetString v "REDIS_HOST" = EmptyString →
  viper.GetString v "REDIS_PORT" ≠ EmptyString →
  1 ≤ viper.GetInt v "REDIS_PORT" ≤ 65535 →
  ∃ cfg, config.LoadRedisConfig v = (cfg, None)
    ∧ config.Enabled cfg = true ∧ config.Host cfg = "localhost"
    ∧ config.Port cfg = viper.GetInt v "REDIS_PORT"
    ∧ config.Validate cfg = None
    ∧ ∃ err, config.ValidateRedisConfig (viper.GetString v "REDIS_HOST")
               (viper.GetInt v "REDIS_PORT") (viper.GetInt v "REDIS_DB") enabled
             = (Some err, enabled).
Proof.
  intros Hhost Hport Hrange. unfold config.LoadRedisConfig.
  rewrite Hhost. rewrite (bool_decide_eq_false_2 (_ = EmptyString) Hport).
  cbn [negb orb bool_decide]. eexists. split; [reflexivity|].
  cbn [config.Enabled config.Host config.Port].
  split; [done|]. split; [done|].
  assert (config.or_default (viper.GetInt v "REDIS_PORT") 6379
          = viper.GetInt v "REDIS_PORT") as Hp.
  { unfold config.or_default. destruct (Z.eqb_spec (viper.GetInt v "REDIS_PORT") 0); lia. }
  split; [done|]. split.
  - unfold config.Validate. cbn [config.Port config.DB config.Host]. rewrite Hp.
    assert ((viper.GetInt v "REDIS_PORT" <? 1) || (65535 <? viper.GetInt v "REDIS_PORT")
            = false) as -> by lia.
    cbn [orb]. cbv zeta.
    assert (((if viper.GetInt v "REDIS_DB" <? 0 then 0 else viper.GetInt v "REDIS_DB") <? 0)
            = false) as -> by (destruct (Z.ltb_spec (viper.GetInt v "REDIS_DB") 0); lia).
    reflexivity.
  - unfold config.ValidateRedisConfig.
    assert ((viper.GetInt v "REDIS_PORT" =? 0) = false) as Hz by lia.
    rewrite Hz. rewrite bool_decide_eq_true_2 by done. cbn [negb orb config.Port].
    rewrite Hz.
    destruct (Validate_empty_host (viper.GetInt v "REDIS_PORT") (viper.GetInt v "REDIS_DB"))
      as [cause Hc].
    rewrite Hc. by eexists.
Qed.

Lemma port_without_host_witness :
  ∃ cfg, config.LoadRedisConfig (registry_of {[ "REDIS_PORT" := "6380" ]}) = (cfg, None)
    ∧ config.Enabled cfg = true ∧ config.Host cfg = "localhost"
    ∧ config.Port cfg = viper.GetInt (registry_of {[ "REDIS_PORT" := "6380" ]}) "REDIS_PORT"
    ∧ config.Validate cfg = None
    ∧ ∃ err, config.ValidateRedisConfig
               (viper.GetString (registry_of {[ "REDIS_PORT" := "6380" ]}) "REDIS_HOST")
               (viper.GetInt (registry_of {[ "REDIS_PORT" := "6380" ]}) "REDIS_PORT")
               (viper.GetInt (registry_of {[ "REDIS_PORT" := "6380" ]}) "REDIS_DB") false
             = (Some err, false).
Proof.
  apply (port_without_host (registry_of {[ "REDIS_PORT" := "6380" ]}) false).
  - reflexivity.
  - vm_compute. discriminate.
  - vm_compute. split; discriminate.
Defined.

(** X19: the limits of the rate limiter.  With a facade, and unless
    [RATE_LIMIT_ENABLED] is set to something other than [true], the limiter
    is built with the larger of the two request limits and the larger of
    the two windows that [LoadRateLimiterConfig] loads, both of them
    positive whatever the registry holds (500 requests in 15 minutes when
    nothing is set), with the key generator of the repository; without a
    facade or a configuration there is no limiter. *)
Theorem rate_limiter_limits (v : viper.Registry) (r : redis.RedisClient) :
  let cfg := config.LoadRateLimiterConfig v in
  ratelimiter.NewRateLimiterMiddleware None (Some cfg) = None
  ∧ ratelimiter.NewRateLimiterMiddleware (Some r) None = None
  ∧ match ratelimiter.NewRateLimiterMiddleware (Some r) (Some cfg) with
    | None =>
        viper.GetString v "RATE_LIMIT_ENABLED" ≠ EmptyString
        ∧ viper.GetString v "RATE_LIMIT_ENABLED" ≠ "true"
    | Some l =>
        (viper.GetString v "RATE_LIMIT_ENABLED" = EmptyString
         ∨ viper.GetString v "RATE_LIMIT_ENABLED" = "true")
        ∧ ratelimiter.Max l = Z.max (config.AuthMax cfg) (config.DefaultMax cfg)
        ∧ ratelimiter.Expiration l
          = Z.max (config.AuthWindow cfg) (config.DefaultWindow cfg)
        ∧ 1 ≤ ratelimiter.Max l ∧ 1 ≤ ratelimiter.Expiration l
        ∧ (viper.GetInt v "RATE_LIMIT_MAX" ≤ 0 →
           viper.GetInt v "RATE_LIMIT_AUTH_MAX" ≤ 0 → ratelimiter.Max l = 500)
        ∧ (viper.GetDuration v "RATE_LIMIT_WINDOW" ≤ 0 →
           viper.GetDuration v "RATE_LIMIT_AUTH_WINDOW" ≤ 0 →
           ratelimiter.Expiration l = 15 * gobreaker.minute)
        ∧ ratelimiter.KeyGenerator l = limiter.KeyGenerator
        ∧ ratelimiter.SkipSuccessfulRequests l = true
    end.
Proof.
  cbv zeta. split; [done|]. split; [done|].
  unfold ratelimiter.NewRateLimiterMiddleware, config.LoadRateLimiterConfig.
  cbn [config.RateEnabled config.AuthMax config.DefaultMax config.AuthWindow
       config.DefaultWindow].
  destruct (bool_decide_reflect (viper.GetString v "RATE_LIMIT_ENABLED" = EmptyString))
    as [He|He];
    [|destruct (bool_decide_reflect (viper.GetString v "RATE_LIMIT_ENABLED" = "true"))
        as [Ht|Ht]]; cbn [orb negb]; [| |done].
  all: cbn [ratelimiter.Max ratelimiter.Expiration ratelimiter.KeyGenerator
            ratelimiter.SkipSuccessfulRequests].
  all: unfold config.or_default_pos, gobreaker.minute, gobreaker.second.
  all: split; [tauto|].
  all: repeat match goal with
         | |- context [?a <=? ?b] => destruct (Z.leb_spec a b)
         | |- context [?a <? ?b] => destruct (Z.ltb_spec a b)
         end.
  all: repeat split; lia.
Qed.

End loading.

(** ** The health monitor *)

Section health_monitor.
Import healthmonitor.

Lemma checkHealth_run (hm : HealthMonitor) (c : goredis_Client) (w : World) :
  client hm = Some c →
  checkHealth hm w
  = Done (match faults w with Some _ :: _ => false | _ => true end)
         (set_net (keyspace w) (tail (faults w)) (wire w ++ [server.CmdPing]) w).
Proof.
  intros Hc. unfold checkHealth, goredis.Ping, goredis.roundtrip. rewrite Hc. run.
  by destruct (faults w) as [|[e|] fs].
Qed.

Lemma answers_S (n : nat) (fs : list (option error)) :
  answers (S n) fs
  = match fs with Some _ :: _ => false | _ => true end :: answers n (tail fs).
Proof. by destruct fs as [|[e|] fs]. Qed.

Lemma drop_tail {A} (n : nat) (l : list A) : drop n (tail l) = drop (S n) l.
Proof. destruct l; cbn; [by rewrite drop_nil|done]. Qed.

Lemma last_cons {A} (l : list A) : ∀ a d, List.last (a :: l) d = List.last l a.
Proof.
  induction l as [|x l IH]; intros a d; [done|].
  change (List.last (a :: x :: l) d) with (List.last (x :: l) d). by rewrite !IH.
Qed.

Lemma set_net_id (w : World) : set_net (keyspace w) (faults w) (wire w) w = w.
Proof. by destruct w. Qed.

(** The rounds of the loop: the flag follows the answers, and the callback
    is called for the answers that differ from the one before. *)
Lemma Start_loop_run (n : nat) :
  ∀ (c : goredis_Client) (iv : Z) (av cb : bool) (w : World),
    Start_loop n (mkHealthMonitor (Some c) iv av cb) w
    = Done (mkHealthMonitor (Some c) iv (List.last (answers n (faults w)) av) cb,
            if cb then changes av (answers n (faults w)) else [])
           (set_net (keyspace w) (drop n (faults w))
                    (wire w ++ replicate n server.CmdPing) w).
Proof.
  induction n as [|n IH]; intros c iv av cb w.
  - cbn. rewrite app_nil_r, set_net_id. by destruct cb.
  - cbn [Start_loop]. unfold Start_tick. run.
    rewrite (checkHealth_run (mkHealthMonitor (Some c) iv av cb) c w eq_refl), answers_S.
    set (a := match faults w with Some _ :: _ => false | _ => true end).
    cbn [available store client interval onStateChange].
    rewrite last_cons. cbn [changes].
    destruct (Bool.eqb a av); cbn [negb]; unfold store;
      cbn [client interval onStateChange]; rewrite IH;
      cbn [faults set_net wire keyspace replicate];
      rewrite drop_tail, <- app_assoc; by destruct cb.
Qed.



End health_monitor.

(** ** The rights of a role *)

Section authorization.
Import service auth.

Lemma elem_of_rightSet_of (userRights : list string) (x : string) :
  x ∈ rightSet_of userRights ↔ x ∈ userRights.
Proof.
  unfold rightSet_of.
  assert (∀ acc : gset string,
            x ∈ foldl (fun rightSet right' => {[right']} ∪ rightSet) acc userRights
            ↔ x ∈ acc ∨ x ∈ userRights) as H.
  { induction userRights as [|y l IH]; intros acc; cbn [foldl].
    - rewrite elem_of_nil. tauto.
    - rewrite IH, elem_of_union, elem_of_singleton, elem_of_cons. tauto. }
  rewrite H, elem_of_empty. tauto.
Qed.

Lemma all_exist_subset (rightSet : gset string) (requiredRights : list string) :
  all_exist rightSet requiredRights = true ↔ ∀ x, x ∈ requiredRights → x ∈ rightSet.
Proof.
  induction requiredRights as [|y l IH]; cbn [all_exist].
  - split; [|done]. intros _ x Hx. by apply elem_of_nil in Hx.
  - destruct (bool_decide_reflect (y ∈ rightSet)) as [Hy|Hy]; cbn [negb].
    + rewrite IH. split.
      * intros H x [->|Hx]%elem_of_cons; [done|by apply H].
      * intros H x Hx. apply H. by right.
    + split; [done|]. intros H. exfalso. apply Hy, H. by left.
Qed.

(** X21: [hasAllRights] holds exactly when every required right is among
    the rights of the user; the order and the repetitions of the two lists
    do not matter, and with nothing required it holds. *)
Theorem hasAllRights_subset (userRights requiredRights : list string) :
  hasAllRights userRights requiredRights = true
  ↔ ∀ x, x ∈ requiredRights → x ∈ userRights.
Proof.
  unfold hasAllRights. rewrite all_exist_subset.
  split; intros H x Hx; apply elem_of_rightSet_of; by apply H.
Qed.

End authorization.

(** ** The handler of [Auth] *)

Section auth_handler.
Import gobreaker service auth.

Local Arguments gobreaker.beforeRequest : simpl never.
Local Arguments gobreaker.afterRequest : simpl never.
Local Arguments gobreaker.StateOf : simpl never.
Local Arguments json_Marshal : simpl never.
Local Arguments json_Unmarshal : simpl never.
Local Arguments base64.EncodeToString : simpl never.

(** X22: a request without a token, or with a token that does not verify,
    is answered 401 before the session service is touched: the world is as
    it was, whatever the session service is (even nil).  The token is what
    is left of the [Authorization] header once a leading [Bearer ] and the
    white space around the rest are removed; a header of another scheme is
    taken as a token as it is. *)
Theorem Auth_rejects_unauthenticated (sv : Services)
    (sessionService : option sessionService) (requiredRights : list string)
    (c : Ctx) (paramUserId : string) (w : World) :
  bearer c = EmptyString ∨ (auth.VerifyToken sv (bearer c)).2 ≠ None →
  Auth sv sessionService requiredRights c paramUserId w
  = Done (Error StatusUnauthorized "Please authenticate") w.
Proof.
  intros H. unfold Auth. fold (bearer c).
  destruct (bool_decide_reflect (bearer c = EmptyString)) as [|Hne]; [done|].
  destruct H as [|H]; [done|].
  destruct (VerifyToken sv (bearer c)) as [userID [err|]]; done.
Qed.

Lemma Auth_rejects_unauthenticated_witness :
  auth.Auth services0 None ["getUsers"] anonymous EmptyString start
  = Done (auth.Error auth.StatusUnauthorized "Please authenticate") start.
Proof.
  apply (Auth_rejects_unauthenticated services0 None ["getUsers"] anonymous EmptyString
           start).
  left. reflexivity.
Defined.

(** The permission check lets a user through who needs no right, who
    addresses the resource of their own identifier, or whose role has every
    required right, and nobody else. *)
Lemma authorize_spec (sv : Services) (requiredRights : list string) (user : User)
    (populate : bool) (paramUserId userID : string) :
  (requiredRights = [] ∨ paramUserId = userID
   ∨ ∃ rights, RoleRights sv !! UserRole user = Some rights
               ∧ ∀ x, x ∈ requiredRights → x ∈ rights)
  ∧ authorize sv requiredRights user populate paramUserId userID = Next user populate
  ∨ ¬ (requiredRights = [] ∨ paramUserId = userID
       ∨ ∃ rights, RoleRights sv !! UserRole user = Some rights
                   ∧ ∀ x, x ∈ requiredRights → x ∈ rights)
    ∧ authorize sv requiredRights user populate paramUserId userID
      = Error StatusForbidden "You don't have permission to access this resource".
Proof.
  unfold authorize. destruct requiredRights as [|y l]; [left; by split; [left|]|].
  cbn [length Nat.ltb Nat.leb].
  destruct (bool_decide_reflect (paramUserId = userID)) as [Hp|Hp].
  { left. rewrite andb_false_r. split; [by right; left|done]. }
  rewrite andb_true_r.
  destruct (RoleRights sv !! UserRole user) as [rights|] eqn:Hr.
  - rewrite bool_decide_eq_true_2 by by eexists. cbn -[hasAllRights].
    destruct (hasAllRights rights (y :: l)) eqn:Hall; cbn [negb].
    + left. split; [|done]. right; right. exists rights. split; [done|].
      intros x Hx. apply elem_of_rightSet_of.
      by apply (proj1 (all_exist_subset _ _) Hall).
    + right. split; [|done]. intros [?|[?|(rights' & [= <-] & H)]]; [done|done|].
      assert (hasAllRights rights (y :: l) = true); [|congruence].
      apply all_exist_subset. intros x Hx. by apply elem_of_rightSet_of, H.
  - rewrite bool_decide_eq_false_2 by by intros [? ?]. cbn [negb orb].
    right. split; [|done]. by intros [?|[?|(rights' & ? & ?)]].
Qed.

(** X23: whom the handler of [Auth] lets through.  When it hands a request
    on, the token of the request verifies for a subject, and no right is
    required, or the request addresses the resource of that subject, or the
    role of the user that is handed on has every required right. *)
Theorem Auth_lets_through (sv : Services) (sessionService : option sessionService)
    (requiredRights : list string) (c : Ctx) (paramUserId : string) (w w' : World)
    (user : User) (populate : bool) :
  Auth sv sessionService requiredRights c paramUserId w = Done (Next user populate) w' →
  ∃ userID, authenticated sv c userID
    ∧ (requiredRights = [] ∨ paramUserId = userID
       ∨ ∃ rights, RoleRights sv !! UserRole user = Some rights
                   ∧ ∀ x, x ∈ requiredRights → x ∈ rights).
Proof.
  unfold Auth, authenticated. fold (bearer c).
  destruct (bool_decide_reflect (bearer c = EmptyString)) as [|Hne]; [done|].
  destruct (VerifyToken sv (bearer c)) as [userID [err|]]; [done|].
  intros H. exists userID. split; [done|]. revert H. run.
  destruct sessionService as [s|]; [|done].
  destruct (GetUserSession s userID w) as [[sessionData err] w1|]; [|done].
  assert (∀ u pop, authorize sv requiredRights u pop paramUserId userID = Next user populate →
            requiredRights = [] ∨ paramUserId = userID
            ∨ ∃ rights, RoleRights sv !! UserRole user = Some rights
                        ∧ ∀ x, x ∈ requiredRights → x ∈ rights) as Hauth.
  { intros u pop Hu.
    destruct (authorize_spec sv requiredRights u pop paramUserId userID) as [[H1 H2]|[_ H2]];
      rewrite H2 in Hu; [|done]. by injection Hu as -> ->. }
  destruct err as [err|], sessionData as [sd|].
  all: try (destruct (GetUserByID sv userID) as [[u|] [e|]]; try done;
            intros [= H _]; by apply (Hauth u true)).
  destruct (MustParse sv (ID sd)) as [id|]; [|done].
  intros [= H _]. by eapply Hauth.
Qed.

Lemma Auth_lets_through_witness :
  ∃ userID, authenticated services0 request0 userID
    ∧ (["getUsers"] = [] ∨ EmptyString = userID
       ∨ ∃ rights, auth.RoleRights services0 !! UserRole alice = Some rights
                   ∧ ∀ x, x ∈ ["getUsers"] → x ∈ rights).
Proof.
  eapply (Auth_lets_through services0 (Some sessions0) ["getUsers"] request0 EmptyString
            start _ alice true).
  vm_compute. reflexivity.
Defined.

End auth_handler.

(** ** Cache-aside in the handler of [Auth] *)

Section cache_aside.
Import gobreaker service auth.

Local Arguments gobreaker.beforeRequest : simpl never.
Local Arguments gobreaker.afterRequest : simpl never.
Local Arguments gobreaker.StateOf : simpl never.
Local Arguments json_Marshal : simpl never.
Local Arguments json_Unmarshal : simpl never.
Local Arguments base64.EncodeToString : simpl never.

(** A miss that the breaker can take: the store is available afterwards. *)
Lemma GetUserSession_miss_steady (s : sessionService) (userID : string) (w : World) :
  steady s w → payload w userID = None →
  ∃ w1, GetUserSession s userID w = Done (None, Some ErrCacheMiss) w1
        ∧ available s w1 ∧ keyspace w1 = keyspace w ∧ clock w1 = clock w
        ∧ entropy w1 = entropy w
        ∧ config_SessionCacheTTL w1 = config_SessionCacheTTL w.
Proof.
  intros (r & c & p & cb & e & Hr & Hc & Hp & Hcb & Hl & Hconf & Hs & He & Hnow
          & Hcf & Hflag & Hf) Hpay.
  unfold GetUserSession. run.
  rewrite (IsAvailable_closed_in_interval w p cb e) by done. cbn [negb].
  unfold redis.ExecuteWithCircuitBreaker. rewrite Hr, Hp.
  rewrite (Execute_run p cb) by done.
  pose proof (closed_failure cb (clock w) e Hconf Hs He Hnow ltac:(lia)) as Hcall.
  unfold call in Hcall.
  destruct (beforeRequest (clock w) cb) as [[cb1 gen] err] eqn:Hbefore.
  assert (err = None) as ->.
  { destruct (beforeRequest_closed (clock w) cb Hs) as (? & ? & Heq & _).
    rewrite Hbefore in Heq. by injection Heq. }
  cbn zeta. rewrite (getFn_run s r c) by done.
  cbn [faults set_heap set_net heap clock]. rewrite lookup_insert_eq.
  change (payload (set_heap _ w) userID) with (payload w userID). rewrite Hpay, Hf.
  rewrite (bool_decide_eq_false_2 (Some ErrCacheMiss = None)) by done. cbn.
  cbn [fst] in Hcall. destruct Hcall as [Hlt _].
  destruct (Hlt ltac:(lia)) as (Hclosed & _ & _).
  eexists. split; [reflexivity|]. cbn. split; [|done].
  exists r, c, p, (afterRequest (clock w) gen false cb1). cbn.
  rewrite lookup_insert_eq. by repeat split.
Qed.



End cache_aside.

(** ** The callers of the session service: login *)

Section callers.
Import gobreaker service tokens.

Local Arguments gobreaker.beforeRequest : simpl never.
Local Arguments gobreaker.afterRequest : simpl never.
Local Arguments gobreaker.StateOf : simpl never.
Local Arguments json_Marshal : simpl never.
Local Arguments json_Unmarshal : simpl never.
Local Arguments base64.EncodeToString : simpl never.
Local Arguments strings.take : simpl never.
Local Arguments strings.len : simpl never.

(** [CacheUserSession] when the store is available, step by step. *)
Lemma CacheUserSession_available (s : sessionService) (userID : string) (user : User)
    (w : World) (b : string) (ent : list (string + error)) :
  available s w → entropy w = inl b :: ent → (32 ≤ strings.len b)%nat →
  10 ≤ config_SessionCacheTTL w ≤ 120 →
  ∃ w1, CacheUserSession s userID (Some user) w = Done None w1
        ∧ available s w1 ∧ clock w1 = clock w ∧ entropy w1 = ent
        ∧ config_SessionCacheTTL w1 = config_SessionCacheTTL w
        ∧ keyspace w1
          = <["session:user:" +:+ userID :=
                server.mkEntry (json_Marshal (session_of user b w)).1
                  (Some (clock w + config_SessionCacheTTL w * minute))]>
              (keyspace w).
Proof.
  intros (r & c & p & cb & Hr & Hc & Hp & Hcb & Hl & Hs & Hflag & Hf) He Hb Httl.
  unfold CacheUserSession. run.
  destruct (IsAvailable_closed w p cb Hflag Hcb Hl Hs) as (cb1 & -> & Hs1).
  cbn [negb]. rewrite GenerateSessionID_run. cbn [entropy set_heap]. rewrite He.
  rewrite (proj2 (Nat.leb_le _ _) Hb).
  unfold unix_now. run. cbn [clock set_entropy set_heap].
  rewrite json_Marshal_pair.
  unfold redis.ExecuteWithCircuitBreaker. rewrite Hr, Hp.
  rewrite (Execute_run p cb1) by apply lookup_insert_eq.
  cbn [clock set_heap set_entropy heap].
  destruct (beforeRequest_closed (clock w) cb1 Hs1) as (cb2 & gen & -> & Hs2).
  cbn zeta. rewrite (cacheFn_run s r c) by done.
  cbn [heap set_net set_heap set_entropy clock]. rewrite lookup_insert_eq.
  cbn [keyspace wire config_SessionCacheTTL set_heap set_entropy set_net].
  eexists. split; [reflexivity|]. cbn. split; [|done].
  eexists r, c, p, _. cbn. rewrite lookup_insert_eq.
  repeat split; try done. by apply afterRequest_closed.
Qed.

(** X25: the session cookie of a login.  When the tokens are signed and
    saved, [GenerateAuthTokens] returns them and sets the cookie
    [session_id] with a lifetime of [SessionCacheTTL] minutes; the value of
    the cookie is a token of its own.  With the store available the session
    in the cache carries the token of the first read of the entropy source
    and the cookie the token of the second; with the store unavailable
    nothing is cached and the cookie is set all the same. *)
Theorem login_session_cookie (o : Outside) (ts : tokenService) (s : sessionService)
    (user : User) (w : World) (access refresh : string) :
  SessionService ts = Some s →
  (∀ iat exp, SignedString o (UserID user) iat exp TokenTypeAccess = (access, None)) →
  (∀ iat exp, SignedString o (UserID user) iat exp TokenTypeRefresh = (refresh, None)) →
  deleteError o = None → createError o = None → validUUID o (UserID user) = true →
  10 ≤ config_SessionCacheTTL w ≤ 120 →
  (∀ b1 b2 ent,
     available s w → entropy w = inl b1 :: inl b2 :: ent →
     (32 ≤ strings.len b1)%nat → (32 ≤ strings.len b2)%nat →
     ∃ w' tk ck,
       GenerateAuthTokens o ts user w = Done (Some tk, None, Some ck) w'
       ∧ AccessToken tk = access ∧ RefreshToken tk = refresh
       ∧ CookieName ck = "session_id" ∧ HTTPOnly ck = true
       ∧ MaxAge ck = config_SessionCacheTTL w * 60
       ∧ Value ck = base64.EncodeToString (strings.take 32 b2)
       ∧ payload w' (UserID user) = Some (json_Marshal (session_of user b1 w)).1
       ∧ SessionID (session_of user b1 w) = base64.EncodeToString (strings.take 32 b1))
  ∧ (∀ b ent,
       unavailable w → entropy w = inl b :: ent → (32 ≤ strings.len b)%nat →
       ∃ tk ck,
         GenerateAuthTokens o ts user w = Done (Some tk, None, Some ck) (set_entropy ent w)
         ∧ CookieName ck = "session_id"
         ∧ Value ck = base64.EncodeToString (strings.take 32 b)).
Proof.
  intros Hss Haccess Hrefresh Hdel Hcreate Huuid Httl.
  assert (wrap64 (config_SessionCacheTTL w * 60) = config_SessionCacheTTL w * 60) as Hmax
    by (apply wrap64_small; unfold int64; lia).
  split.
  - intros b1 b2 ent Hav He Hb1 Hb2.
    destruct (InvalidateSession_available s (UserID user) w Hav)
      as (w1 & Hinv & Hav1 & Hks1 & Hclock1 & Hent1 & Httl1).
    destruct (CacheUserSession_available s (UserID user) user w1 b1 (inl b2 :: ent) Hav1)
      as (w2 & Hstore & Hav2 & Hclock2 & Hent2 & Httl2 & Hks2);
      [by rewrite Hent1|done|by rewrite Httl1|].
    unfold GenerateAuthTokens, GenerateToken, SaveToken, DeleteToken, unix_now. run.
    rewrite Haccess, Hrefresh, Hdel, Hss, Hinv, Huuid, Hcreate, Hstore.
    rewrite GenerateSessionID_run, Hent2, (proj2 (Nat.leb_le _ _) Hb2).
    cbn [config_SessionCacheTTL set_entropy]. rewrite Httl2, Httl1, Hmax.
    eexists _, _, _. split; [reflexivity|]. cbn.
    repeat split; try done.
    unfold payload, server.lookup_live. cbn [keyspace clock set_entropy].
    rewrite Hks2, lookup_insert_eq, Hclock2. cbn.
    assert (session_of user b1 w1 = session_of user b1 w) as ->
      by (unfold session_of; by rewrite Hclock1).
    by assert ((clock w1 <? clock w1 + config_SessionCacheTTL w1 * minute) = true)
      as -> by (unfold minute, second; lia).
  - intros b ent Hun He Hb.
    assert (CacheUserSession s (UserID user) (Some user) w = Done None w) as Hcache
      by (unfold CacheUserSession; run; by rewrite (IsAvailable_unavailable w Hun)).
    assert (InvalidateSession s (UserID user) w = Done None w) as Hinv
      by (unfold InvalidateSession; run; by rewrite (IsAvailable_unavailable w Hun)).
    unfold GenerateAuthTokens, GenerateToken, SaveToken, DeleteToken, unix_now. run.
    rewrite Haccess, Hrefresh, Hdel, Hss, Hinv, Huuid, Hcreate, Hcache.
    rewrite GenerateSessionID_run, He, (proj2 (Nat.leb_le _ _) Hb).
    cbn [config_SessionCacheTTL set_entropy]. rewrite Hmax.
    eexists _, _. split; [reflexivity|]. by cbn.
Qed.

Lemma login_session_cookie_witness :
  ∃ w' tk ck,
    tokens.GenerateAuthTokens outside0 (tokens.mkTokenService (Some sessions0)) alice
      (healthy ∅ [] [inl seed; inl seed2])
    = Done (Some tk, None, Some ck) w'
    ∧ tokens.CookieName ck = "session_id"
    ∧ tokens.Value ck = base64.EncodeToString (strings.take 32 seed2)
    ∧ SessionID (session_of alice seed (healthy ∅ [] [inl seed; inl seed2]))
      = base64.EncodeToString (strings.take 32 seed)
    ∧ payload w' (UserID alice)
      = Some (json_Marshal (session_of alice seed (healthy ∅ [] [inl seed; inl seed2]))).1.
Proof.
  destruct (login_session_cookie outside0 (tokens.mkTokenService (Some sessions0))
              sessions0 alice (healthy ∅ [] [inl seed; inl seed2])
              ("access." +:+ UserID alice) ("refresh." +:+ UserID alice)) as [H _].
  - reflexivity.
  - intros iat exp. reflexivity.
  - intros iat exp. reflexivity.
  - reflexivity.
  - reflexivity.
  - reflexivity.
  - vm_compute. split; discriminate.
  - destruct (H seed seed2 []) as (w' & tk & ck & Hrun & _ & _ & Hname & _ & _ & Hval & Hpay & Hid).
    + exists facade0, client0, 0%nat, (gobreaker.NewCircuitBreaker redis.breakerSettings 0).
      repeat split; first [reflexivity | discriminate].
    + reflexivity.
    + vm_compute. lia.
    + vm_compute. lia.
    + exists w', tk, ck. repeat split; assumption.
Defined.

End callers.

(** ** The callers of the session service: deletions *)

Section deletions.
Import gobreaker service tokens.

(** X26: deleting the tokens of a user or the user invalidates the
    session.  With the store available, [DeleteToken] after a deletion that
    the database accepted, and [DeleteUser] after a deletion that affected a
    row, leave no session of the user in the cache and return what the
    database reported.  [DeleteToken] does not touch the cache when the
    database reported an error, and [DeleteUser] answers 404 and does not
    touch the cache when no row was affected, whatever the database
    reported. *)
Theorem deletions_invalidate_session (o : Outside) (ts : tokenService)
    (s : sessionService) (tokenType userID : string) (rowsAffected : Z)
    (resultError : option error) (w : World) :
  SessionService ts = Some s → available s w →
  (deleteError o = None →
     ∃ w', DeleteToken o ts tokenType userID w = Done None w'
           ∧ payload w' userID = None)
  ∧ (∀ e, deleteError o = Some e →
       DeleteToken o ts tokenType userID w = Done (Some e) w)
  ∧ (rowsAffected ≠ 0 →
       ∃ w', DeleteUser (Some s) rowsAffected resultError userID w
             = Done (DatabaseError <$> resultError) w'
             ∧ payload w' userID = None)
  ∧ (rowsAffected = 0 →
       DeleteUser (Some s) rowsAffected resultError userID w
       = Done (Some (FiberError 404 "User not found")) w).
Proof.
  intros Hss Hav.
  destruct (InvalidateSession_available s userID w Hav) as (w1 & Hinv & _ & Hks1 & _).
  assert (payload w1 userID = None) as Hpay1.
  { unfold payload, server.lookup_live. by rewrite Hks1, lookup_delete_eq. }
  split; [|split; [|split]].
  - intros Hdel. unfold DeleteToken. rewrite Hdel, Hss. run. rewrite Hinv. by exists w1.
  - intros e Hdel. unfold DeleteToken. by rewrite Hdel.
  - intros Hrows. unfold DeleteUser. rewrite (proj2 (Z.eqb_neq _ _) Hrows). run.
    rewrite Hinv. by exists w1.
  - intros ->. reflexivity.
Qed.

Lemma deletions_invalidate_session_witness :
  (∃ w', tokens.DeleteToken outside0 (tokens.mkTokenService (Some sessions0))
           tokens.TokenTypeRefresh "u1" (healthy stocked [] [])
         = Done None w'
         ∧ payload w' "u1" = None)
  ∧ (∃ w', tokens.DeleteUser (Some sessions0) 1 None "u1" (healthy stocked [] [])
           = Done None w'
           ∧ payload w' "u1" = None).
Proof.
  destruct (deletions_invalidate_session outside0 (tokens.mkTokenService (Some sessions0))
              sessions0 tokens.TokenTypeRefresh "u1" 1 None (healthy stocked [] []))
    as (Htoken & _ & Huser & _).
  - reflexivity.
  - exists facade0, client0, 0%nat, (gobreaker.NewCircuitBreaker redis.breakerSettings 0).
    repeat split; first [reflexivity | discriminate].
  - split; [apply Htoken; reflexivity|apply Huser; discriminate].
Defined.

End deletions.

(** ** The wiring of the router when Redis is absent *)

Section wiring.
Import service auth.

(** X27: without Redis the handler of [Auth] panics.  When neither a host
    nor a port is set, or when the PING of [NewRedisClient] is lost,
    [Routes] builds no facade, no cache invalidator and no cache middleware,
    and the session service that it hands to the routes is the nil
    interface; the handler of [Auth] then panics on every request whose
    token verifies, at the call of [GetUserSession]. *)
Theorem Auth_panics_without_redis (v : viper.Registry) (w : World) :
  (viper.GetString v "REDIS_HOST" = EmptyString
   ∧ viper.GetString v "REDIS_PORT" = EmptyString)
  ∨ ¬ delivered w →
  ∃ w', router.Routes v w = Done (router.mkWiring None None None None) w'
    ∧ ∀ (sv : Services) (requiredRights : list string) (c : Ctx)
        (paramUserId userID : string) (w'' : World),
        authenticated sv c userID →
        Auth sv (router.sessionService (router.mkWiring None None None None))
          requiredRights c paramUserId w''
        = Panic nil_deref.
Proof.
  intros H.
  assert (∃ w', router.Routes v w = Done (router.mkWiring None None None None) w')
    as [w' Hroutes].
  { unfold router.Routes, config.LoadRedisConfig.
    destruct (bool_decide_reflect (viper.GetString v "REDIS_HOST" = EmptyString))
      as [Hh|Hh];
      [destruct (bool_decide_reflect (viper.GetString v "REDIS_PORT" = EmptyString))
         as [Hp|Hp]|]; cbn [negb orb config.Enabled].
    - by eexists.
    - destruct H as [[_ ?]|Hlost]; [done|]. run.
      rewrite NewRedisClient_run by done. cbv zeta. unfold delivered in Hlost.
      destruct (faults w) as [|[e|] fs]; [done| |done]. by eexists.
    - destruct H as [[? _]|Hlost]; [done|]. run.
      rewrite NewRedisClient_run by done. cbv zeta. unfold delivered in Hlost.
      destruct (faults w) as [|[e|] fs]; [done| |done]. by eexists. }
  exists w'. split; [done|].
  intros sv requiredRights c paramUserId userID w'' [Htoken Hverify].
  cbn [router.sessionService]. unfold Auth. fold (bearer c).
  rewrite bool_decide_eq_false_2 by done. by rewrite Hverify.
Qed.

Lemma Auth_panics_without_redis_witness :
  ∃ w', router.Routes unset offline = Done (router.mkWiring None None None None) w'
    ∧ auth.Auth services0 None ["getUsers"] request0 EmptyString w' = Panic nil_deref.
Proof.
  destruct (Auth_panics_without_redis unset offline) as (w' & Hroutes & Hpanic).
  - left. split; reflexivity.
  - exists w'. split; [exact Hroutes|].
    apply (Hpanic services0 ["getUsers"] request0 EmptyString (UserID alice) w').
    split; [vm_compute; discriminate|reflexivity].
Defined.

End wiring.
